(** * Tube measurement station: decode, evaluate, frame and configure

    A shallow embedding of the measurement core of the station
    (conversion.py, measurement.py, config_store.py, al1322_client.py,
    hmi.py, state.py and the nmcli splitter of webapp.py) together with
    the properties its specification states about it.  What the code
    takes from outside (the file system, the HTTP request, [json.loads],
    the text decoder, the attributes and the recursion limit of the
    interpreter) enters the definitions as a parameter.

    Python [float] is IEEE 754 binary64, which is what the primitive
    [float] of the standard library is; Python [int] is [Z]; [bytes] are
    lists of integers in 0..255; [str] is [string], that is, sequences of
    code points below 256. *)

From Stdlib Require Import ZArith List Bool Lia Ascii String DecimalString.
From Stdlib Require Import Floats.
Import ListNotations.

Set Warnings "-inexact-float,-register-all".

Local Open Scope string_scope.
Local Open Scope Z_scope.

(** ** Exceptions and the error monad *)

Module Py.

(** The exceptions the modelled code can raise.  [ConversionError] is the
    only one the measurement loop catches. *)
Inductive exn : Type :=
| ConversionError (msg : string)
| ValueError
| OverflowError
| IndexError
| TypeError
| AttributeError
| OSError
| RecursionError.

Inductive res (A : Type) : Type :=
| Ok (a : A)
| Raise (e : exn).

Arguments Ok {A} a.
Arguments Raise {A} e.

Definition bind {A B : Type} (m : res A) (k : A -> res B) : res B :=
  match m with
  | Ok a => k a
  | Raise e => Raise e
  end.

End Py.

Import Py.

Notation "x <- m ;; k" := (Py.bind m (fun x => k))
  (at level 61, m at next level, right associativity).

(** ** Strings: the fragment of [str] the code uses *)

Module PyStr.

Definition ord (c : ascii) : Z := Z.of_N (N_of_ascii c).
Definition chr (n : Z) : ascii := ascii_of_N (Z.to_N n).

Definition between (lo hi n : Z) : bool := (lo <=? n) && (n <=? hi).

(** [str.isspace] on code points below 256. *)
Definition isspace (c : ascii) : bool :=
  let n := ord c in
  between 9 13 n || between 28 32 n || (n =? 133) || (n =? 160).

(** ASCII whitespace, as skipped by [bytes.fromhex]. *)
Definition is_ascii_space (c : ascii) : bool :=
  let n := ord c in between 9 13 n || (n =? 32).

Definition isdigit (c : ascii) : bool := between 48 57 (ord c).

Definition digit_val (c : ascii) : Z := ord c - 48.

Definition hexval (c : ascii) : option Z :=
  let n := ord c in
  if between 48 57 n then Some (n - 48)
  else if between 97 102 n then Some (n - 87)
  else if between 65 70 n then Some (n - 55)
  else None.

Definition is_hex (c : ascii) : bool :=
  match hexval c with Some _ => true | None => false end.

Definition is_empty (s : string) : bool :=
  match s with EmptyString => true | String _ _ => false end.

Fixpoint lstrip (s : string) : string :=
  match s with
  | EmptyString => EmptyString
  | String c s' => if isspace c then lstrip s' else s
  end.

Fixpoint rstrip (s : string) : string :=
  match s with
  | EmptyString => EmptyString
  | String c s' =>
      match rstrip s' with
      | EmptyString => if isspace c then EmptyString else String c EmptyString
      | r => String c r
      end
  end.

Definition strip (s : string) : string := lstrip (rstrip s).

(** [s.split()]: maximal runs of non-whitespace characters. *)
Fixpoint split_ws (cur s : string) : list string :=
  match s with
  | EmptyString => if is_empty cur then [] else [cur]
  | String c s' =>
      if isspace c
      then (if is_empty cur then split_ws "" s' else cur :: split_ws "" s')
      else split_ws (cur ++ String c "") s'
  end.

Definition split (s : string) : list string := split_ws "" s.

(** [sep in s] for a one-character [sep]. *)
Fixpoint contains (sep : ascii) (s : string) : bool :=
  match s with
  | EmptyString => false
  | String c s' => Ascii.eqb c sep || contains sep s'
  end.

(** [s.split(sep, 1)] when [sep] occurs in [s]: the text before and the
    text after its first occurrence. *)
Fixpoint split1 (sep : ascii) (s : string) : string * string :=
  match s with
  | EmptyString => ("", "")
  | String c s' =>
      if Ascii.eqb c sep then ("", s')
      else let '(a, b) := split1 sep s' in (String c a, b)
  end.

(** [s[n:]] for [n >= 0]. *)
Fixpoint drop (n : nat) (s : string) : string :=
  match n, s with
  | O, _ => s
  | S n', String _ s' => drop n' s'
  | S _, EmptyString => EmptyString
  end.

Definition startswith (p s : string) : bool := String.prefix p s.

Definition endswith (p s : string) : bool :=
  (String.length p <=? String.length s)%nat
  && String.eqb (drop (String.length s - String.length p) s) p.

(** [str.lower] on code points below 256: the ASCII capitals and the
    Latin-1 capitals 0xC0..0xDE other than the multiplication sign. *)
Definition lower_char (c : ascii) : ascii :=
  let n := ord c in
  if between 65 90 n then chr (n + 32)
  else if between 192 222 n && negb (n =? 215) then chr (n + 32)
  else c.

Fixpoint lower (s : string) : string :=
  match s with
  | EmptyString => EmptyString
  | String c s' => String (lower_char c) (lower s')
  end.

(** [str.upper], as far as a comparison with an ASCII literal can tell:
    in the modelled range only the ASCII small letters have an ASCII
    capital as upper case, every other character is left in place. *)
Definition upper_char (c : ascii) : ascii :=
  let n := ord c in
  if between 97 122 n then chr (n - 32) else c.

Fixpoint upper (s : string) : string :=
  match s with
  | EmptyString => EmptyString
  | String c s' => String (upper_char c) (upper s')
  end.

Fixpoint all_chars (p : ascii -> bool) (s : string) : bool :=
  match s with
  | EmptyString => true
  | String c s' => p c && all_chars p s'
  end.

(** One or more hex digits. *)
Definition hex_digits1 (s : string) : bool :=
  negb (is_empty s) && all_chars is_hex s.

(** The body of both hex patterns: [0x[0-9a-fA-F]+] or [[0-9a-fA-F]+]. *)
Definition hex_form (s : string) : bool :=
  match s with
  | String "0" (String "x" r) => hex_digits1 r || hex_digits1 s
  | _ => hex_digits1 s
  end.

(** [s] without a final line feed, when it has one. *)
Fixpoint chop_newline (s : string) : option string :=
  match s with
  | EmptyString => None
  | String c EmptyString => if (ord c =? 10) then Some EmptyString else None
  | String c s' =>
      match chop_newline s' with
      | Some r => Some (String c r)
      | None => None
      end
  end.

(** [re.match(r"^0x[0-9a-fA-F]+$|^[0-9a-fA-F]+$", s)]: [$] also matches
    just before a line feed that ends the string. *)
Definition hex_re_match (s : string) : bool :=
  hex_form s
  || match chop_newline s with Some r => hex_form r | None => false end.

End PyStr.

Import PyStr.

(** ** Floats: conversions into binary64 *)

Module PyFloat.

Local Open Scope float_scope.

(** [math.isfinite]. *)
Definition isfinite (x : float) : bool := is_finite x.

(** [float(n)] for an [int]: the nearest binary64 value, ties to even;
    an integer that rounds beyond the largest finite value raises
    [OverflowError]. *)
Definition of_int (n : Z) : res float :=
  let f := SF2Prim (binary_normalize prec emax n 0 false) in
  if is_infinity f then Raise OverflowError else Ok f.

(** The IEEE 754 value of a bit pattern with [ebits] exponent bits and
    [mbits] fraction bits, as [struct.unpack] reads it ('f': 8 and 23,
    'd': 11 and 52); every binary32 value is a binary64 value. *)
Definition of_bits (ebits mbits bits : Z) : float :=
  let sign := Z.testbit bits (ebits + mbits) in
  let e := Z.land (Z.shiftr bits mbits) (Z.ones ebits) in
  let m := Z.land bits (Z.ones mbits) in
  let bias := (2 ^ (ebits - 1) - 1)%Z in
  if (e =? Z.ones ebits)%Z then
    if (m =? 0)%Z then (if sign then neg_infinity else infinity) else nan
  else if (e =? 0)%Z then
    if (m =? 0)%Z then (if sign then (-0)%float else 0%float)
    else SF2Prim (S754_finite sign (Z.to_pos m) (1 - bias - mbits))
  else SF2Prim (S754_finite sign (Z.to_pos (m + 2 ^ mbits)) (e - bias - mbits)).

End PyFloat.

(** ** Numbers from text: [int(s)] and [float(s)] *)

Module PyParse.

(** A run [digit (["_"] digit)*] at the head of [s], continuing the value
    [acc] after [n] digits: the value, the number of digits and the rest. *)
Fixpoint digitpart (acc : Z) (n : nat) (s : string) : Z * nat * string :=
  match s with
  | EmptyString => (acc, n, s)
  | String c s' =>
      if isdigit c then digitpart (10 * acc + digit_val c) (S n) s'
      else if (ord c =? 95) && (0 <? n)%nat then
        match s' with
        | String d s'' =>
            if isdigit d
            then digitpart (10 * acc + digit_val d) (S n) s''
            else (acc, n, s)
        | EmptyString => (acc, n, s)
        end
      else (acc, n, s)
  end.

(** An optional sign at the head of [s]. *)
Definition sign_of (s : string) : bool * string :=
  match s with
  | String c r =>
      if ord c =? 45 then (true, r)
      else if ord c =? 43 then (false, r)
      else (false, s)
  | EmptyString => (false, s)
  end.

(** The whitespace [int] and [float] skip around a number.  They first
    turn every whitespace character above 127 into a blank (of the
    modelled range that is 0x85 and 0xA0) and then skip the whitespace of
    C: tab to carriage return, and the blank.  The separators 0x1C to
    0x1F, which [str.strip] removes, are left in place and make the text
    malformed. *)
Definition is_num_space (c : ascii) : bool :=
  let n := ord c in
  between 9 13 n || (n =? 32) || (n =? 133) || (n =? 160).

Fixpoint num_lstrip (s : string) : string :=
  match s with
  | EmptyString => EmptyString
  | String c s' => if is_num_space c then num_lstrip s' else s
  end.

Fixpoint num_rstrip (s : string) : string :=
  match s with
  | EmptyString => EmptyString
  | String c s' =>
      match num_rstrip s' with
      | EmptyString =>
          if is_num_space c then EmptyString else String c EmptyString
      | r => String c r
      end
  end.

Definition num_strip (s : string) : string := num_lstrip (num_rstrip s).

(** [sys.int_info.default_max_str_digits]: the most digits [int]
    converts. *)
Definition MAX_STR_DIGITS : Z := 4300.

(** [int(s)] in base ten; [None] stands for [ValueError], which a text
    of more than [MAX_STR_DIGITS] digits raises too. *)
Definition int_of_string (s : string) : option Z :=
  let '(neg, body) := sign_of (num_strip s) in
  let '(v, n, rest) := digitpart 0 0 body in
  if (0 <? n)%nat && is_empty rest && (Z.of_nat n <=? MAX_STR_DIGITS)
  then Some (if neg then - v else v)
  else None.

(** The binary64 value nearest to [m * 10 ^ e] for [m >= 0], ties to even.
    For a negative [e] the quotient is taken with at least 56 significant
    bits and a sticky bit, which rounds as the exact value does. *)
Definition of_decimal (neg : bool) (m e : Z) : float :=
  let sgn (x : Z) := if neg then (- x)%Z else x in
  if m =? 0 then (if neg then (-0)%float else 0%float)
  else if 0 <=? e
  then SF2Prim (binary_normalize prec emax (sgn (m * 10 ^ e)) 0 false)
  else
    let den := 10 ^ (- e) in
    let s := Z.max 0 (Z.log2 den + 57 - Z.log2 m) in
    let num := m * 2 ^ s in
    let q := num / den in
    let sticky := if num mod den =? 0 then 0 else 1 in
    SF2Prim (binary_normalize prec emax (sgn (2 * q + sticky)) (- s - 1) false).

(** The exponent part [[eE][+-]?digits] that must end the literal. *)
Definition exponent_of (s : string) : option Z :=
  match s with
  | EmptyString => Some 0
  | String c r =>
      if (ord c =? 101) || (ord c =? 69) then
        let '(neg, body) := sign_of r in
        let '(v, n, rest) := digitpart 0 0 body in
        if (0 <? n)%nat && is_empty rest
        then Some (if neg then - v else v)
        else None
      else None
  end.

(** [float(s)]; [None] stands for [ValueError]. *)
Definition float_of_string (s : string) : option float :=
  let '(neg, body) := sign_of (num_strip s) in
  let low := lower body in
  if String.eqb low "inf" || String.eqb low "infinity"
  then Some (if neg then neg_infinity else infinity)
  else if String.eqb low "nan" then Some nan
  else
    let '(ip, ni, r1) := digitpart 0 0 body in
    let '(mant, nf, r2) :=
      match r1 with
      | String c r => if ord c =? 46 then digitpart ip 0 r else (ip, O, r1)
      | EmptyString => (ip, O, r1)
      end in
    if (0 <? ni + nf)%nat then
      match exponent_of r2 with
      | Some ex => Some (of_decimal neg mant (ex - Z.of_nat nf))
      | None => None
      end
    else None.

End PyParse.

(** ** conversion.py *)

Module Conversion.

Local Open Scope float_scope.

(** [ChannelConfig] of config_store.py. *)
Record ChannelConfig : Type := mkChannelConfig {
  raw_format : string;
  scale : float;
  offset : float;
  start_bit : option Z;
  bit_length : option Z
}.

Definition SENTINEL_RAW_MIN : float := 2147483640.0.

(** [bytes.fromhex]: pairs of hex digits, ASCII whitespace between pairs
    skipped, anything else a [ValueError]. *)
Fixpoint fromhex (s : string) : res (list Z) :=
  match s with
  | EmptyString => Ok []
  | String c s' =>
      if is_ascii_space c then fromhex s'
      else
        match hexval c, s' with
        | Some h, String c2 s'' =>
            match hexval c2 with
            | Some l => bs <- fromhex s'' ;; Ok ((16 * h + l)%Z :: bs)
            | None => Raise ValueError
            end
        | _, _ => Raise ValueError
        end
  end.

Definition hex_to_bytes (hex_str : string) : res (list Z) :=
  let clean := strip hex_str in
  let clean :=
    if startswith "0x" clean || startswith "0X" clean then drop 2 clean
    else clean in
  let clean :=
    if Nat.odd (String.length clean) then String "0" clean else clean in
  if negb (hex_re_match clean)
  then Raise (ConversionError ("Invalid hex string: " ++ hex_str))
  else fromhex clean.

(** [_apply_bit_slice]; Python raises [ValueError] on a negative shift
    count. *)
Definition _apply_bit_slice (value start_bit bit_length : Z) (signed : bool)
  : res Z :=
  if (bit_length <=? 0)%Z then Ok value
  else
    let mask := (Z.shiftl 1 bit_length - 1)%Z in
    if (start_bit <? 0)%Z then Raise ValueError
    else
      let sliced := Z.land (Z.shiftr value start_bit) mask in
      if signed then
        let sign_bit := Z.shiftl 1 (bit_length - 1) in
        if negb (Z.land sliced sign_bit =? 0)%Z
        then Ok (sliced - Z.shiftl 1 bit_length)%Z
        else Ok sliced
      else Ok sliced.

(** The unsigned big-endian value of a byte string. *)
Definition be_value (bs : list Z) : Z :=
  fold_left (fun acc b => (acc * 256 + b)%Z) bs 0%Z.

(** [int.from_bytes(raw_bytes, byteorder=..., signed=...)]. *)
Definition int_from_bytes (bs : list Z) (big signed : bool) : Z :=
  let u := be_value (if big then bs else rev bs) in
  let width := (8 * Z.of_nat (List.length bs))%Z in
  if signed && Z.testbit u (width - 1) then (u - 2 ^ width)%Z else u.

Definition is_int_format (f : string) : bool :=
  String.eqb f "uint_be" || String.eqb f "uint_le"
  || String.eqb f "int_be" || String.eqb f "int_le".

Definition is_float_format (f : string) : bool :=
  String.eqb f "float_be" || String.eqb f "float_le".

(** [struct.unpack] of a 4- or 8-byte string as one float. *)
Definition unpack_float (big : bool) (ebits mbits : Z) (bs : list Z) : float :=
  PyFloat.of_bits ebits mbits (be_value (if big then bs else rev bs)).

Definition decode_raw_value (hex_str : string) (cfg : ChannelConfig)
  : res float :=
  raw_bytes <- hex_to_bytes hex_str ;;
  if is_int_format (raw_format cfg) then
    let signed := startswith "int_" (raw_format cfg) in
    let big := endswith "be" (raw_format cfg) in
    let value := int_from_bytes raw_bytes big signed in
    value <- match start_bit cfg, bit_length cfg with
             | Some sb, Some bl => _apply_bit_slice value sb bl signed
             | _, _ => Ok value
             end ;;
    PyFloat.of_int value
  else if is_float_format (raw_format cfg) then
    let big := endswith "be" (raw_format cfg) in
    if (List.length raw_bytes =? 4)%nat
    then Ok (unpack_float big 8 23 raw_bytes)
    else if (List.length raw_bytes =? 8)%nat
    then Ok (unpack_float big 11 52 raw_bytes)
    else Raise (ConversionError "Unsupported float byte length")
  else Raise (ConversionError ("Unsupported raw_format: " ++ raw_format cfg)).

Definition convert_hex (hex_str : string) (cfg : ChannelConfig)
  : res (option float * float) :=
  raw_value <- decode_raw_value hex_str cfg ;;
  if negb (PyFloat.isfinite raw_value) || (SENTINEL_RAW_MIN <=? raw_value)
  then Ok (None, nan)
  else
    let value_mm := raw_value * scale cfg + offset cfg in
    Ok (Some raw_value, value_mm).

End Conversion.

(** ** config_store.py *)

Module ConfigStore.

Import Conversion.
Local Open Scope float_scope.

Definition MM_PER_IN : float := 25.4.

Definition in_to_mm (value_in : float) : float := value_in * MM_PER_IN.
Definition mm_to_in (value_mm : float) : float := value_mm / MM_PER_IN.

Record Targets : Type := mkTargets {
  d1_target : float;
  d1_tol : float;
  d2_target : float;
  d2_tol : float;
  len_target : float;
  len_tol : float;
  dDelta_max : float;
  end1_max : float;
  end2_max : float
}.

Definition default_targets : Targets :=
  mkTargets 0.0 0.050 0.0 0.050 1165.0 0.200 0.050 0.050 0.050.

Definition default_channel : ChannelConfig :=
  mkChannelConfig "uint_be" 0.001 0.0 None None.

Record HMIConfig : Type := mkHMIConfig {
  serial_port : string;
  baud : Z
}.

Record Config : Type := mkConfig {
  al1322_ip : string;
  poll_interval_s : float;
  request_timeout_s : float;
  log_capacity : Z;
  hmi : HMIConfig;
  targets : Targets;
  offsets_mm : list float;
  channels : list ChannelConfig
}.

(** [Config()] *)
Definition default_config : Config :=
  mkConfig "192.168.100.1" 0.5 1.0 200
    (mkHMIConfig "/dev/serial0" 115200)
    default_targets (repeat 0.0 8) (repeat default_channel 8).

Definition with_targets (c : Config) (t : Targets) : Config :=
  mkConfig (al1322_ip c) (poll_interval_s c) (request_timeout_s c)
    (log_capacity c) (hmi c) t (offsets_mm c) (channels c).

Definition with_offsets_mm (c : Config) (o : list float) : Config :=
  mkConfig (al1322_ip c) (poll_interval_s c) (request_timeout_s c)
    (log_capacity c) (hmi c) (targets c) o (channels c).

(** The store: the live configuration and its version counter.  The lock
    makes every operation below one atomic step. *)
Record store : Type := mkStore {
  _config : Config;
  _version : Z
}.

Definition version (s : store) : Z := _version s.
Definition snapshot (s : store) : Config := _config s.

(** What [load] meets at the configured path: a file whose content
    [Config.from_dict] accepts; no file, the defaults being written in its
    place; a failure before the configuration is replaced (an unreadable
    or malformed file, a directory that cannot be made); or no file and a
    failure to write the defaults, after they were installed. *)
Inductive disk : Type :=
| FileConfig (c : Config)
| NoFile
| Unreadable (e : exn)
| Unwritable (e : exn).

(** [load]: the store after the call and the exception it raised, if
    any. *)
Definition load (d : disk) (s : store) : store * option exn :=
  match d with
  | FileConfig c => (mkStore c (_version s + 1), None)
  | NoFile => (mkStore default_config (_version s + 1), None)
  | Unreadable e => (s, Some e)
  | Unwritable e => (mkStore default_config (_version s), Some e)
  end.

(** [ConfigStore(path)]: the defaults at version 0, then [load]. *)
Definition init (d : disk) : store * option exn :=
  load d (mkStore default_config 0).

(** [save] writes the file and leaves the store as it is.  [written] is
    what the write comes to: [None] when the file is written, and
    otherwise the exception ([OSError] and the like) that [os.makedirs],
    [open] or [json.dump] raises, which [save] does not catch. *)
Definition save (written : option exn) (s : store) : res store :=
  match written with
  | None => Ok s
  | Some e => Raise e
  end.

Definition replace_config (config : Config) (s : store) : store :=
  mkStore config (_version s + 1).

(** [setattr(targets, key, value)] when [key] names one of the nine
    fields; [None] for every other name. *)
Definition set_target (t : Targets) (key : string) (v : float)
  : option Targets :=
  match t with
  | mkTargets a b c d e f g h i =>
      if String.eqb key "d1_target" then Some (mkTargets v b c d e f g h i)
      else if String.eqb key "d1_tol" then Some (mkTargets a v c d e f g h i)
      else if String.eqb key "d2_target" then Some (mkTargets a b v d e f g h i)
      else if String.eqb key "d2_tol" then Some (mkTargets a b c v e f g h i)
      else if String.eqb key "len_target" then Some (mkTargets a b c d v f g h i)
      else if String.eqb key "len_tol" then Some (mkTargets a b c d e v g h i)
      else if String.eqb key "dDelta_max" then Some (mkTargets a b c d e f v h i)
      else if String.eqb key "end1_max" then Some (mkTargets a b c d e f g v i)
      else if String.eqb key "end2_max" then Some (mkTargets a b c d e f g h v)
      else None
  end.

(** What [hasattr] and [setattr] make of a name that is none of the
    nine fields.  The answer is the interpreter's: most names are no
    attribute of the object, and [hasattr] is false; a name found on the
    class or on [object], such as [__doc__], is an attribute that
    [setattr] shadows in the instance, the nine fields staying as they
    are; and [__class__], [__dict__] and [__weakref__] are attributes
    that [setattr] refuses to set to a float, raising [TypeError] or
    [AttributeError]. *)
Inductive attribute : Type :=
| NoAttribute
| Shadowed
| Refused (e : exn).

(** What CPython answers for four such names, every other name taken as
    no attribute: the instance of the parameter used in the examples. *)
Definition cpython_attribute (key : string) : attribute :=
  if String.eqb key "__class__" then Refused TypeError
  else if String.eqb key "__dict__" then Refused TypeError
  else if String.eqb key "__weakref__" then Refused AttributeError
  else if String.eqb key "__doc__" then Shadowed
  else NoAttribute.

(** The loop of [update_targets_mm] from the targets [t]: the targets it
    leaves, and the exception that ended it, if any.  [updates] is the
    dict in iteration order. *)
Fixpoint set_targets (attribute_of : string -> attribute)
  (updates : list (string * float)) (t : Targets) : Targets * option exn :=
  match updates with
  | [] => (t, None)
  | (key, value) :: rest =>
      match set_target t key value with
      | Some t' => set_targets attribute_of rest t'
      | None =>
          match attribute_of key with
          | NoAttribute | Shadowed => set_targets attribute_of rest t
          | Refused e => (t, Some e)
          end
      end
  end.

(** [update_targets_mm]: the store after the call and the exception it
    raised, if any.  The fields written before a [setattr] raises stay
    written, and the version is not reached. *)
Definition update_targets_mm (attribute_of : string -> attribute)
  (updates : list (string * float)) (s : store) : store * option exn :=
  let '(t, raised) := set_targets attribute_of updates (targets (_config s)) in
  match raised with
  | None => (mkStore (with_targets (_config s) t) (_version s + 1), None)
  | Some e => (mkStore (with_targets (_config s) t) (_version s), Some e)
  end.

(** The first eight entries, padded with [0.0] to eight. *)
Definition first8 (l : list float) : list float :=
  let l8 := firstn 8 l in
  if (List.length l8 <? 8)%nat
  then (l8 ++ repeat 0.0 (8 - List.length l8))%list
  else l8.

Definition update_offsets_mm (offsets : list float) (s : store) : store :=
  mkStore (with_offsets_mm (_config s) (first8 offsets)) (_version s + 1).

(** [l[idx] = v]; [None] stands for [IndexError]. *)
Fixpoint list_set {A : Type} (l : list A) (idx : nat) (v : A)
  : option (list A) :=
  match l, idx with
  | [], _ => None
  | _ :: t, O => Some (v :: t)
  | h :: t, S i =>
      match list_set t i v with
      | Some t' => Some (h :: t')
      | None => None
      end
  end.

(** [targets.field = v] for one of the nine fields. *)
Definition setattr_target (t : Targets) (field : string) (v : float)
  : Targets :=
  match set_target t field v with
  | Some t' => t'
  | None => t
  end.

(** [update_from_hmi_set]: the new store and the returned boolean.  An
    offset list shorter than the index makes the assignment raise. *)
Definition update_from_hmi_set (key : string) (value_in : float) (s : store)
  : res (store * bool) :=
  let value_mm := in_to_mm value_in in
  let t := targets (_config s) in
  let assign (field : string) : res (store * bool) :=
    Ok (mkStore (with_targets (_config s) (setattr_target t field value_mm))
          (_version s + 1), true) in
  if String.eqb key "d1t" then assign "d1_target"
  else if String.eqb key "d1tol" then assign "d1_tol"
  else if String.eqb key "d2t" then assign "d2_target"
  else if String.eqb key "d2tol" then assign "d2_tol"
  else if String.eqb key "lent" then assign "len_target"
  else if String.eqb key "lentol" then assign "len_tol"
  else if String.eqb key "ddelmax" then assign "dDelta_max"
  else if String.eqb key "e1max" then assign "end1_max"
  else if String.eqb key "e2max" then assign "end2_max"
  else if startswith "off" key then
    match PyParse.int_of_string (drop 3 key) with
    | None => Ok (s, false)
    | Some idx =>
        if (0 <=? idx)%Z && (idx <? 8)%Z then
          match list_set (offsets_mm (_config s)) (Z.to_nat idx) value_mm with
          | Some o =>
              Ok (mkStore (with_offsets_mm (_config s) o) (_version s + 1),
                  true)
          | None => Raise IndexError
          end
        else Ok (s, false)
    end
  else Ok (s, false).

(** A form is the dict of submitted fields. *)
Definition form_get (form : list (string * string)) (field : string)
  : option string :=
  match find (fun kv => String.eqb (fst kv) field) form with
  | Some kv => Some (snd kv)
  | None => None
  end.

Definition form_target_fields : list (string * string) :=
  [ ("d1_target_in", "d1_target"); ("d1_tol_in", "d1_tol");
    ("d2_target_in", "d2_target"); ("d2_tol_in", "d2_tol");
    ("len_target_in", "len_target"); ("len_tol_in", "len_tol");
    ("ddelta_max_in", "dDelta_max"); ("end1_max_in", "end1_max");
    ("end2_max_in", "end2_max") ].

Definition form_offset_fields : list string :=
  [ "off0_in"; "off1_in"; "off2_in"; "off3_in";
    "off4_in"; "off5_in"; "off6_in"; "off7_in" ].

(** The values of the fields present in the form, in field order;
    [float] of a malformed value raises. *)
Fixpoint form_values {K : Type} (form : list (string * string))
  (fields : list (string * K)) : res (list (K * float)) :=
  match fields with
  | [] => Ok []
  | (field, key) :: rest =>
      match form_get form field with
      | None => form_values form rest
      | Some text =>
          match PyParse.float_of_string text with
          | None => Raise ValueError
          | Some v =>
              vs <- form_values form rest ;;
              Ok ((key, in_to_mm v) :: vs)
          end
      end
  end.

(** [update_from_form]: the store after the call and the exception it
    raised, if any.  Both lists are read from the form before anything
    is assigned. *)
Definition update_from_form (attribute_of : string -> attribute)
  (form : list (string * string)) (s : store) : store * option exn :=
  match form_values form form_target_fields with
  | Raise e => (s, Some e)
  | Ok updates =>
      match form_values form (map (fun f => (f, tt)) form_offset_fields) with
      | Raise e => (s, Some e)
      | Ok offsets =>
          let s1 := match offsets with
                    | [] => s
                    | _ => update_offsets_mm (map snd offsets) s
                    end in
          match updates with
          | [] => (s1, None)
          | _ => update_targets_mm attribute_of updates s1
          end
      end
  end.

(** *** Histories of the store *)

(** The operations of the store. *)
Inductive op : Type :=
| Replace (config : Config)
| UpdateTargets (updates : list (string * float))
| UpdateOffsets (offsets : list float)
| HmiSet (key : string) (value_in : float)
| Load (d : disk)
| Form (form : list (string * string))
| Save (written : option exn).

(** The store after an operation, whether it returned or raised.  A
    symbolic set and a save that raise have assigned nothing. *)
Definition apply_op (attribute_of : string -> attribute) (o : op)
  (s : store) : store :=
  match o with
  | Replace config => replace_config config s
  | UpdateTargets updates => fst (update_targets_mm attribute_of updates s)
  | UpdateOffsets offsets => update_offsets_mm offsets s
  | HmiSet key value_in =>
      match update_from_hmi_set key value_in s with
      | Ok (s', _) => s'
      | Raise _ => s
      end
  | Load d => fst (load d s)
  | Form form => fst (update_from_form attribute_of form s)
  | Save written =>
      match save written s with
      | Ok s' => s'
      | Raise _ => s
      end
  end.

Definition run_ops (attribute_of : string -> attribute) (ops : list op)
  (s : store) : store :=
  fold_left (fun s o => apply_op attribute_of o s) ops s.

(** *** The configuration as a dict *)

(** The dicts [to_dict] writes and [from_dict] reads: every key may be
    missing, a key that is present holds a value of the type [to_dict]
    gives it.  A missing [start_bit] and a null one read alike. *)
Record TargetsData : Type := mkTargetsData {
  td_d1_target : option float;
  td_d1_tol : option float;
  td_d2_target : option float;
  td_d2_tol : option float;
  td_len_target : option float;
  td_len_tol : option float;
  td_dDelta_max : option float;
  td_end1_max : option float;
  td_end2_max : option float
}.

Record ChannelData : Type := mkChannelData {
  cd_raw_format : option string;
  cd_scale : option float;
  cd_offset : option float;
  cd_start_bit : option Z;
  cd_bit_length : option Z
}.

Record HMIData : Type := mkHMIData {
  hd_serial_port : option string;
  hd_baud : option Z
}.

Record ConfigData : Type := mkConfigData {
  d_al1322_ip : option string;
  d_poll_interval_s : option float;
  d_request_timeout_s : option float;
  d_log_capacity : option Z;
  d_hmi : option HMIData;
  d_targets : option TargetsData;
  d_offsets_mm : option (list float);
  d_channels : option (list ChannelData)
}.

(** [d.get(key, default)] *)
Definition get {A : Type} (value : option A) (default : A) : A :=
  match value with
  | Some v => v
  | None => default
  end.

Definition empty_targets_data : TargetsData :=
  mkTargetsData None None None None None None None None None.

Definition empty_channel_data : ChannelData :=
  mkChannelData None None None None None.

Definition empty_config_data : ConfigData :=
  mkConfigData None None None None None None None None.

Definition to_dict (c : Config) : ConfigData :=
  let t := targets c in
  mkConfigData
    (Some (al1322_ip c)) (Some (poll_interval_s c))
    (Some (request_timeout_s c)) (Some (log_capacity c))
    (Some (mkHMIData (Some (serial_port (hmi c))) (Some (baud (hmi c)))))
    (Some (mkTargetsData
             (Some (d1_target t)) (Some (d1_tol t)) (Some (d2_target t))
             (Some (d2_tol t)) (Some (len_target t)) (Some (len_tol t))
             (Some (dDelta_max t)) (Some (end1_max t)) (Some (end2_max t))))
    (Some (offsets_mm c))
    (Some (map (fun ch =>
                  mkChannelData (Some (raw_format ch)) (Some (scale ch))
                    (Some (offset ch)) (start_bit ch) (bit_length ch))
             (channels c))).

(** The channel [from_dict] builds from one entry of the list. *)
Definition channel_of (ch : ChannelData) : ChannelConfig :=
  mkChannelConfig (get (cd_raw_format ch) "uint_be")
    (get (cd_scale ch) 0.001) (get (cd_offset ch) 0.0)
    (cd_start_bit ch) (cd_bit_length ch).

Definition from_dict (data : ConfigData) : Config :=
  let cfg := default_config in
  let hmi_data := get (d_hmi data) (mkHMIData None None) in
  let targets_data := get (d_targets data) empty_targets_data in
  let t := targets cfg in
  let offsets := get (d_offsets_mm data) (offsets_mm cfg) in
  let chans := get (d_channels data) [] in
  mkConfig
    (get (d_al1322_ip data) (al1322_ip cfg))
    (get (d_poll_interval_s data) (poll_interval_s cfg))
    (get (d_request_timeout_s data) (request_timeout_s cfg))
    (get (d_log_capacity data) (log_capacity cfg))
    (mkHMIConfig
       (get (hd_serial_port hmi_data) (serial_port (hmi cfg)))
       (get (hd_baud hmi_data) (baud (hmi cfg))))
    (mkTargets
       (get (td_d1_target targets_data) (d1_target t))
       (get (td_d1_tol targets_data) (d1_tol t))
       (get (td_d2_target targets_data) (d2_target t))
       (get (td_d2_tol targets_data) (d2_tol t))
       (get (td_len_target targets_data) (len_target t))
       (get (td_len_tol targets_data) (len_tol t))
       (get (td_dDelta_max targets_data) (dDelta_max t))
       (get (td_end1_max targets_data) (end1_max t))
       (get (td_end2_max targets_data) (end2_max t)))
    (first8 offsets)
    (map (fun idx => channel_of (nth idx chans empty_channel_data))
       (seq 0 8)).

End ConfigStore.

(** ** al1322_client.py *)

Module Client.

Record PortReadResult : Type := mkPortReadResult {
  port : Z;
  ok : bool;
  raw_hex : option string;
  error : option string;
  http_status : option Z;
  response_time_s : option float
}.

(** What [json.loads] returns.  A dict is its items in iteration order,
    one item per key. *)
Inductive json : Type :=
| JNull
| JBool (b : bool)
| JInt (n : Z)
| JFloat (x : float)
| JStr (s : string)
| JList (items : list json)
| JDict (items : list (string * json)).

(** The keys [_extract_hex] tries first, in the order of its tuple. *)
Definition KEYS : list string := ["data"; "value"; "pDIN"; "pdin"; "hex"].

(** [payload[key]] when [key in payload]. *)
Definition dict_get (d : list (string * json)) (key : string) : option json :=
  match find (fun kv => String.eqb (fst kv) key) d with
  | Some kv => Some (snd kv)
  | None => None
  end.

(** The stripped string when it looks like hex. *)
Definition hex_value (s : string) : option string :=
  let value := strip s in
  if hex_re_match value then Some value else None.

(** The first loop over a dict: the first of [keys] that holds a string
    which looks like hex. *)
Fixpoint key_search (keys : list string) (d : list (string * json))
  : option string :=
  match keys with
  | [] => None
  | key :: rest =>
      match dict_get d key with
      | Some (JStr s) =>
          match hex_value s with
          | Some value => Some value
          | None => key_search rest d
          end
      | _ => key_search rest d
      end
  end.

(** [if found:] on an optional string. *)
Definition truthy (found : option string) : bool :=
  match found with
  | Some s => negb (is_empty s)
  | None => false
  end.

(** The loops [for value in ...: found = self._extract_hex(value)]:
    the first truthy result of [extract] over a sequence; an exception
    ends the loop. *)
Fixpoint scan (extract : json -> res (option string)) (items : list json)
  : res (option string) :=
  match items with
  | [] => Ok None
  | item :: rest =>
      found <- extract item ;;
      if truthy found then Ok found else scan extract rest
  end.

(** [_extract_hex].  [limit] is the number of nested calls of the method
    that the recursion limit of the interpreter still allows when it is
    entered; the call past the last of them raises [RecursionError]. *)
Fixpoint _extract_hex (limit : nat) (payload : json) : res (option string) :=
  match limit with
  | O => Raise RecursionError
  | S deeper =>
      match payload with
      | JStr s => Ok (hex_value s)
      | JDict d =>
          match key_search KEYS d with
          | Some value => Ok (Some value)
          | None => scan (_extract_hex deeper) (map snd d)
          end
      | JList l => scan (_extract_hex deeper) l
      | _ => Ok None
      end
  end.

(** [f"0x{value:08X}"] for [0 <= value < 2 ^ 32]. *)
Definition hex_digit_upper (n : Z) : ascii :=
  if n <? 10 then chr (48 + n) else chr (55 + n).

Fixpoint hex_upper (digits : nat) (value : Z) (acc : string) : string :=
  match digits with
  | O => acc
  | S k => hex_upper k (value / 16) (String (hex_digit_upper (value mod 16)) acc)
  end.

Definition _format_hex (value : Z) : string := "0x" ++ hex_upper 8 value "".

(** [MockAL1322Client.read_port_get]. *)
Definition mock_read_port_get (p : Z) : PortReadResult :=
  let base_um := [0; 0; 0; 5; 10; 0; 5; 10] in
  let value := nth (Z.to_nat (p - 1)) base_um 0 in
  mkPortReadResult p true (Some (_format_hex value)) None (Some 200) (Some 0%float).




(** [str(n)] of an [int]. *)
Definition str_of_int (n : Z) : string :=
  NilZero.string_of_int (Z.to_int n).


End Client.

(** ** measurement.py *)

Module Measurement.

Import Conversion ConfigStore Client.
Local Open Scope float_scope.

Definition CONSTANT_LENGTH_MM : float := 1165.0.

Definition within_tol (value target tol : float) : bool :=
  PyFloat.isfinite value && PyFloat.isfinite target && PyFloat.isfinite tol
  && (abs (value - target) <=? tol).

Definition within_max_abs (value max_value : float) : bool :=
  PyFloat.isfinite value && PyFloat.isfinite max_value
  && (abs value <=? max_value).

Definition within_max (value max_value : float) : bool :=
  PyFloat.isfinite value && PyFloat.isfinite max_value
  && (value <=? max_value).

(** [max(a, b, c)] and [min(a, b, c)]: the first extreme argument. *)
Definition max3 (a b c : float) : float :=
  let m := if a <? b then b else a in
  if m <? c then c else m.

Definition min3 (a b c : float) : float :=
  let m := if b <? a then b else a in
  if c <? m then c else m.

Definition range_of_three (a b c : float) : option float :=
  if negb (PyFloat.isfinite a && PyFloat.isfinite b && PyFloat.isfinite c)
  then None
  else Some (max3 a b c - min3 a b c).

(** [x if x is not None else math.nan] *)
Definition or_nan (x : option float) : float :=
  match x with
  | Some v => v
  | None => nan
  end.

(** The eight reads of a cycle, ports 1 to 8 in order. *)
Definition read_ports (client : Z -> PortReadResult) : list PortReadResult :=
  map client [1; 2; 3; 4; 5; 6; 7; 8]%Z.

(** One turn of the conversion loop: whether the conversion went through,
    the raw value and the value in millimetres.  Only [ConversionError] is
    caught; any other exception ends the loop. *)
Definition convert_result (config : Config) (idx : nat) (result : PortReadResult)
  : res (bool * option float * float) :=
  match raw_hex result with
  | Some hex =>
      if ok result && negb (is_empty hex) then
        match nth_error (channels config) idx with
        | None => Raise IndexError
        | Some ch =>
            match convert_hex hex ch with
            | Ok (raw_value, value_mm) => Ok (true, raw_value, value_mm)
            | Raise (ConversionError _) => Ok (false, None, nan)
            | Raise e => Raise e
            end
        end
      else Ok (true, None, nan)
  | None => Ok (true, None, nan)
  end.

Fixpoint convert_results (config : Config) (idx : nat)
  (results : list PortReadResult) : res (list (bool * option float * float)) :=
  match results with
  | [] => Ok []
  | result :: rest =>
      c <- convert_result config idx result ;;
      cs <- convert_results config (S idx) rest ;;
      Ok (c :: cs)
  end.

(** The offset loop over [converted_mm]. *)
Fixpoint add_offsets (config : Config) (idx : nat) (converted_mm : list float)
  : res (list float) :=
  match converted_mm with
  | [] => Ok []
  | value :: rest =>
      v <- (if PyFloat.isfinite value then
              match nth_error (offsets_mm config) idx with
              | Some o => Ok (value + o)
              | None => Raise IndexError
              end
            else Ok nan) ;;
      vs <- add_offsets config (S idx) rest ;;
      Ok (v :: vs)
  end.

(** What a cycle publishes. *)
Record Published : Type := mkPublished {
  p_raw_hex : list (option string);
  p_raw_values : list (option float);
  p_values_mm : list float;
  p_d1 : float;
  p_d2 : float;
  p_dDelta : float;
  p_end1_rng : option float;
  p_end2_rng : option float;
  p_length : float;
  ok_d1 : bool;
  ok_d2 : bool;
  ok_dd : bool;
  ok_e1 : bool;
  ok_e2 : bool;
  ok_len : bool;
  all_ok : bool;
  overall_pass : bool
}.

(** The metrics and checks of a cycle, from the eight corrected values. *)
Definition evaluate (config : Config) (reads_ok : bool)
  (raw_hexes : list (option string))
  (converted : list (bool * option float * float))
  (with_offsets : list float) : Published :=
  let all_ok := reads_ok && forallb (fun c => fst (fst c)) converted in
  let at_ (i : nat) := nth i with_offsets nan in
  let d1 := at_ 0%nat in
  let d2 := at_ 1%nat in
  let d_delta :=
    if PyFloat.isfinite d1 && PyFloat.isfinite d2 then d1 - d2 else nan in
  let end1_rng := range_of_three (at_ 2%nat) (at_ 3%nat) (at_ 4%nat) in
  let end2_rng := range_of_three (at_ 5%nat) (at_ 6%nat) (at_ 7%nat) in
  let length :=
    if PyFloat.isfinite (at_ 2%nat) && PyFloat.isfinite (at_ 5%nat)
    then CONSTANT_LENGTH_MM - (at_ 2%nat + at_ 5%nat)
    else nan in
  let t := targets config in
  let ok_d1 := within_tol d1 (d1_target t) (d1_tol t) in
  let ok_d2 := within_tol d2 (d2_target t) (d2_tol t) in
  let ok_dd := within_max_abs d_delta (dDelta_max t) in
  let ok_e1 := within_max (or_nan end1_rng) (end1_max t) in
  let ok_e2 := within_max (or_nan end2_rng) (end2_max t) in
  let ok_len := within_tol length (len_target t) (len_tol t) in
  let overall :=
    all_ok && ok_d1 && ok_d2 && ok_dd && ok_e1 && ok_e2 && ok_len in
  mkPublished raw_hexes (map (fun c => snd (fst c)) converted)
    (map snd converted)
    d1 d2 d_delta end1_rng end2_rng length
    ok_d1 ok_d2 ok_dd ok_e1 ok_e2 ok_len all_ok overall.

(** The body of one cycle of [_run], from the configuration snapshot and
    the eight read results to the published state. *)
Definition cycle (config : Config) (results : list PortReadResult)
  : res Published :=
  let reads_ok := forallb ok results in
  converted <- convert_results config 0 results ;;
  with_offsets <- add_offsets config 0 (map snd converted) ;;
  Ok (evaluate config reads_ok (map raw_hex results) converted with_offsets).

(** *** The pacing of [_run] *)

(** What one turn of the [while] loop does with the clock reading [now]:
    it sleeps, or it runs a cycle. *)
Inductive turn : Type :=
| Sleep (seconds : float)
| RunCycle.

(** One turn of the loop: the action taken and the next value of
    [next_tick].  [interval] is [poll_interval_s] of the snapshot the
    cycle took. *)
Definition run_turn (next_tick now interval : float) : turn * float :=
  if now <? next_tick then (Sleep 0.01, next_tick)
  else (RunCycle, now + interval).

(** The turns of the loop along a trace: for each turn the clock reading
    and the poll interval the configuration holds at that moment. *)
Fixpoint run_turns (next_tick : float) (trace : list (float * float))
  : list (turn * float) :=
  match trace with
  | [] => []
  | (now, interval) :: rest =>
      let r := run_turn next_tick now interval in
      r :: run_turns (snd r) rest
  end.

End Measurement.

(** ** hmi.py *)

Module HMI.

Import ConfigStore.
Local Open Scope float_scope.

(** *** Frame assembly in [_read_loop] *)

(** The accumulator [_buf] and the count [_ff_count] of terminator bytes
    seen in a row. *)
Record assembler : Type := mkAssembler {
  _buf : list Z;
  _ff_count : Z
}.

Definition TERMINATOR : Z := 255.
Definition BUF_CAP : nat := 256.

Definition empty_assembler : assembler := mkAssembler [] 0.

(** The body of [for byte in data]: the next state and the frame handed
    to [_process_frame], if any. *)
Definition feed_byte (st : assembler) (byte : Z)
  : assembler * option (list Z) :=
  if (byte =? TERMINATOR)%Z then
    let n := (_ff_count st + 1)%Z in
    if (3 <=? n)%Z
    then (mkAssembler [] 0, Some (_buf st))
    else (mkAssembler (_buf st) n, None)
  else
    (mkAssembler
       (if (List.length (_buf st) <? BUF_CAP)%nat
        then (_buf st ++ [byte])%list
        else _buf st)
       0,
     None).

(** A chunk returned by [ser.read]: the state after it and the frames
    dispatched while reading it, in order. *)
Fixpoint feed (st : assembler) (data : list Z)
  : assembler * list (list Z) :=
  match data with
  | [] => (st, [])
  | byte :: rest =>
      let '(st1, out) := feed_byte st byte in
      let '(st2, frames) := feed st1 rest in
      (st2, match out with
            | Some frame => frame :: frames
            | None => frames
            end)
  end.

(** [s.encode("ascii")] of a text of ASCII characters. *)
Definition bytes_of (s : string) : list Z :=
  map ord (list_ascii_of_string s).

(** *** Command lines *)

(** What handling a line does besides changing the configuration. *)
Inductive effect : Type :=
| Log (level message : string)
| LogDump (t : Targets) (offsets : list float)
| SaveConfig
| SendTargets (t : Targets)
| SendOffsets (offsets : list float).

(** The key and value of a [SET] with two tokens, from the text after the
    verb: the separators are tried in the order [=], [:], [,]. *)
Definition split_payload (payload : string) : option (string * string) :=
  if contains "=" payload then Some (split1 "=" payload)
  else if contains ":" payload then Some (split1 ":" payload)
  else if contains "," payload then Some (split1 "," payload)
  else None.

(** The rest of a [SET] once its key and value texts are known: [line]
    is the whole command, as logged. *)
Definition set_key_value (line key val_token : string) (s : store)
  : res (store * list effect) :=
  let log0 := Log "INFO" ("HMI command: " ++ line) in
  let key := lower (strip key) in
  let val_token := strip val_token in
  match PyParse.float_of_string val_token with
  | None => Ok (s, [log0; Log "ERROR" ("Invalid SET value: " ++ val_token)])
  | Some value_in =>
      r <- update_from_hmi_set key value_in s ;;
      let '(s', updated) := r in
      if updated then Ok (s', [log0])
      else Ok (s', [log0; Log "ERROR" ("Unknown SET key: " ++ key)])
  end.

(** [_handle_line].  [written] is what the write of the file comes to
    if the line asks for one (see [save]). *)
Definition _handle_line (written : option exn) (line : string) (s : store)
  : res (store * list effect) :=
  if is_empty line then Ok (s, [])
  else
    let log0 := Log "INFO" ("HMI command: " ++ line) in
    match split line with
    | [] => Ok (s, [log0])
    | verb :: args =>
        let cmd := upper verb in
        match args with
        | arg1 :: more =>
            if String.eqb cmd "SET" then
              let parsed :=
                match more with
                | [] => split_payload (strip (drop (String.length verb) line))
                | arg2 :: _ => Some (arg1, arg2)
                end in
              match parsed with
              | None => Ok (s, [log0; Log "ERROR" ("Invalid SET format: " ++ line)])
              | Some (key, val_token) => set_key_value line key val_token s
              end
            else if String.eqb cmd "SAVE" then
              s' <- save written s ;;
              Ok (s', [log0; SaveConfig; Log "INFO" "Config saved via HMI"])
            else if String.eqb cmd "REQ" then
              let req := upper arg1 in
              let config := snapshot s in
              if String.eqb req "TARGETS"
              then Ok (s, [log0; SendTargets (targets config)])
              else if String.eqb req "OFFSETS"
              then Ok (s, [log0; SendOffsets (offsets_mm config)])
              else Ok (s, [log0])
            else if String.eqb cmd "DUMP" then
              let config := snapshot s in
              Ok (s, [log0; LogDump (targets config) (offsets_mm config)])
            else Ok (s, [log0])
        | [] =>
            if String.eqb cmd "SAVE" then
              s' <- save written s ;;
              Ok (s', [log0; SaveConfig; Log "INFO" "Config saved via HMI"])
            else if String.eqb cmd "DUMP" then
              let config := snapshot s in
              Ok (s, [log0; LogDump (targets config) (offsets_mm config)])
            else Ok (s, [log0])
        end
    end.

(** *** Outbound commands and frame dispatch *)

(** [cmd.encode("ascii", errors="ignore")]: the characters above 127 are
    dropped. *)
Definition encode_ascii (cmd : string) : list Z :=
  filter (fun b => (b <? 128)%Z) (bytes_of cmd).

(** The payload [send_command] writes to an open port. *)
Definition send_command (cmd : string) : list Z :=
  (encode_ascii cmd ++ [TERMINATOR; TERMINATOR; TERMINATOR])%list.

(** [data.split(b"\x00", 1)[0]]: the bytes before the first null. *)
Fixpoint before_null (data : list Z) : list Z :=
  match data with
  | [] => []
  | b :: rest => if (b =? 0)%Z then [] else b :: before_null rest
  end.

(** [_process_frame].  [decode] is [bytes.decode(errors="ignore")], the
    lenient UTF-8 decoder of the interpreter. *)
Definition _process_frame (decode : list Z -> string)
  (written : option exn) (frame : list Z) (s : store)
  : res (store * list effect) :=
  match frame with
  | [] => Ok (s, [])
  | lead :: rest =>
      if (lead =? 112)%Z then
        Ok (s, [Log "INFO" ("HMI text reply: " ++ decode (before_null rest))])
      else if (32 <=? lead)%Z && (lead <=? 126)%Z then
        _handle_line written (strip (decode frame)) s
      else
        Ok (s, [Log "INFO"
                  ("HMI binary frame lead=0x" ++ Client.hex_upper 2 lead "")])
  end.

(** The byte loop of [_read_loop] with its dispatch: the assembler, the
    store and the effects after a chunk.  A frame whose handling raises
    ends the loop.  [writes k] is what the write of the file comes to if
    the frame dispatched after [k] others asks for one. *)
Fixpoint receive (decode : list Z -> string) (writes : nat -> option exn)
  (st : assembler) (s : store) (data : list Z)
  : res (assembler * store * list effect) :=
  match data with
  | [] => Ok (st, s, [])
  | byte :: rest =>
      let '(st1, out) := feed_byte st byte in
      match out with
      | None => receive decode writes st1 s rest
      | Some frame =>
          r <- _process_frame decode (writes O) frame s ;;
          let '(s1, effects1) := r in
          r2 <- receive decode (fun k => writes (S k)) st1 s1 rest ;;
          let '(st2, s2, effects2) := r2 in
          Ok (st2, s2, (effects1 ++ effects2)%list)
      end
  end.

End HMI.

(** ** state.py *)

Module State.

Import Client.

Record PortStatus : Type := mkPortStatus {
  ps_port : Z;
  last_call_ts : option float;
  ps_last_ok_ts : option float;
  last_error : option string;
  last_http_status : option Z;
  last_raw_hex : option string;
  error_count : Z
}.

(** An entry of the log: the time [add] read from the clock, and the
    three texts it was given. *)
Record LogEntry : Type := mkLogEntry {
  ts : float;
  level : string;
  message : string;
  source : string
}.

(** [LogBuffer]: a [deque] with [maxlen]. *)
Record LogBuffer : Type := mkLogBuffer {
  maxlen : Z;
  _buffer : list LogEntry
}.

(** [deque(maxlen=capacity)] refuses a negative capacity. *)
Definition new_log_buffer (capacity : Z) : res LogBuffer :=
  if capacity <? 0 then Raise ValueError else Ok (mkLogBuffer capacity []).

(** [append] on a bounded deque: the entry goes to the right end, and
    when the deque is over its length the left end is dropped. *)
Definition add (entry : LogEntry) (b : LogBuffer) : LogBuffer :=
  let l := (_buffer b ++ [entry])%list in
  if maxlen b <? Z.of_nat (List.length l)
  then mkLogBuffer (maxlen b) (tl l)
  else mkLogBuffer (maxlen b) l.

Definition log_snapshot (b : LogBuffer) : list LogEntry := _buffer b.

(** The six metrics and the six checks, which the state holds as dicts
    with fixed keys. *)
Record Metrics : Type := mkMetrics {
  m_d1 : float;
  m_d2 : float;
  m_dDelta : float;
  m_end1_rng : float;
  m_end2_rng : float;
  m_length : float
}.

Record Checks : Type := mkChecks {
  c_d1 : option bool;
  c_d2 : option bool;
  c_dDelta : option bool;
  c_end1_rng : option bool;
  c_end2_rng : option bool;
  c_length : option bool
}.

Record MeasurementState : Type := mkMeasurementState {
  raw_hex : list (option string);
  raw_values : list (option float);
  values_mm : list float;
  values_in : list float;
  metrics_mm : Metrics;
  metrics_in : Metrics;
  checks : Checks;
  overall_pass : bool;
  last_cycle_ts : option float;
  last_ok_ts : option float;
  mock_mode : bool;
  port_status : list PortStatus
}.

Definition nan_metrics : Metrics := mkMetrics nan nan nan nan nan nan.

(** [MeasurementState()] *)
Definition initial_state : MeasurementState :=
  mkMeasurementState (repeat None 8) (repeat None 8) (repeat nan 8)
    (repeat nan 8) nan_metrics nan_metrics
    (mkChecks None None None None None None) false None None false
    (map (fun i => mkPortStatus (Z.of_nat i + 1) None None None None None 0)
       (seq 0 8)).

End State.

(** ** measurement.py: what a cycle leaves behind *)

Module Engine.

Import ConfigStore Client Measurement State.
Local Open Scope float_scope.

(** [mm_to_in(v) if math.isfinite(v) else math.nan] *)
Definition to_in (v : float) : float :=
  if PyFloat.isfinite v then mm_to_in v else nan.

(** The body of the loop over [results] in [_update_state], for one
    port. *)
Definition update_port (now_ts : float) (port_state : PortStatus)
  (result : PortReadResult) : PortStatus :=
  if ok result then
    mkPortStatus (ps_port port_state) (Some now_ts) (Some now_ts) None
      (http_status result) (Client.raw_hex result) (error_count port_state)
  else
    mkPortStatus (ps_port port_state) (Some now_ts) (ps_last_ok_ts port_state)
      (error result) (http_status result) None
      (error_count port_state + 1)%Z.

(** The loop itself: [port_status[idx]] for each result in turn. *)
Fixpoint update_ports (now_ts : float) (statuses : list PortStatus)
  (results : list PortReadResult) {struct results} : res (list PortStatus) :=
  match results, statuses with
  | [], _ => Ok statuses
  | result :: results', port_state :: statuses' =>
      rest <- update_ports now_ts statuses' results' ;;
      Ok (update_port now_ts port_state result :: rest)
  | _ :: _, [] => Raise IndexError
  end.

(** [_update_state]: the state after the cycle that published [p] at the
    wall-clock time [now_ts]. *)
Definition _update_state (mock : bool) (now_ts : float) (p : Published)
  (results : list PortReadResult) (state : MeasurementState)
  : res MeasurementState :=
  statuses <- update_ports now_ts (port_status state) results ;;
  Ok (mkMeasurementState
        (p_raw_hex p) (p_raw_values p) (p_values_mm p)
        (map to_in (p_values_mm p))
        (mkMetrics (p_d1 p) (p_d2 p) (p_dDelta p) (or_nan (p_end1_rng p))
           (or_nan (p_end2_rng p)) (p_length p))
        (mkMetrics (to_in (p_d1 p)) (to_in (p_d2 p)) (to_in (p_dDelta p))
           (match p_end1_rng p with Some r => mm_to_in r | None => nan end)
           (match p_end2_rng p with Some r => mm_to_in r | None => nan end)
           (to_in (p_length p)))
        (mkChecks (Some (ok_d1 p)) (Some (ok_d2 p)) (Some (ok_dd p))
           (Some (ok_e1 p)) (Some (ok_e2 p)) (Some (ok_len p)))
        (Measurement.overall_pass p)
        (Some now_ts)
        (if all_ok p then Some now_ts else last_ok_ts state)
        mock
        statuses).

(** What one cycle is given: the configuration snapshot, the eight read
    results and the wall-clock time of its publication. *)
Record cycle_input : Type := mkCycleInput {
  ci_config : Config;
  ci_results : list PortReadResult;
  ci_now_ts : float
}.

(** One cycle on the state store. *)
Definition run_cycle (mock : bool) (state : MeasurementState)
  (i : cycle_input) : res MeasurementState :=
  p <- cycle (ci_config i) (ci_results i) ;;
  _update_state mock (ci_now_ts i) p (ci_results i) state.

(** Cycle after cycle, until one raises. *)
Fixpoint run_cycles (mock : bool) (state : MeasurementState)
  (inputs : list cycle_input) : res MeasurementState :=
  match inputs with
  | [] => Ok state
  | i :: rest =>
      state' <- run_cycle mock state i ;;
      run_cycles mock state' rest
  end.





End Engine.

(** ** webapp.py: fields of an nmcli line *)

Module Webapp.

(** The loop of [_split_nmcli_fields]: [escape] and [current] are its
    variables. *)
Fixpoint split_fields (escape : bool) (current : string) (line : string)
  : list string :=
  match line with
  | EmptyString => [current]
  | String ch rest =>
      if escape then split_fields false (current ++ String ch "") rest
      else if (ord ch =? 92)%Z then split_fields true current rest
      else if (ord ch =? 58)%Z then current :: split_fields false "" rest
      else split_fields false (current ++ String ch "") rest
  end.

Definition _split_nmcli_fields (line : string) : list string :=
  split_fields false "" line.

End Webapp.

(** * Statements of the specification *)

Module Claimed.

Import Conversion.

(** The same channel with another scale and offset. *)
Definition rescaled (cfg : ChannelConfig) (s o : float) : ChannelConfig :=
  mkChannelConfig (raw_format cfg) s o (start_bit cfg) (bit_length cfg).

(** The bit range of the specification: shift down by [start], keep [len]
    bits, and for a signed parent read the slice's top bit as its sign. *)
Definition bit_range (value start len : Z) (signed : bool) : Z :=
  let slice := Z.land (Z.shiftr value start) (Z.ones len) in
  if signed && Z.testbit slice (len - 1) then slice - 2 ^ len else slice.







(** The table of symbolic keys of the specification: nine keys of
    targets and tolerances, and [off0] to [off7]. *)
Definition target_keys : list string :=
  ["d1t"; "d1tol"; "d2t"; "d2tol"; "lent"; "lentol"; "ddelmax"; "e1max";
   "e2max"].

Definition offset_keys : list string :=
  ["off0"; "off1"; "off2"; "off3"; "off4"; "off5"; "off6"; "off7"].

Definition in_table (key : string) : bool :=
  existsb (String.eqb key) (target_keys ++ offset_keys)%list.

(** The keys the code acts on: the nine keys, and [off] followed by any
    text that [int] reads as an integer from 0 to 7: digits with single
    underscores between them, after an optional sign, within the
    whitespace that [int] skips. *)
Definition accepted_key (key : string) : bool :=
  existsb (String.eqb key) target_keys
  || (startswith "off" key
      && match PyParse.int_of_string (drop 3 key) with
         | Some idx => (0 <=? idx) && (idx <? 8)
         | None => false
         end).

(** Whether a form holds one of the seventeen fields a form update
    reads. *)
Definition form_holds (form : list (string * string)) : bool :=
  existsb (fun field => match ConfigStore.form_get form field with
                        | Some _ => true
                        | None => false
                        end)
    (map fst ConfigStore.form_target_fields
     ++ ConfigStore.form_offset_fields)%list.

(** Those of them that go through when run from the store [s]: a
    replace, an offsets update, a target update and a reload that
    return, a symbolic set that returns true; and with them a form
    update that returns and holds one of its fields, which runs an
    offsets update, a target update or both. *)
Definition mutation (attribute_of : string -> ConfigStore.attribute)
  (o : ConfigStore.op) (s : ConfigStore.store) : Prop :=
  match o with
  | ConfigStore.Replace _
  | ConfigStore.UpdateOffsets _ => True
  | ConfigStore.UpdateTargets updates =>
      snd (ConfigStore.update_targets_mm attribute_of updates s) = None
  | ConfigStore.HmiSet key v =>
      exists s', ConfigStore.update_from_hmi_set key v s = Ok (s', true)
  | ConfigStore.Load d => snd (ConfigStore.load d s) = None
  | ConfigStore.Form form =>
      snd (ConfigStore.update_from_form attribute_of form s) = None
      /\ form_holds form = true
  | ConfigStore.Save _ => False
  end.

Definition nonspace (c : ascii) : bool := negb (isspace c).

(** A token of a command line: not empty and free of whitespace. *)
Definition is_token (s : string) : bool :=
  negb (is_empty s) && all_chars nonspace s.

(** The store a handled line returns, or the exception it raises. *)
Definition store_after (r : res (ConfigStore.store * list HMI.effect))
  : res ConfigStore.store :=
  match r with
  | Ok (s, _) => Ok s
  | Raise e => Raise e
  end.

(** The order in which the specification lists the recognized keys. *)
Definition listed_keys : list string :=
  ["data"; "value"; "pdin"; "pDIN"; "hex"].

(** The hex-looking string a dict holds under [key], if any. *)
Definition key_hit (d : list (string * Client.json)) (key : string)
  : option string :=
  match Client.dict_get d key with
  | Some (Client.JStr s) => Client.hex_value s
  | _ => None
  end.

(** The first result there is in a sequence of attempts. *)
Fixpoint first_some {A : Type} (l : list (option A)) : option A :=
  match l with
  | [] => None
  | Some x :: _ => Some x
  | None :: rest => first_some rest
  end.

(** The first attempt of a scan that finds something, or that raises. *)
Fixpoint first_result (attempts : list (res (option string)))
  : res (option string) :=
  match attempts with
  | [] => Ok None
  | Ok None :: rest => first_result rest
  | attempt :: _ => attempt
  end.

(** The search the specification describes, the keys tried in the order
    of the code: the first hex-looking string, reading a dict by its
    recognized keys first and by its values next, and a list by its
    elements. *)
Fixpoint first_hex (payload : Client.json) : option string :=
  match payload with
  | Client.JStr s => Client.hex_value s
  | Client.JDict d =>
      match first_some (map (key_hit d) Client.KEYS) with
      | Some value => Some value
      | None => first_some (map (fun kv => first_hex (snd kv)) d)
      end
  | Client.JList l => first_some (map first_hex l)
  | _ => None
  end.

(** How deep the lists and dicts of a payload are nested. *)
Fixpoint depth (payload : Client.json) : nat :=
  match payload with
  | Client.JDict d => S (list_max (map (fun kv => depth (snd kv)) d))
  | Client.JList l => S (list_max (map depth l))
  | _ => O
  end.

(** A payload buried under [n] levels of one-element lists. *)
Fixpoint nest (n : nat) (payload : Client.json) : Client.json :=
  match n with
  | O => payload
  | S k => Client.JList [nest k payload]
  end.

End Claimed.

(** * Notions used by the further properties *)

Module Further.

Import ConfigStore.

(** The seventeen numbers a symbolic key can address: the nine fields of
    the targets, then the offsets. *)
Definition target_slots (t : Targets) : list float :=
  [d1_target t; d1_tol t; d2_target t; d2_tol t; len_target t; len_tol t;
   dDelta_max t; end1_max t; end2_max t].

Definition slots (c : Config) : list float :=
  (target_slots (targets c) ++ offsets_mm c)%list.

(** The configuration apart from those numbers. *)
Definition frame_of (c : Config)
  : string * float * float * Z * HMIConfig * list Conversion.ChannelConfig :=
  (al1322_ip c, poll_interval_s c, request_timeout_s c, log_capacity c,
   hmi c, channels c).

(** The text whose characters have the given codes. *)
Definition text_of (data : list Z) : string :=
  string_of_list_ascii (map chr data).

(** A text of ASCII characters only. *)
Definition is_ascii_text (s : string) : bool :=
  all_chars (fun c => ord c <? 128) s.

(** The last [n] elements of a list. *)
Definition lastn {A : Type} (n : nat) (l : list A) : list A :=
  skipn (List.length l - n) l.

(** The frames of a chunk handled one after the other. *)
Fixpoint process_all (decode : list Z -> string)
  (writes : nat -> option exn) (frames : list (list Z)) (s : store)
  : res (store * list HMI.effect) :=
  match frames with
  | [] => Ok (s, [])
  | frame :: rest =>
      r <- HMI._process_frame decode (writes O) frame s ;;
      let '(s1, effects1) := r in
      r2 <- process_all decode (fun k => writes (S k)) rest s1 ;;
      let '(s2, effects2) := r2 in
      Ok (s2, (effects1 ++ effects2)%list)
  end.

(** The number a text of hex digits writes. *)
Definition hex_digit (c : ascii) : Z :=
  match hexval c with
  | Some d => d
  | None => 0
  end.

Definition hex_number (s : string) : Z :=
  fold_left (fun acc c => 16 * acc + hex_digit c) (list_ascii_of_string s) 0.

(** Whether a text ends with a whitespace character. *)
Fixpoint ends_space (s : string) : bool :=
  match s with
  | EmptyString => false
  | String c EmptyString => isspace c
  | String _ s' => ends_space s'
  end.

(** Whether the read of the port at index [k] failed in a cycle, and in
    how many cycles of a run it did. *)
Definition failed_at (k : nat) (i : Engine.cycle_input) : bool :=
  match nth_error (Engine.ci_results i) k with
  | Some r => negb (Client.ok r)
  | None => false
  end.

Definition failures (k : nat) (inputs : list Engine.cycle_input) : Z :=
  Z.of_nat (List.length (filter (failed_at k) inputs)).

(** A field as nmcli writes it in terse output: a backslash before
    every colon and every backslash. *)
Fixpoint nmcli_escape (field : string) : string :=
  match field with
  | EmptyString => EmptyString
  | String ch rest =>
      if (ord ch =? 92) || (ord ch =? 58)
      then String (chr 92) (String ch (nmcli_escape rest))
      else String ch (nmcli_escape rest)
  end.

(** Fields joined by colons. *)
Fixpoint nmcli_line (fields : list string) : string :=
  match fields with
  | [] => EmptyString
  | [field] => nmcli_escape field
  | field :: rest => nmcli_escape field ++ String (chr 58) (nmcli_line rest)
  end.

(** The numbers of a form that holds every field, by field name. *)
Definition full_form (form : list (string * string)) (value : string -> float)
  : Prop :=
  forall field,
    In field (map fst form_target_fields ++ form_offset_fields)%list ->
    exists text,
      form_get form field = Some text
      /\ PyParse.float_of_string text = Some (value field).


End Further.

(** * Properties *)

(** ** Tolerance predicates *)

Section Tolerance.

Import Measurement.
Local Open Scope float_scope.

Lemma is_finite_nan_arg (x : float) : is_nan x = true -> is_finite x = false.
Proof. intros H. unfold is_finite. rewrite H. reflexivity. Qed.

Lemma within_tol_spec (v target tol : float) :
  within_tol v target tol = true <->
  is_finite v = true /\ is_finite target = true /\ is_finite tol = true
  /\ (abs (v - target) <=? tol) = true.
Proof.
  unfold within_tol, PyFloat.isfinite.
  rewrite !andb_true_iff. tauto.
Qed.

Lemma within_max_abs_spec (v max_value : float) :
  within_max_abs v max_value = true <->
  is_finite v = true /\ is_finite max_value = true
  /\ (abs v <=? max_value) = true.
Proof.
  unfold within_max_abs, PyFloat.isfinite.
  rewrite !andb_true_iff. tauto.
Qed.

Lemma within_max_spec (v max_value : float) :
  within_max v max_value = true <->
  is_finite v = true /\ is_finite max_value = true
  /\ (v <=? max_value) = true.
Proof.
  unfold within_max, PyFloat.isfinite.
  rewrite !andb_true_iff. tauto.
Qed.

Lemma not_true_false (b : bool) : ~ b = true -> b = false.
Proof. destruct b; [intros H; exfalso; apply H; reflexivity | reflexivity]. Qed.

(** C3: each tolerance predicate is a boolean function defined on every
    triple (pair) of floats; it is true exactly when its arguments are all
    finite and the comparison, in binary64 arithmetic, holds; a NaN
    argument, and the NaN that stands for an absent range at the call
    sites of the cycle, gives [false]; and the two examples of the
    specification evaluate as stated. *)
Theorem tolerance_predicates_decided :
  (forall v target tol,
      within_tol v target tol = true <->
      is_finite v = true /\ is_finite target = true /\ is_finite tol = true
      /\ (abs (v - target) <=? tol) = true)
  /\ (forall v max_value,
         within_max_abs v max_value = true <->
         is_finite v = true /\ is_finite max_value = true
         /\ (abs v <=? max_value) = true)
  /\ (forall v max_value,
         within_max v max_value = true <->
         is_finite v = true /\ is_finite max_value = true
         /\ (v <=? max_value) = true)
  /\ (forall v target tol,
         is_nan v = true \/ is_nan target = true \/ is_nan tol = true ->
         within_tol v target tol = false)
  /\ (forall v max_value,
         is_nan v = true \/ is_nan max_value = true ->
         within_max_abs v max_value = false /\ within_max v max_value = false)
  /\ (forall max_value, within_max (or_nan None) max_value = false)
  /\ within_tol 5.0 5.0 0.05 = true
  /\ within_tol 5.06 5.0 0.05 = false.
Proof.
  split; [exact within_tol_spec|].
  split; [exact within_max_abs_spec|].
  split; [exact within_max_spec|].
  split.
  { intros v target tol H. apply not_true_false. rewrite within_tol_spec.
    intros (Hv & Ht & Hl & _).
    destruct H as [H | [H | H]]; apply is_finite_nan_arg in H; congruence. }
  split.
  { intros v m H. split; apply not_true_false.
    - rewrite within_max_abs_spec. intros (Hv & Hm & _).
      destruct H as [H | H]; apply is_finite_nan_arg in H; congruence.
    - rewrite within_max_spec. intros (Hv & Hm & _).
      destruct H as [H | H]; apply is_finite_nan_arg in H; congruence. }
  split; [intros m; reflexivity|].
  split; reflexivity.
Qed.

Lemma tolerance_predicates_decided_witness :
  is_nan nan = true
  /\ within_tol nan 5.0 0.05 = false
  /\ within_max_abs nan 0.05 = false
  /\ within_max 0.01 nan = false.
Proof.
  split; [reflexivity|].
  destruct tolerance_predicates_decided as (_ & _ & _ & Htol & Hmax & _).
  split; [apply Htol; left; reflexivity|].
  split; [apply (Hmax nan 0.05); left; reflexivity|].
  apply (Hmax 0.01 nan). right. reflexivity.
Defined.

End Tolerance.

(** ** Conversion *)

Section ConversionFacts.

Import Conversion Claimed.
Local Open Scope float_scope.

Lemma decode_rescaled (hex : string) (cfg : ChannelConfig) (s o : float) :
  decode_raw_value hex (rescaled cfg s o) = decode_raw_value hex cfg.
Proof. reflexivity. Qed.

Lemma convert_hex_unfold (hex : string) (cfg : ChannelConfig) (raw : float) :
  decode_raw_value hex cfg = Ok raw ->
  convert_hex hex cfg =
  if negb (is_finite raw) || (SENTINEL_RAW_MIN <=? raw)
  then Ok (None, nan)
  else Ok (Some raw, raw * scale cfg + offset cfg).
Proof. intros H. unfold convert_hex. rewrite H. reflexivity. Qed.

(** C2: when decoding gives a raw value that is not finite or is at
    least 2147483640.0, [convert_hex] returns (absent, NaN), whatever the
    scale and offset of the channel; for every other raw value it returns
    the raw value and raw * scale + offset. *)
Theorem convert_hex_sentinel (hex : string) (cfg : ChannelConfig) (raw : float) :
  decode_raw_value hex cfg = Ok raw ->
  (is_finite raw = false \/ (2147483640.0 <=? raw) = true ->
   forall s o, convert_hex hex (rescaled cfg s o) = Ok (None, nan))
  /\ (is_finite raw = true /\ (2147483640.0 <=? raw) = false ->
      convert_hex hex cfg = Ok (Some raw, raw * scale cfg + offset cfg)).
Proof.
  intros Hdec. split.
  - intros Hbad s o.
    rewrite (convert_hex_unfold hex (rescaled cfg s o) raw)
      by (rewrite decode_rescaled; exact Hdec).
    unfold SENTINEL_RAW_MIN.
    destruct Hbad as [Hf | Hs]; [rewrite Hf | rewrite Hs].
    + reflexivity.
    + rewrite orb_true_r. reflexivity.
  - intros [Hf Hs].
    rewrite (convert_hex_unfold hex cfg raw Hdec).
    unfold SENTINEL_RAW_MIN. rewrite Hf, Hs. reflexivity.
Qed.

Lemma convert_hex_sentinel_witness :
  decode_raw_value "7FFFFFFF" ConfigStore.default_channel = Ok 2147483647.0
  /\ (forall s o,
         convert_hex "7FFFFFFF" (rescaled ConfigStore.default_channel s o)
         = Ok (None, nan))
  /\ convert_hex "0x00001388" ConfigStore.default_channel
     = Ok (Some 5000.0, 5000.0 * 0.001 + 0.0).
Proof.
  split; [reflexivity|]. split.
  - apply (convert_hex_sentinel "7FFFFFFF" ConfigStore.default_channel
             2147483647.0 eq_refl).
    right. reflexivity.
  - apply (convert_hex_sentinel "0x00001388" ConfigStore.default_channel
             5000.0 eq_refl).
    split; reflexivity.
Defined.

End ConversionFacts.

(** ** Bit slices *)

Section BitSlice.

Import Conversion Claimed.

Lemma land_pow2 (a k : Z) :
  0 <= k -> Z.land a (2 ^ k) = if Z.testbit a k then 2 ^ k else 0.
Proof.
  intros Hk. apply Z.bits_inj'. intros n Hn.
  rewrite Z.land_spec, Z.pow2_bits_eqb by assumption.
  destruct (Z.eqb_spec k n) as [-> | Hne].
  - destruct (Z.testbit a n); simpl.
    + rewrite Z.pow2_bits_eqb, Z.eqb_refl by assumption. reflexivity.
    + rewrite Z.bits_0. reflexivity.
  - rewrite andb_false_r.
    destruct (Z.testbit a k).
    + rewrite Z.pow2_bits_eqb by assumption.
      symmetry. apply Z.eqb_neq. assumption.
    + rewrite Z.bits_0. reflexivity.
Qed.

Lemma apply_bit_slice_claimed (value sb bl : Z) (signed : bool) :
  0 <= sb -> 0 < bl ->
  _apply_bit_slice value sb bl signed = Ok (bit_range value sb bl signed).
Proof.
  intros Hsb Hbl. unfold _apply_bit_slice, bit_range.
  destruct (Z.leb_spec bl 0) as [H | _]; [lia|].
  destruct (Z.ltb_spec sb 0) as [H | _]; [lia|].
  rewrite !Z.shiftl_1_l.
  replace (2 ^ bl - 1) with (Z.ones bl) by (rewrite Z.ones_equiv; lia).
  destruct signed; simpl; [|reflexivity].
  rewrite land_pow2 by lia.
  destruct (Z.testbit _ (bl - 1)); simpl.
  - destruct (Z.eqb_spec (2 ^ (bl - 1)) 0) as [H | _]; [|reflexivity].
    assert (0 < 2 ^ (bl - 1)) by (apply Z.pow_pos_nonneg; lia). lia.
  - reflexivity.
Qed.

Lemma apply_bit_slice_off (value sb bl : Z) (signed : bool) :
  bl <= 0 -> _apply_bit_slice value sb bl signed = Ok value.
Proof.
  intros H. unfold _apply_bit_slice.
  destruct (Z.leb_spec bl 0); [reflexivity | lia].
Qed.

(** The unsigned slice is the quotient by [2 ^ start] modulo [2 ^ len],
    and its bit [i] is bit [start + i] of the value. *)
Lemma bit_range_unsigned (value sb bl : Z) :
  0 <= sb -> 0 < bl ->
  bit_range value sb bl false = (value / 2 ^ sb) mod 2 ^ bl
  /\ forall i, 0 <= i < bl ->
       Z.testbit (bit_range value sb bl false) i = Z.testbit value (sb + i).
Proof.
  intros Hsb Hbl. unfold bit_range. simpl. split.
  - rewrite Z.land_ones, Z.shiftr_div_pow2 by lia. reflexivity.
  - intros i Hi.
    rewrite Z.land_spec, Z.shiftr_spec, Z.ones_spec_low by lia.
    rewrite andb_true_r. f_equal. lia.
Qed.

(** The signed slice is the two's-complement reading of the unsigned
    one: congruent to it modulo [2 ^ len], within the signed range of
    [len] bits, and negative exactly when the top bit of the slice, bit
    [start + len - 1] of the value, is set. *)
Lemma bit_range_signed (value sb bl : Z) :
  0 <= sb -> 0 < bl ->
  let r := bit_range value sb bl true in
  r mod 2 ^ bl = bit_range value sb bl false
  /\ - 2 ^ (bl - 1) <= r < 2 ^ (bl - 1)
  /\ (r < 0 <-> Z.testbit value (sb + bl - 1) = true).
Proof.
  intros Hsb Hbl r. subst r.
  destruct (bit_range_unsigned value sb bl Hsb Hbl) as [Hu Hbits].
  assert (Htop : Z.testbit (bit_range value sb bl false) (bl - 1)
                 = Z.testbit value (sb + bl - 1)).
  { rewrite Hbits by lia. f_equal. lia. }
  assert (Hpow : 2 ^ bl = 2 * 2 ^ (bl - 1)).
  { replace bl with (Z.succ (bl - 1)) at 1 by lia.
    rewrite Z.pow_succ_r by lia. reflexivity. }
  assert (Hpos : 0 < 2 ^ (bl - 1)) by (apply Z.pow_pos_nonneg; lia).
  assert (Hrange : 0 <= bit_range value sb bl false < 2 ^ bl).
  { rewrite Hu. apply Z.mod_pos_bound. lia. }
  assert (Hbit : Z.testbit (bit_range value sb bl false) (bl - 1) = true
                 <-> 2 ^ (bl - 1) <= bit_range value sb bl false).
  { set (u := bit_range value sb bl false) in *.
    rewrite Z.testbit_true by lia.
    assert (Hq : 0 <= u / 2 ^ (bl - 1) < 2).
    { split; [apply Z.div_pos; lia|].
      apply Z.div_lt_upper_bound; lia. }
    split; intros H.
    - assert (u / 2 ^ (bl - 1) = 1).
      { destruct (Z.eq_dec (u / 2 ^ (bl - 1)) 0) as [E | E].
        - rewrite E in H. discriminate.
        - lia. }
      pose proof (Z.mul_div_le u (2 ^ (bl - 1)) Hpos). nia.
    - assert (u / 2 ^ (bl - 1) = 1) as ->; [|reflexivity].
      assert (1 <= u / 2 ^ (bl - 1)); [|lia].
      apply Z.div_le_lower_bound; lia. }
  revert Htop Hrange Hbit.
  unfold bit_range at 1 2 3. cbn [andb].
  fold (bit_range value sb bl false).
  set (u := bit_range value sb bl false).
  unfold bit_range; cbn [andb].
  change (Z.land (Z.shiftr value sb) (Z.ones bl)) with u.
  intros Htop Hrange Hbit.
  destruct (Z.testbit u (bl - 1)) eqn:Eb.
  - assert (2 ^ (bl - 1) <= u) by (apply Hbit; reflexivity).
    split; [|split].
    + replace (u - 2 ^ bl) with (u + (-1) * 2 ^ bl) by lia.
      rewrite Z.mod_add by lia. apply Z.mod_small. lia.
    + lia.
    + rewrite <- Htop. split; [reflexivity | intros _; lia].
  - assert (~ 2 ^ (bl - 1) <= u) by (intros H; apply Hbit in H; discriminate).
    split; [|split].
    + apply Z.mod_small. lia.
    + lia.
    + rewrite <- Htop. split; [lia | discriminate].
Qed.

End BitSlice.

Section DecodeSlice.

Import Conversion Claimed.
Local Open Scope float_scope.

(** Two results that differ as floats are different results. *)
Lemma ok_float_neq (x y : float) :
  PrimFloat.eqb x y = false -> is_nan x = false -> @Ok float x <> Ok y.
Proof.
  intros Hne Hx H. injection H as H. subst y.
  unfold is_nan in Hx. rewrite Hne in Hx. discriminate.
Qed.

(** C4, as stated, fails for a bit length of zero: the byte 0xF0 with
    start_bit = 4 and bit_length = 0 decodes to 240, the whole value, where
    the empty bit range of the statement is 0. *)
Lemma bit_slice_zero_length_counterexample :
  decode_raw_value "F0" (mkChannelConfig "uint_be" 0.001 0.0 (Some 4%Z) (Some 0%Z))
  = Ok 240.0
  /\ PyFloat.of_int (bit_range (int_from_bytes [240%Z] true false) 4 0 false)
     = Ok 0.0
  /\ decode_raw_value "F0"
       (mkChannelConfig "uint_be" 0.001 0.0 (Some 4%Z) (Some 0%Z))
     <> PyFloat.of_int (bit_range (int_from_bytes [240%Z] true false) 4 0 false).
Proof.
  split; [reflexivity|]. split; [reflexivity|].
  change (@Ok float 240.0 <> Ok 0.0).
  apply ok_float_neq; reflexivity.
Qed.

(** C4, amended: for an integer format with start_bit >= 0 and
    bit_length >= 1 both set, decoding yields (as a float) the bit range
    [start_bit, start_bit + bit_length) of the integer read from the bytes,
    bit 0 being the least significant, and for a signed parent format the
    two's-complement reading of that slice by its own top bit; with
    bit_length <= 0 the integer is left unsliced.  The byte 0xF0 with
    start_bit = 4 and bit_length = 4 decodes to 15 unsigned and to -1
    signed. *)
Theorem decode_bit_slice
  (hex : string) (cfg : ChannelConfig) (bs : list Z) (sb bl : Z) :
  hex_to_bytes hex = Ok bs ->
  is_int_format (raw_format cfg) = true ->
  start_bit cfg = Some sb ->
  bit_length cfg = Some bl ->
  let signed := startswith "int_" (raw_format cfg) in
  let value := int_from_bytes bs (endswith "be" (raw_format cfg)) signed in
  ((0 <= sb)%Z -> (0 < bl)%Z ->
   decode_raw_value hex cfg = PyFloat.of_int (bit_range value sb bl signed)
   /\ bit_range value sb bl false = ((value / 2 ^ sb) mod 2 ^ bl)%Z
   /\ (forall i, (0 <= i < bl)%Z ->
         Z.testbit (bit_range value sb bl false) i = Z.testbit value (sb + i))
   /\ (bit_range value sb bl true mod 2 ^ bl)%Z = bit_range value sb bl false
   /\ (- 2 ^ (bl - 1) <= bit_range value sb bl true < 2 ^ (bl - 1))%Z
   /\ ((bit_range value sb bl true < 0)%Z
       <-> Z.testbit value (sb + bl - 1) = true))
  /\ ((bl <= 0)%Z -> decode_raw_value hex cfg = PyFloat.of_int value)
  /\ decode_raw_value "F0"
       (mkChannelConfig "uint_be" 0.001 0.0 (Some 4%Z) (Some 4%Z)) = Ok 15.0
  /\ decode_raw_value "F0"
       (mkChannelConfig "int_be" 0.001 0.0 (Some 4%Z) (Some 4%Z)) = Ok (-1.0).
Proof.
  intros Hbytes Hfmt Hsb Hbl signed value.
  assert (Hdec : decode_raw_value hex cfg =
                 (v <- _apply_bit_slice value sb bl signed ;; PyFloat.of_int v)).
  { unfold decode_raw_value. rewrite Hbytes. cbn [Py.bind].
    rewrite Hfmt, Hsb, Hbl. reflexivity. }
  split; [|split; [|split; reflexivity]].
  - intros Hs Hl.
    destruct (bit_range_unsigned value sb bl Hs Hl) as [Hu Hbits].
    destruct (bit_range_signed value sb bl Hs Hl) as (Hm & Hr & Hneg).
    split; [|repeat split; try assumption; try apply Hr; apply Hneg].
    rewrite Hdec, apply_bit_slice_claimed by assumption. reflexivity.
  - intros Hl. rewrite Hdec, apply_bit_slice_off by assumption. reflexivity.
Qed.

Lemma decode_bit_slice_witness :
  decode_raw_value "F0"
    (mkChannelConfig "int_be" 0.001 0.0 (Some 4%Z) (Some 4%Z))
  = PyFloat.of_int (bit_range (-16) 4 4 true)
  /\ bit_range (-16) 4 4 true = (-1)%Z.
Proof.
  split; [|reflexivity].
  apply (decode_bit_slice "F0"
           (mkChannelConfig "int_be" 0.001 0.0 (Some 4%Z) (Some 4%Z))
           [240%Z] 4 4 eq_refl eq_refl eq_refl eq_refl); lia.
Defined.

End DecodeSlice.

(** ** Frame assembly *)

Section Frames.

Import HMI.

Lemma feed_byte_other (st : assembler) (byte : Z) :
  byte <> TERMINATOR ->
  feed_byte st byte =
  (mkAssembler
     (if (List.length (_buf st) <? BUF_CAP)%nat
      then (_buf st ++ [byte])%list else _buf st) 0,
   None).
Proof.
  intros H. unfold feed_byte.
  destruct (Z.eqb_spec byte TERMINATOR); [contradiction | reflexivity].
Qed.

(** Reading a byte sequence in two chunks is reading it in one. *)
Lemma feed_app (st : assembler) (a b : list Z) :
  feed st (a ++ b)%list =
  let '(st1, f1) := feed st a in
  let '(st2, f2) := feed st1 b in
  (st2, (f1 ++ f2)%list).
Proof.
  revert st. induction a as [|x a IH]; intros st; simpl.
  - destruct (feed st b). reflexivity.
  - destruct (feed_byte st x) as [st1 out].
    rewrite IH.
    destruct (feed st1 a) as [st2 f1].
    destruct (feed st2 b) as [st3 f2].
    destruct out; reflexivity.
Qed.

(** C5: from the empty accumulator and a terminator count of zero, the
    bytes of "SET d1t 10.0" followed by three 0xFF bytes dispatch exactly
    one frame, those bytes, and leave the accumulator empty and the count
    zero, however the bytes are cut into chunks; and a byte other than
    0xFF dispatches nothing, resets the count to zero and is appended to
    the accumulator, unless the accumulator already holds 256 bytes, in
    which case it is dropped and the accumulator is unchanged. *)
Theorem frame_assembler_set_command :
  feed empty_assembler (bytes_of "SET d1t 10.0" ++ [255; 255; 255])%list
  = (empty_assembler, [bytes_of "SET d1t 10.0"])
  /\ (forall a b,
         (a ++ b)%list = (bytes_of "SET d1t 10.0" ++ [255; 255; 255])%list ->
         let '(st1, f1) := feed empty_assembler a in
         let '(st2, f2) := feed st1 b in
         st2 = empty_assembler
         /\ (f1 ++ f2)%list = [bytes_of "SET d1t 10.0"])
  /\ (forall st byte,
         byte <> 255 ->
         let '(st', out) := feed_byte st byte in
         out = None
         /\ _ff_count st' = 0
         /\ ((List.length (_buf st) < 256)%nat ->
             _buf st' = (_buf st ++ [byte])%list)
         /\ ((256 <= List.length (_buf st))%nat -> _buf st' = _buf st)).
Proof.
  split; [reflexivity|]. split.
  - intros a b Hab.
    assert (H : feed empty_assembler (a ++ b)%list
                = (empty_assembler, [bytes_of "SET d1t 10.0"]))
      by (rewrite Hab; reflexivity).
    rewrite feed_app in H.
    destruct (feed empty_assembler a) as [st1 f1].
    destruct (feed st1 b) as [st2 f2].
    injection H as H1 H2. split; assumption.
  - intros st byte Hb.
    rewrite (feed_byte_other st byte Hb).
    cbn [_ff_count _buf]. unfold BUF_CAP.
    split; [reflexivity|]. split; [reflexivity|]. split.
    + intros Hlt. apply Nat.ltb_lt in Hlt. rewrite Hlt. reflexivity.
    + intros Hge. apply Nat.ltb_ge in Hge. rewrite Hge. reflexivity.
Qed.

Lemma frame_assembler_set_command_witness :
  65 <> 255
  /\ feed_byte (mkAssembler [83] 2) 65 = (mkAssembler [83; 65] 0, None).
Proof.
  split; [discriminate|].
  destruct frame_assembler_set_command as (_ & _ & Hbyte).
  specialize (Hbyte (mkAssembler [83] 2) 65 ltac:(discriminate)).
  destruct (feed_byte (mkAssembler [83] 2) 65) as [[buf n] out].
  destruct Hbyte as (-> & Hn & Hbuf & _).
  cbn [_ff_count _buf] in *. rewrite Hn, (Hbuf ltac:(simpl; lia)).
  reflexivity.
Defined.

End Frames.

(** ** Pacing of the measurement loop *)

Section Pacing.

Import Measurement.
Local Open Scope float_scope.

Lemma float_neq (x y : float) :
  PrimFloat.eqb x y = false -> is_nan x = false -> x <> y.
Proof.
  intros Hne Hx H. subst y.
  unfold is_nan in Hx. rewrite Hne in Hx. discriminate.
Qed.

(** C10, as stated, fails: with the previous tick scheduled at 0 and an
    interval of half a second, a cycle that starts at 0.3 sets the next
    tick to 0.3 + 0.5, not to the accumulated 0 + 0.5; and along a run in
    which every cycle starts 0.25 s after its tick, the ticks fall at
    0.75, 1.5 and 2.25, each lateness added to the schedule. *)
Lemma next_tick_not_accumulated_counterexample :
  run_turn 0.0 0.3 0.5 = (RunCycle, 0.3 + 0.5)
  /\ snd (run_turn 0.0 0.3 0.5) <> 0.0 + 0.5
  /\ map snd (run_turns 0.0 [(0.25, 0.5); (1.0, 0.5); (1.75, 0.5)])
     = [0.75; 1.5; 2.25].
Proof.
  split; [reflexivity|].
  split; [apply float_neq; reflexivity | reflexivity].
Qed.

Lemma run_turns_ticks (trace : list (float * float)) :
  forall next_tick,
    Forall2
      (fun (at_ : float * float) (r : turn * float) =>
         r = (RunCycle, fst at_ + snd at_)
         \/ exists tick, r = (Sleep 0.01, tick) /\ (fst at_ <? tick) = true)
      trace (run_turns next_tick trace).
Proof.
  induction trace as [|[now interval] rest IH]; intros next_tick; simpl.
  - constructor.
  - constructor; [|apply IH].
    unfold run_turn. simpl. destruct (now <? next_tick) eqn:E.
    + right. exists next_tick. split; [reflexivity | assumption].
    + left. reflexivity.
Qed.

(** C10, amended: a turn of the loop that finds the clock before the
    scheduled tick sleeps for 0.01 s and keeps the tick; any other turn
    runs a cycle and schedules the next tick at the clock reading taken
    when that cycle started plus the poll interval of the cycle's
    configuration snapshot; so along every run of the loop each tick set
    by a cycle is that cycle's start time plus the interval. *)
Theorem next_tick_from_cycle_start (next_tick now interval : float) :
  ((now <? next_tick) = true ->
   run_turn next_tick now interval = (Sleep 0.01, next_tick))
  /\ ((now <? next_tick) = false ->
      run_turn next_tick now interval = (RunCycle, now + interval))
  /\ (forall trace,
         Forall2
           (fun (at_ : float * float) (r : turn * float) =>
              r = (RunCycle, fst at_ + snd at_)
              \/ exists tick,
                   r = (Sleep 0.01, tick) /\ (fst at_ <? tick) = true)
           trace (run_turns next_tick trace)).
Proof.
  unfold run_turn.
  split; [intros H; rewrite H; reflexivity|].
  split; [intros H; rewrite H; reflexivity|].
  intros trace. apply run_turns_ticks.
Qed.

Lemma next_tick_from_cycle_start_witness :
  (0.1 <? 0.5) = true
  /\ run_turn 0.5 0.1 0.5 = (Sleep 0.01, 0.5)
  /\ (0.75 <? 0.5) = false
  /\ run_turn 0.5 0.75 0.5 = (RunCycle, 1.25).
Proof.
  split; [reflexivity|].
  split; [apply (proj1 (next_tick_from_cycle_start 0.5 0.1 0.5)); reflexivity|].
  split; [reflexivity|].
  apply (proj1 (proj2 (next_tick_from_cycle_start 0.5 0.75 0.5))). reflexivity.
Defined.

End Pacing.

(** ** The overall verdict of a cycle *)

Section Verdict.

Import Conversion ConfigStore Client Measurement Claimed.
Local Open Scope float_scope.

(** A conversion that failed leaves NaN as the value of its channel. *)
Lemma convert_result_failed config idx result c :
  convert_result config idx result = Ok c ->
  fst (fst c) = false -> snd c = nan.
Proof.
  unfold convert_result. intros H Hc.
  destruct (raw_hex result) as [hex|]; [|injection H as <-; discriminate].
  destruct (ok result && negb (is_empty hex));
    [|injection H as <-; discriminate].
  destruct (nth_error (channels config) idx) as [ch|]; [|discriminate].
  destruct (convert_hex hex ch) as [[raw mm]|[msg| | | | | | |]];
    try discriminate; injection H as <-; [discriminate | reflexivity].
Qed.

Lemma convert_results_failed config results :
  forall idx converted k,
    convert_results config idx results = Ok converted ->
    fst (fst (nth k converted (true, None, nan))) = false ->
    nth k (map snd converted) nan = nan.
Proof.
  induction results as [|r rest IH]; intros idx converted k H Hk; simpl in H.
  - injection H as <-. destruct k; reflexivity.
  - destruct (convert_result config idx r) as [c|] eqn:Ec; [|discriminate].
    cbn [Py.bind] in H.
    destruct (convert_results config (S idx) rest) as [cs|] eqn:Ecs;
      [|discriminate].
    injection H as <-.
    destruct k as [|k]; simpl in *.
    + eapply convert_result_failed; eassumption.
    + eapply IH; eassumption.
Qed.

Lemma convert_results_length config results :
  forall idx converted,
    convert_results config idx results = Ok converted ->
    List.length converted = List.length results.
Proof.
  induction results as [|r rest IH]; intros idx converted H; simpl in H.
  - injection H as <-. reflexivity.
  - destruct (convert_result config idx r) as [c|]; [|discriminate].
    cbn [Py.bind] in H.
    destruct (convert_results config (S idx) rest) as [cs|] eqn:Ecs;
      [|discriminate].
    injection H as <-. simpl. f_equal. eapply IH; eassumption.
Qed.

(** A corrected value is finite only if the converted value is. *)
Lemma add_offsets_finite config converted_mm :
  forall idx with_offsets k,
    add_offsets config idx converted_mm = Ok with_offsets ->
    is_finite (nth k with_offsets nan) = true ->
    is_finite (nth k converted_mm nan) = true.
Proof.
  induction converted_mm as [|v rest IH]; intros idx offs k H Hk; simpl in H.
  - injection H as <-. destruct k; discriminate.
  - unfold PyFloat.isfinite in H.
    destruct (is_finite v) eqn:Ev.
    + destruct (nth_error (offsets_mm config) idx) as [o|]; [|discriminate].
      cbn [Py.bind] in H.
      destruct (add_offsets config (S idx) rest) as [vs|] eqn:Evs;
        [|discriminate].
      injection H as <-.
      destruct k as [|k]; simpl in *; [assumption|].
      eapply IH; eassumption.
    + cbn [Py.bind] in H.
      destruct (add_offsets config (S idx) rest) as [vs|] eqn:Evs;
        [|discriminate].
      injection H as <-.
      destruct k as [|k]; simpl in *; [discriminate|].
      eapply IH; eassumption.
Qed.

Lemma range_of_three_finite a b c max_value :
  within_max (or_nan (range_of_three a b c)) max_value = true ->
  is_finite a = true /\ is_finite b = true /\ is_finite c = true.
Proof.
  unfold range_of_three, PyFloat.isfinite. intros H.
  destruct (is_finite a); destruct (is_finite b); destruct (is_finite c);
    simpl in H; try discriminate H; auto.
Qed.

(** When the six checks hold, the eight corrected values are finite. *)
Lemma checks_need_finite config reads_ok hexes converted with_offsets :
  let p := evaluate config reads_ok hexes converted with_offsets in
  ok_d1 p = true -> ok_d2 p = true -> ok_e1 p = true -> ok_e2 p = true ->
  forall k, (k < 8)%nat -> is_finite (nth k with_offsets nan) = true.
Proof.
  intros p H1 H2 H3 H4 k Hk. subst p. cbn [evaluate ok_d1 ok_d2 ok_e1 ok_e2] in *.
  apply within_tol_spec in H1. apply within_tol_spec in H2.
  apply range_of_three_finite in H3. apply range_of_three_finite in H4.
  destruct H1 as [H1 _], H2 as [H2 _], H3 as (H3 & H3' & H3''),
    H4 as (H4 & H4' & H4'').
  do 8 (destruct k as [|k]; [assumption|]). lia.
Qed.

Lemma forallb_nth {A : Type} (f : A -> bool) (l : list A) (d : A) :
  (forall k, (k < List.length l)%nat -> f (nth k l d) = true) ->
  forallb f l = true.
Proof.
  induction l as [|x l IH]; intros H; [reflexivity|]. simpl.
  pose proof (H O ltac:(simpl; lia)) as H0. simpl in H0. rewrite H0. simpl.
  apply IH. intros k Hk. apply (H (S k)). simpl. lia.
Qed.


Lemma overall_pass_eight
  (config : Config) (results : list PortReadResult) (p : Published) :
  List.length results = 8%nat ->
  cycle config results = Ok p ->
  (overall_pass p = true <->
   Forall (fun r => ok r = true) results
   /\ ok_d1 p = true /\ ok_d2 p = true /\ ok_dd p = true
   /\ ok_e1 p = true /\ ok_e2 p = true /\ ok_len p = true).
Proof.
  intros Hlen Hc. unfold cycle in Hc.
  destruct (convert_results config 0 results) as [converted|] eqn:Econv;
    [|discriminate].
  cbn [Py.bind] in Hc.
  destruct (add_offsets config 0 (map snd converted)) as [offs|] eqn:Eoff;
    [|discriminate].
  cbn [Py.bind] in Hc. injection Hc as Hp.
  assert (Hov : overall_pass p =
                (forallb ok results && forallb (fun c => fst (fst c)) converted)
                && ok_d1 p && ok_d2 p && ok_dd p && ok_e1 p && ok_e2 p
                && ok_len p) by (rewrite <- Hp; reflexivity).
  assert (HA : forallb ok results = true
               <-> Forall (fun r => ok r = true) results).
  { rewrite forallb_forall, Forall_forall. reflexivity. }
  assert (HB : ok_d1 p = true -> ok_d2 p = true -> ok_e1 p = true ->
               ok_e2 p = true ->
               forallb (fun c => fst (fst c)) converted = true).
  { intros H1 H2 H4 H5.
    apply forallb_nth with (d := (true, None, nan)).
    intros k Hk.
    rewrite (convert_results_length _ _ _ _ Econv), Hlen in Hk.
    destruct (fst (fst (nth k converted (true, None, nan)))) eqn:Ek;
      [reflexivity|].
    pose proof (convert_results_failed _ _ _ _ k Econv Ek) as Hnan.
    rewrite <- Hp in H1, H2, H4, H5.
    pose proof (checks_need_finite config (forallb ok results)
                  (map raw_hex results) converted offs H1 H2 H4 H5 k Hk)
      as Hfin.
    apply (add_offsets_finite _ _ _ _ k Eoff) in Hfin.
    rewrite Hnan in Hfin. discriminate. }
  rewrite Hov, !andb_true_iff, <- HA. tauto.
Qed.













End Verdict.

(** ** The configuration store *)

Section Store.

Import ConfigStore Claimed.
Local Open Scope float_scope.

Lemma update_from_hmi_set_version key value_in s s' updated :
  update_from_hmi_set key value_in s = Ok (s', updated) ->
  (updated = true -> version s' = (version s + 1)%Z)
  /\ (updated = false -> s' = s).
Proof.
  unfold update_from_hmi_set. intros H.
  repeat match type of H with
         | (if ?c then _ else _) = _ => destruct c
         | match ?c with _ => _ end = _ => destruct c
         end;
    try discriminate; injection H as <- <-;
    split; intros E; try discriminate; reflexivity.
Qed.

Lemma update_targets_mm_version attribute_of updates s :
  let r := update_targets_mm attribute_of updates s in
  (snd r = None -> version (fst r) = (version s + 1)%Z)
  /\ (snd r <> None -> version (fst r) = version s).
Proof.
  unfold update_targets_mm.
  destruct (set_targets attribute_of updates (targets (_config s)))
    as [t [e|]]; simpl; split; intros H; try reflexivity;
    try discriminate; contradiction.
Qed.

Lemma update_from_form_version attribute_of form s :
  (version s <= version (fst (update_from_form attribute_of form s))
   <= version s + 2)%Z.
Proof.
  unfold update_from_form.
  destruct (form_values form form_target_fields) as [updates|];
    [|simpl; lia].
  destruct (form_values form _) as [offsets|]; [|simpl; lia].
  set (s1 := match offsets with
             | [] => s
             | _ => update_offsets_mm (map snd offsets) s
             end).
  assert (H1 : (version s <= version s1 <= version s + 1)%Z)
    by (subst s1; destruct offsets; unfold version; simpl; lia).
  destruct updates as [|u updates]; [simpl; lia|].
  destruct (update_targets_mm_version attribute_of (u :: updates) s1)
    as [Hr He].
  destruct (snd (update_targets_mm attribute_of (u :: updates) s1)) as [e|].
  - rewrite He by discriminate. lia.
  - rewrite Hr by reflexivity. lia.
Qed.

Lemma apply_op_version attribute_of (o : op) (s : store) :
  (version s <= version (apply_op attribute_of o s))%Z.
Proof.
  destruct o; cbn [apply_op].
  - unfold version; simpl; lia.
  - destruct (update_targets_mm_version attribute_of updates s) as [Hr He].
    destruct (snd (update_targets_mm attribute_of updates s)) as [e|].
    + rewrite He by discriminate. lia.
    + rewrite Hr by reflexivity. lia.
  - unfold version; simpl; lia.
  - destruct (update_from_hmi_set key value_in s) as [[s' u]|] eqn:E; [|lia].
    destruct (update_from_hmi_set_version _ _ _ _ _ E) as [Ht Hf].
    destruct u; [rewrite (Ht eq_refl) | rewrite (Hf eq_refl)]; lia.
  - destruct d; unfold version; simpl; lia.
  - apply update_from_form_version.
  - destruct written; simpl; lia.
Qed.

Lemma run_ops_version attribute_of (ops : list op) :
  forall s, (version s <= version (run_ops attribute_of ops s))%Z.
Proof.
  induction ops as [|o ops IH]; intros s; simpl; [lia|].
  pose proof (apply_op_version attribute_of o s).
  pose proof (IH (apply_op attribute_of o s)).
  unfold run_ops in *. lia.
Qed.

(** The values read from a form that holds one of the fields are not
    empty. *)
Lemma form_values_present {K : Type} form (fields : list (string * K)) :
  forall values,
    form_values form fields = Ok values ->
    existsb (fun field => match form_get form field with
                          | Some _ => true
                          | None => false
                          end) (map fst fields) = true ->
    values <> [].
Proof.
  induction fields as [|[field key] rest IH]; intros values Hv Hp;
    [discriminate|].
  cbn [form_values] in Hv. cbn [map fst existsb] in Hp.
  destruct (form_get form field) as [text|].
  - destruct (PyParse.float_of_string text) as [v|]; [|discriminate].
    destruct (form_values form rest) as [vs|]; [|discriminate].
    injection Hv as <-. discriminate.
  - exact (IH values Hv Hp).
Qed.

(** A form update that returns and holds one of its fields raises the
    version by one or two. *)
Lemma form_mutation_version attribute_of form s :
  snd (update_from_form attribute_of form s) = None ->
  form_holds form = true ->
  (version s < version (fst (update_from_form attribute_of form s))
   <= version s + 2)%Z.
Proof.
  unfold update_from_form, form_holds. intros Hr Hh.
  rewrite existsb_app in Hh.
  destruct (form_values form form_target_fields) as [updates|] eqn:Eu;
    [|discriminate].
  destruct (form_values form (map (fun f => (f, tt)) form_offset_fields))
    as [offsets|] eqn:Eo; [|discriminate].
  assert (Hne : updates <> [] \/ offsets <> []).
  { apply orb_true_iff in Hh. destruct Hh as [Hh | Hh].
    - left. exact (form_values_present form _ updates Eu Hh).
    - right. apply (form_values_present form _ offsets Eo).
      rewrite map_map. cbn [fst]. rewrite map_id. exact Hh. }
  set (s1 := match offsets with
             | [] => s
             | _ => update_offsets_mm (map snd offsets) s
             end) in *.
  assert (H1 : (version s <= version s1 <= version s + 1)%Z
               /\ (offsets <> [] -> version s1 = (version s + 1)%Z)).
  { subst s1. destruct offsets as [|o offsets]; unfold version; simpl.
    - split; [lia | intros H; contradiction H; reflexivity].
    - split; [lia | reflexivity]. }
  destruct H1 as [H1 H1'].
  destruct updates as [|u updates].
  - destruct Hne as [Hne | Hne]; [contradiction Hne; reflexivity|].
    cbn [fst]. rewrite (H1' Hne). lia.
  - destruct (update_targets_mm_version attribute_of (u :: updates) s1)
      as [Hv _].
    rewrite (Hv Hr). lia.
Qed.

(** A mutation that goes through raises the version. *)
Lemma mutation_raises_version attribute_of (o : op) (s : store) :
  mutation attribute_of o s ->
  (version s < version (apply_op attribute_of o s))%Z.
Proof.
  destruct o; cbn [apply_op mutation]; intros H; try contradiction.
  - unfold version; simpl; lia.
  - rewrite (proj1 (update_targets_mm_version attribute_of updates s) H).
    lia.
  - unfold version; simpl; lia.
  - destruct H as [s' Hs']. rewrite Hs'.
    rewrite (proj1 (update_from_hmi_set_version _ _ _ _ _ Hs') eq_refl).
    lia.
  - destruct d; simpl in H; try discriminate; unfold version; simpl; lia.
  - destruct H as [Hr Hh].
    apply (form_mutation_version attribute_of form s Hr Hh).
Qed.

(** C8, as stated, fails for a target update that raises: with the
    updates d1_target = 1.0 and __class__ = 2.0, in this order, the first
    field is written, [setattr] refuses the second name, and the call
    ends with the target changed and the version where it was. *)
Lemma target_update_raise_counterexample :
  let s := mkStore default_config 1 in
  let updates := [("d1_target", 1.0); ("__class__", 2.0)] in
  let s' := apply_op cpython_attribute (UpdateTargets updates) s in
  update_targets_mm cpython_attribute updates s = (s', Some TypeError)
  /\ d1_target (targets (_config s)) = 0.0
  /\ d1_target (targets (_config s')) = 1.0
  /\ ~ (version s < version s')%Z.
Proof.
  split; [reflexivity|]. split; [reflexivity|]. split; [reflexivity|].
  unfold version. simpl. lia.
Qed.

(** C8, amended: the operations that mutate the configuration (replace,
    target update, offsets update, symbolic set, reload), when they
    return, and the symbolic set returns true, each raise the version
    counter by one, hence by at least one; a form update that returns
    and holds one of its fields, which runs one or two of them, raises
    it by one or two; a construction of the store whose load raises has
    changed nothing; no sequence of operations of the store, raising
    ones included, lowers the version; and a sequence that contains
    such a mutation ends at a strictly higher version. *)
Theorem version_monotonic (attribute_of : string -> attribute) :
  (forall config s, version (replace_config config s) = (version s + 1)%Z)
  /\ (forall updates s s',
         update_targets_mm attribute_of updates s = (s', None) ->
         version s' = (version s + 1)%Z)
  /\ (forall offsets s,
         version (update_offsets_mm offsets s) = (version s + 1)%Z)
  /\ (forall key value_in s s',
         update_from_hmi_set key value_in s = Ok (s', true) ->
         version s' = (version s + 1)%Z)
  /\ (forall d s s',
         load d s = (s', None) -> version s' = (version s + 1)%Z)
  /\ (forall form s s',
         update_from_form attribute_of form s = (s', None) ->
         form_holds form = true ->
         (version s < version s' <= version s + 2)%Z)
  /\ (forall d s' e,
         init d = (s', Some e) -> s' = mkStore default_config 0)
  /\ (forall o s, (version s <= version (apply_op attribute_of o s))%Z)
  /\ (forall ops s, (version s <= version (run_ops attribute_of ops s))%Z)
  /\ (forall before o after s,
         mutation attribute_of o (run_ops attribute_of before s) ->
         (version s
          < version (run_ops attribute_of (before ++ o :: after) s))%Z).
Proof.
  split; [reflexivity|]. split.
  { intros updates s s' H.
    destruct (update_targets_mm_version attribute_of updates s) as [Hr _].
    rewrite H in Hr. apply Hr. reflexivity. }
  split; [reflexivity|]. split.
  { intros key v s s' H.
    apply (update_from_hmi_set_version _ _ _ _ _ H). reflexivity. }
  split.
  { intros d s s' H. destruct d; simpl in H; try discriminate;
      injection H as <-; reflexivity. }
  split.
  { intros form s s' H Hh.
    pose proof (form_mutation_version attribute_of form s) as Hv.
    rewrite H in Hv. apply Hv; [reflexivity | exact Hh]. }
  split.
  { intros d s' e H. destruct d; simpl in H; try discriminate;
      injection H as <- _; reflexivity. }
  split; [exact (apply_op_version attribute_of)|].
  split; [intros ops s; apply run_ops_version|].
  intros before o after s Ho.
  unfold run_ops. rewrite fold_left_app. simpl.
  fold (run_ops attribute_of before s).
  set (s1 := run_ops attribute_of before s) in *.
  fold (run_ops attribute_of after (apply_op attribute_of o s1)).
  pose proof (run_ops_version attribute_of before s) as H1. fold s1 in H1.
  pose proof (run_ops_version attribute_of after
                (apply_op attribute_of o s1)) as H2.
  pose proof (mutation_raises_version attribute_of o s1 Ho) as H3.
  lia.
Qed.

Lemma version_monotonic_witness :
  update_from_hmi_set "d1t" 10.0 (mkStore default_config 1)
  = Ok (mkStore
          (with_targets default_config
             (setattr_target default_targets "d1_target" 254.0)) 2, true)
  /\ version
       (mkStore
          (with_targets default_config
             (setattr_target default_targets "d1_target" 254.0)) 2)
     = (version (mkStore default_config 1) + 1)%Z
  /\ (version (mkStore default_config 1)
      < version
          (run_ops cpython_attribute
             [Save (Some OSError);
              UpdateTargets [("__doc__", 1.0%float)];
              HmiSet "nope" 1.0%float]
             (mkStore default_config 1)))%Z.
Proof.
  destruct (version_monotonic cpython_attribute)
    as (_ & _ & _ & Hset & _ & _ & _ & _ & _ & Hseq).
  split; [reflexivity|].
  split; [apply (Hset "d1t" 10.0 (mkStore default_config 1)); reflexivity|].
  apply (Hseq [Save (Some OSError)] (UpdateTargets [("__doc__", 1.0)])
           [HmiSet "nope" 1.0] (mkStore default_config 1)).
  reflexivity.
Defined.

End Store.

(** ** Symbolic keys *)

Section SymbolicKeys.

Import ConfigStore Claimed.
Local Open Scope float_scope.

Lemma in_table_accepted (key : string) :
  in_table key = true -> accepted_key key = true.
Proof.
  unfold in_table, accepted_key, target_keys, offset_keys. simpl.
  repeat match goal with
         | |- context [String.eqb key ?k] =>
             destruct (String.eqb_spec key k) as [-> | _];
             [intros _; reflexivity|]
         end.
  simpl. discriminate.
Qed.

Lemma not_accepted_unchanged (key : string) (value_in : float) (s : store) :
  accepted_key key = false ->
  update_from_hmi_set key value_in s = Ok (s, false).
Proof.
  unfold accepted_key, target_keys, update_from_hmi_set. cbn [existsb].
  repeat match goal with
         | |- context [String.eqb key ?k] =>
             destruct (String.eqb key k); [cbn [orb]; discriminate|]
         end.
  cbn [orb].
  destruct (startswith "off" key); [|reflexivity]. cbn [andb].
  destruct (PyParse.int_of_string (drop 3 key)) as [idx|]; [|reflexivity].
  destruct ((0 <=? idx)%Z && (idx <? 8)%Z); [discriminate | reflexivity].
Qed.

(** C7, as stated, fails: "off03" is not in the table of symbolic keys,
    and the update accepts it, writes offset 3 and raises the version. *)
Lemma leading_zero_offset_key_counterexample :
  in_table "off03" = false
  /\ update_from_hmi_set "off03" 1.0 (mkStore default_config 1)
     = Ok (mkStore
             (with_offsets_mm default_config
                [0.0; 0.0; 0.0; 25.4; 0.0; 0.0; 0.0; 0.0]) 2,
           true).
Proof. split; reflexivity. Qed.

(** C7, amended: for every key that is neither one of the nine keys of
    targets and tolerances nor "off" followed by text that int() reads as
    an integer from 0 to 7, and every value, the symbolic set returns
    false and leaves the whole store, version included, as it was; every
    key of the table is among the accepted ones; and whenever the
    operation returns false, it has changed nothing. *)
Theorem unknown_key_no_mutation :
  (forall key value_in s,
      accepted_key key = false ->
      update_from_hmi_set key value_in s = Ok (s, false))
  /\ (forall key, in_table key = true -> accepted_key key = true)
  /\ (forall key value_in s s',
         update_from_hmi_set key value_in s = Ok (s', false) -> s' = s).
Proof.
  split; [exact not_accepted_unchanged|].
  split; [exact in_table_accepted|].
  intros key v s s' H.
  apply (update_from_hmi_set_version _ _ _ _ _ H). reflexivity.
Qed.

Lemma unknown_key_no_mutation_witness :
  accepted_key "offset" = false
  /\ update_from_hmi_set "offset" 1.0 (mkStore default_config 1)
     = Ok (mkStore default_config 1, false)
  /\ accepted_key "off8" = false
  /\ update_from_hmi_set "off8" 1.0 (mkStore default_config 1)
     = Ok (mkStore default_config 1, false)
  /\ accepted_key ("off" ++ String (chr 28) "2") = false
  /\ update_from_hmi_set ("off" ++ String (chr 28) "2") 1.0
       (mkStore default_config 1)
     = Ok (mkStore default_config 1, false).
Proof.
  destruct unknown_key_no_mutation as (Hno & _ & _).
  split; [reflexivity|].
  split; [apply Hno; reflexivity|].
  split; [reflexivity|].
  split; [apply Hno; reflexivity|].
  split; [reflexivity|].
  apply Hno. reflexivity.
Defined.

End SymbolicKeys.

(** ** Tokens and separators of a command line *)

Section Tokens.

Import ConfigStore HMI Claimed.

(** What a write of the file would come to; a [SET] asks for none. *)
Variable written : option exn.

Lemma append_nil_r (s : string) : s ++ "" = s.
Proof. induction s as [|c s IH]; simpl; [reflexivity | rewrite IH; reflexivity]. Qed.

Lemma append_assoc (a b c : string) : (a ++ b) ++ c = a ++ (b ++ c).
Proof. induction a as [|x a IH]; simpl; [reflexivity | rewrite IH; reflexivity]. Qed.

Lemma all_chars_app (p : ascii -> bool) (a b : string) :
  all_chars p (a ++ b) = all_chars p a && all_chars p b.
Proof.
  induction a as [|x a IH]; simpl; [reflexivity|].
  rewrite IH, andb_assoc. reflexivity.
Qed.

Lemma is_empty_app (a b : string) :
  is_empty (a ++ b) = is_empty a && is_empty b.
Proof. destruct a; reflexivity. Qed.

(** A run of characters that are not whitespace extends the token being
    read. *)
Lemma split_ws_run (t : string) :
  forall cur rest,
    all_chars nonspace t = true ->
    split_ws cur (t ++ rest) = split_ws (cur ++ t) rest.
Proof.
  induction t as [|c t IH]; intros cur rest H; simpl in *.
  - rewrite append_nil_r. reflexivity.
  - apply andb_true_iff in H. destruct H as [Hc Ht].
    unfold nonspace in Hc. apply negb_true_iff in Hc. rewrite Hc.
    rewrite IH by assumption. rewrite append_assoc. reflexivity.
Qed.

Lemma is_token_spec (t : string) :
  is_token t = true <-> is_empty t = false /\ all_chars nonspace t = true.
Proof.
  unfold is_token. rewrite andb_true_iff, negb_true_iff. reflexivity.
Qed.

Lemma split_ws_token (t : string) :
  is_token t = true -> split_ws "" t = [t].
Proof.
  intros H. apply is_token_spec in H. destruct H as [Hne Hall].
  rewrite <- (append_nil_r t) at 1.
  rewrite split_ws_run by assumption. simpl. rewrite Hne. reflexivity.
Qed.

Lemma split_ws_two (k v : string) :
  is_token k = true -> is_token v = true ->
  split_ws "" (k ++ " " ++ v) = [k; v].
Proof.
  intros Hk Hv. apply is_token_spec in Hk. destruct Hk as [Hne Hall].
  rewrite split_ws_run by assumption. simpl. rewrite Hne.
  rewrite split_ws_token by assumption. reflexivity.
Qed.

Lemma rstrip_nonspace (t : string) :
  all_chars nonspace t = true -> rstrip t = t.
Proof.
  induction t as [|c t IH]; intros H; simpl in *; [reflexivity|].
  apply andb_true_iff in H. destruct H as [Hc Ht].
  rewrite IH by assumption.
  unfold nonspace in Hc. apply negb_true_iff in Hc.
  destruct t; [rewrite Hc|]; reflexivity.
Qed.

Lemma lstrip_nonspace (t : string) :
  all_chars nonspace t = true -> lstrip t = t.
Proof.
  destruct t as [|c t]; intros H; simpl in *; [reflexivity|].
  apply andb_true_iff in H. destruct H as [Hc _].
  unfold nonspace in Hc. apply negb_true_iff in Hc. rewrite Hc. reflexivity.
Qed.

Lemma strip_token (t : string) : is_token t = true -> strip t = t.
Proof.
  intros H. apply is_token_spec in H. destruct H as [_ Hall].
  unfold strip. rewrite rstrip_nonspace, lstrip_nonspace by assumption.
  reflexivity.
Qed.

Lemma strip_space_token (t : string) :
  is_token t = true -> strip (String " " t) = t.
Proof.
  intros H. apply is_token_spec in H. destruct H as [Hne Hall].
  unfold strip. cbn [rstrip]. rewrite rstrip_nonspace by assumption.
  destruct t as [|c t]; [discriminate|].
  change (lstrip (String " " (String c t))) with (lstrip (String c t)).
  apply lstrip_nonspace. assumption.
Qed.

Lemma contains_app (sep : ascii) (a b : string) :
  contains sep (a ++ b) = contains sep a || contains sep b.
Proof.
  induction a as [|x a IH]; simpl; [reflexivity|].
  rewrite IH, orb_assoc. reflexivity.
Qed.

Lemma split1_first (sep : ascii) (k v : string) :
  contains sep k = false -> split1 sep (k ++ String sep v) = (k, v).
Proof.
  induction k as [|c k IH]; intros H; simpl in *.
  - rewrite Ascii.eqb_refl. reflexivity.
  - apply orb_false_iff in H. destruct H as [Hc Hk].
    rewrite Hc, IH by assumption. reflexivity.
Qed.

Lemma split_set (rest : string) :
  split ("SET " ++ rest) = "SET" :: split_ws "" rest.
Proof. reflexivity. Qed.

(** A [SET] of two tokens whose second token splits into [k] and [v]. *)
Lemma handle_set_separator (t k v : string) (s : store) :
  is_token t = true ->
  split_payload t = Some (k, v) ->
  _handle_line written ("SET " ++ t) s = set_key_value ("SET " ++ t) k v s.
Proof.
  intros Ht Hp. unfold _handle_line.
  change (is_empty ("SET " ++ t)) with false. cbn iota.
  rewrite split_set, split_ws_token by assumption.
  change (upper "SET") with "SET".
  change (String.eqb "SET" "SET") with true. cbn iota.
  change (drop (String.length "SET") ("SET " ++ t)) with (String " " t).
  rewrite strip_space_token by assumption.
  rewrite Hp. reflexivity.
Qed.

(** A [SET] of three tokens. *)
Lemma handle_set_space (k v : string) (s : store) :
  is_token k = true -> is_token v = true ->
  _handle_line written ("SET " ++ k ++ " " ++ v) s
  = set_key_value ("SET " ++ k ++ " " ++ v) k v s.
Proof.
  intros Hk Hv. unfold _handle_line.
  change (is_empty ("SET " ++ k ++ " " ++ v)) with false. cbn iota.
  rewrite split_set, split_ws_two by assumption.
  change (upper "SET") with "SET".
  change (String.eqb "SET" "SET") with true. cbn iota.
  reflexivity.
Qed.

(** The logged line apart, the outcome of a [SET] depends on the key and
    value texts only. *)
Lemma set_key_value_store (line1 line2 k v : string) (s : store) :
  store_after (set_key_value line1 k v s)
  = store_after (set_key_value line2 k v s).
Proof.
  unfold set_key_value.
  destruct (PyParse.float_of_string (strip v)); [|reflexivity].
  destruct (update_from_hmi_set (lower (strip k)) f s) as [[s' u]|];
    [|reflexivity].
  cbn [Py.bind]. destruct u; reflexivity.
Qed.

Lemma is_token_sep (sep : ascii) (k v : string) :
  is_token k = true -> is_token v = true -> isspace sep = false ->
  is_token (k ++ String sep v) = true.
Proof.
  intros Hk Hv Hs. apply is_token_spec in Hk, Hv. apply is_token_spec.
  destruct Hk as [Hk1 Hk2], Hv as [Hv1 Hv2]. split.
  - rewrite is_empty_app, Hk1. reflexivity.
  - rewrite all_chars_app, Hk2. simpl. unfold nonspace at 1.
    rewrite Hs, Hv2. reflexivity.
Qed.

(** The separator form and the form with a space agree on the store,
    for each of the three separators in turn. *)
Lemma set_forms_agree (sep : ascii) (k v : string) (s : store) :
  is_token k = true -> is_token v = true ->
  (sep = "="%char /\ contains "=" k = false
   \/ sep = ":"%char /\ contains "=" (k ++ v) = false
      /\ contains ":" k = false
   \/ sep = ","%char /\ contains "=" (k ++ v) = false
      /\ contains ":" (k ++ v) = false /\ contains "," k = false) ->
  store_after (_handle_line written ("SET " ++ k ++ String sep v) s)
  = store_after (_handle_line written ("SET " ++ k ++ " " ++ v) s).
Proof.
  intros Hk Hv Hsep.
  assert (Hs : isspace sep = false)
    by (destruct Hsep as [[-> _] | [[-> _] | [-> _]]]; reflexivity).
  assert (Hp : split_payload (k ++ String sep v) = Some (k, v)).
  { unfold split_payload.
    destruct Hsep as [[-> H1] | [[-> [H1 H2]] | [-> [H1 [H2 H3]]]]].
    - rewrite contains_app. cbn [contains]. rewrite Ascii.eqb_refl.
      rewrite orb_true_r, split1_first by assumption. reflexivity.
    - rewrite contains_app in H1. apply orb_false_iff in H1.
      destruct H1 as [H1k H1v].
      rewrite !contains_app. cbn [contains]. rewrite H1k, H1v.
      change (Ascii.eqb ":" "=") with false. cbn [orb].
      rewrite Ascii.eqb_refl, orb_true_r, split1_first by assumption.
      reflexivity.
    - rewrite contains_app in H1, H2. apply orb_false_iff in H1, H2.
      destruct H1 as [H1k H1v], H2 as [H2k H2v].
      rewrite !contains_app. cbn [contains]. rewrite H1k, H1v, H2k, H2v.
      change (Ascii.eqb "," "=") with false.
      change (Ascii.eqb "," ":") with false. cbn [orb].
      rewrite Ascii.eqb_refl, orb_true_r, split1_first by assumption.
      reflexivity. }
  rewrite (handle_set_separator (k ++ String sep v) k v s)
    by (try apply is_token_sep; assumption).
  rewrite handle_set_space by assumption.
  apply set_key_value_store.
Qed.

End Tokens.

(** ** SET commands *)

Section SetCommand.

Import ConfigStore HMI Claimed.
Local Open Scope float_scope.

Variable written : option exn.

(** The store after offset 3 is set to [value_mm]. *)
Lemma set_off3 (value_in : float) (s : store) (o : list float) :
  list_set (offsets_mm (_config s)) 3 (in_to_mm value_in) = Some o ->
  update_from_hmi_set "off3" value_in s
  = Ok (mkStore (with_offsets_mm (_config s) o) (_version s + 1), true).
Proof.
  intros H. unfold update_from_hmi_set.
  cbn [String.eqb Ascii.eqb Bool.eqb startswith String.prefix].
  change (PyParse.int_of_string (drop 3 "off3")) with (Some 3%Z).
  cbn iota. change (Z.to_nat 3) with 3%nat.
  change ((0 <=? 3)%Z && (3 <? 8)%Z) with true. cbn iota.
  rewrite H. reflexivity.
Qed.

Lemma list_set_eight {A : Type} (l : list A) (idx : nat) (v : A) :
  (idx < List.length l)%nat ->
  exists l',
    list_set l idx v = Some l'
    /\ List.length l' = List.length l
    /\ nth_error l' idx = Some v
    /\ forall k, k <> idx -> nth_error l' k = nth_error l k.
Proof.
  revert idx. induction l as [|x l IH]; intros idx Hlt; simpl in Hlt; [lia|].
  destruct idx as [|idx]; simpl.
  - exists (v :: l). repeat split. intros [|k] Hk; [contradiction | reflexivity].
  - destruct (IH idx ltac:(lia)) as (l' & -> & Hlen & Hnth & Hother).
    exists (x :: l'). simpl. repeat split; try congruence.
    intros [|k] Hk; [reflexivity|]. simpl. apply Hother. congruence.
Qed.

(** The line of a [SET] of offset 3 to one inch, in each of its forms,
    comes down to the symbolic set of "off3" to 1.0. *)
Lemma handle_set_off3 (line : string) (s : store) :
  In line ["SET off3=1.0"; "SET off3 1.0"; "SET off3:1.0"; "SET off3,1.0"] ->
  _handle_line written line s =
  (r <- update_from_hmi_set "off3" 1.0 s ;;
   let '(s', updated) := r in
   if updated then Ok (s', [Log "INFO" ("HMI command: " ++ line)])
   else Ok (s', [Log "INFO" ("HMI command: " ++ line);
                 Log "ERROR" "Unknown SET key: off3"])).
Proof.
  intros [<- | [<- | [<- | [<- | []]]]]; reflexivity.
Qed.

(** C6: on a store with eight offsets, the lines "SET off3=1.0" and
    "SET off3 1.0" (and the forms with a colon or a comma as separator)
    all return the same store: offset 3 is 25.4, the other offsets and
    the rest of the configuration are as before, and the version is one
    higher.  More generally, for a key token and a value token, the form
    with a separator (the first of [=], [:], [,] present, the key holding
    none) returns the store that the three-token form returns. *)
Theorem set_off3_forms_agree (s : store) :
  List.length (offsets_mm (_config s)) = 8%nat ->
  (exists s',
      _handle_line written "SET off3=1.0" s
      = Ok (s', [Log "INFO" "HMI command: SET off3=1.0"])
      /\ _handle_line written "SET off3 1.0" s
         = Ok (s', [Log "INFO" "HMI command: SET off3 1.0"])
      /\ _handle_line written "SET off3:1.0" s
         = Ok (s', [Log "INFO" "HMI command: SET off3:1.0"])
      /\ _handle_line written "SET off3,1.0" s
         = Ok (s', [Log "INFO" "HMI command: SET off3,1.0"])
      /\ nth_error (offsets_mm (_config s')) 3 = Some 25.4
      /\ (forall k, k <> 3%nat ->
            nth_error (offsets_mm (_config s')) k
            = nth_error (offsets_mm (_config s)) k)
      /\ _config s' = with_offsets_mm (_config s) (offsets_mm (_config s'))
      /\ version s' = (version s + 1)%Z)
  /\ (forall sep k v,
         is_token k = true -> is_token v = true ->
         (sep = "="%char /\ contains "=" k = false
          \/ sep = ":"%char /\ contains "=" (k ++ v) = false
             /\ contains ":" k = false
          \/ sep = ","%char /\ contains "=" (k ++ v) = false
             /\ contains ":" (k ++ v) = false /\ contains "," k = false) ->
         store_after (_handle_line written ("SET " ++ k ++ String sep v) s)
         = store_after (_handle_line written ("SET " ++ k ++ " " ++ v) s)).
Proof.
  intros Hlen. split; [|intros sep k v; apply set_forms_agree].
  destruct (list_set_eight (offsets_mm (_config s)) 3 (in_to_mm 1.0)
              ltac:(lia)) as (o & Hset & _ & Hnth & Hother).
  exists (mkStore (with_offsets_mm (_config s) o) (_version s + 1)).
  pose proof (set_off3 1.0 s o Hset) as Hupd.
  repeat split; try (rewrite handle_set_off3 by (simpl; tauto);
                     rewrite Hupd; reflexivity);
    try assumption.
Qed.

End SetCommand.

Lemma set_off3_forms_agree_witness :
  exists s',
    HMI._handle_line None "SET off3=1.0"
      (ConfigStore.mkStore ConfigStore.default_config 1)
    = Ok (s', [HMI.Log "INFO" "HMI command: SET off3=1.0"])
    /\ HMI._handle_line None "SET off3 1.0"
         (ConfigStore.mkStore ConfigStore.default_config 1)
       = Ok (s', [HMI.Log "INFO" "HMI command: SET off3 1.0"])
    /\ nth_error (ConfigStore.offsets_mm (ConfigStore._config s')) 3
       = Some 25.4%float.
Proof.
  destruct (set_off3_forms_agree None
              (ConfigStore.mkStore ConfigStore.default_config 1) eq_refl)
    as [(s' & H1 & H2 & _ & _ & H3 & _) _].
  exists s'. repeat split; assumption.
Defined.

(** ** Hex extraction *)

Section Extraction.

Import Client Claimed.

Lemma hex_value_looks_hex (s v : string) :
  hex_value s = Some v -> hex_re_match v = true /\ is_empty v = false.
Proof.
  unfold hex_value. destruct (hex_re_match (strip s)) eqn:E; [|discriminate].
  intros H. injection H as <-. split; [assumption|].
  destruct (strip s); [discriminate E | reflexivity].
Qed.

Lemma key_search_first (keys : list string) (d : list (string * json)) :
  key_search keys d = first_some (map (key_hit d) keys).
Proof.
  induction keys as [|k keys IH]; [reflexivity|].
  cbn [key_search map first_some]. unfold key_hit at 1.
  destruct (dict_get d k) as [[| | | |s| |]|]; try exact IH.
  destruct (hex_value s); [reflexivity | exact IH].
Qed.

Lemma first_some_in {A : Type} (l : list (option A)) (v : A) :
  first_some l = Some v -> In (Some v) l.
Proof.
  induction l as [|[x|] l IH]; simpl; intros H.
  - discriminate.
  - left. assumption.
  - right. apply IH. assumption.
Qed.

Lemma key_search_looks_hex (d : list (string * json)) (v : string) :
  key_search KEYS d = Some v -> hex_re_match v = true /\ is_empty v = false.
Proof.
  rewrite key_search_first. intros H.
  apply first_some_in in H. apply in_map_iff in H.
  destruct H as (k & Hk & _). unfold key_hit in Hk.
  destruct (dict_get d k) as [[| | | |s| |]|]; try discriminate.
  exact (hex_value_looks_hex s v Hk).
Qed.

(** A scan finds what one of its attempts found. *)
Lemma scan_found (extract : json -> res (option string)) (items : list json)
  (v : string) :
  scan extract items = Ok (Some v) ->
  exists item, In item items /\ extract item = Ok (Some v).
Proof.
  induction items as [|x items IH]; cbn [scan]; intros H; [discriminate|].
  destruct (extract x) as [found|e] eqn:Ex; cbn [Py.bind] in H;
    [|discriminate].
  destruct (truthy found) eqn:Et.
  - injection H as ->. exists x. split; [left; reflexivity | assumption].
  - destruct (IH H) as (item & Hin & Hitem).
    exists item. split; [right|]; assumption.
Qed.

(** What [_extract_hex] returns looks like hex, and so is not empty. *)
Lemma extract_hex_sound (limit : nat) :
  forall payload v,
    _extract_hex limit payload = Ok (Some v) ->
    hex_re_match v = true /\ is_empty v = false.
Proof.
  induction limit as [|limit IH]; intros payload v H; [discriminate|].
  cbn [_extract_hex] in H.
  destruct payload as [| | | |s|l|d]; try discriminate.
  - injection H as H. exact (hex_value_looks_hex s v H).
  - destruct (scan_found _ _ _ H) as (item & _ & Hitem).
    exact (IH item v Hitem).
  - destruct (key_search KEYS d) as [w|] eqn:Ek.
    + injection H as <-. exact (key_search_looks_hex d w Ek).
    + destruct (scan_found _ _ _ H) as (item & _ & Hitem).
      exact (IH item v Hitem).
Qed.

Lemma truthy_sound (limit : nat) (payload : json) (found : option string) :
  _extract_hex limit payload = Ok found ->
  truthy found = match found with Some _ => true | None => false end.
Proof.
  destruct found as [v|]; [|reflexivity]. intros H.
  destruct (extract_hex_sound limit payload v H) as [_ Hne].
  unfold truthy. rewrite Hne. reflexivity.
Qed.

Lemma scan_first (limit : nat) (items : list json) :
  scan (_extract_hex limit) items
  = first_result (map (_extract_hex limit) items).
Proof.
  induction items as [|x items IH]; [reflexivity|].
  cbn [scan map first_result].
  destruct (_extract_hex limit x) as [found|e] eqn:Ex; [|reflexivity].
  cbn [Py.bind]. rewrite (truthy_sound limit x found Ex).
  destruct found; [reflexivity | exact IH].
Qed.

Lemma list_max_bound (l : list nat) (n : nat) :
  In n l -> (n <= list_max l)%nat.
Proof.
  induction l as [|x l IH]; simpl; intros H; [contradiction|].
  destruct H as [-> | H]; [lia|]. specialize (IH H). lia.
Qed.

(** A scan of items the limit allows is the first result there is. *)
Lemma scan_within (limit : nat) (items : list json) :
  (forall item, In item items ->
                _extract_hex limit item = Ok (first_hex item)) ->
  scan (_extract_hex limit) items = Ok (first_some (map first_hex items)).
Proof.
  induction items as [|x items IH]; intros H; [reflexivity|].
  cbn [scan map first_some].
  pose proof (H x (or_introl eq_refl)) as Hx. rewrite Hx. cbn [Py.bind].
  rewrite (truthy_sound limit x _ Hx).
  destruct (first_hex x); [reflexivity|].
  apply IH. intros item Hin. apply H. right. assumption.
Qed.

(** Below the limit the method returns what the search finds. *)
Lemma extract_hex_within (limit : nat) :
  forall payload,
    (depth payload < limit)%nat ->
    _extract_hex limit payload = Ok (first_hex payload).
Proof.
  induction limit as [|limit IH]; intros payload Hd; [lia|].
  cbn [_extract_hex].
  destruct payload as [| | | |s|l|d]; try reflexivity.
  - cbn [first_hex]. apply scan_within. intros item Hin. apply IH.
    cbn [depth] in Hd.
    pose proof (list_max_bound (map depth l) (depth item)
                  (in_map depth l item Hin)). lia.
  - cbn [first_hex]. rewrite key_search_first.
    destruct (first_some (map (key_hit d) KEYS)); [reflexivity|].
    rewrite <- (map_map snd first_hex).
    apply scan_within. intros item Hin. apply IH.
    cbn [depth] in Hd. rewrite <- (map_map snd depth) in Hd.
    pose proof (list_max_bound (map depth (map snd d)) (depth item)
                  (in_map depth (map snd d) item Hin)). lia.
Qed.

Lemma first_hex_nest (n : nat) (payload : json) :
  first_hex (nest n payload) = first_hex payload.
Proof.
  induction n as [|n IH]; [reflexivity|].
  cbn [nest first_hex map first_some]. rewrite IH.
  destruct (first_hex payload); reflexivity.
Qed.

Lemma depth_nest (n : nat) (s : string) : depth (nest n (JStr s)) = n.
Proof.
  induction n as [|n IH]; [reflexivity|].
  change (depth (nest (S n) (JStr s)))
    with (S (Nat.max (depth (nest n (JStr s))) 0)).
  rewrite IH. lia.
Qed.

(** A string under as many lists as the limit, or more, is not reached. *)
Lemma extract_hex_beyond (limit : nat) :
  forall n s,
    (limit <= n)%nat ->
    _extract_hex limit (nest n (JStr s)) = Raise RecursionError.
Proof.
  induction limit as [|limit IH]; intros n s Hn; [reflexivity|].
  destruct n as [|n]; [lia|].
  cbn [nest _extract_hex scan]. rewrite IH by lia. reflexivity.
Qed.

(** C9, as stated, fails on the order of the keys: for a dict that holds
    "AA" under "pdin" and "BB" under "pDIN" the code returns "BB", the
    order listed in the statement gives "AA". *)
Lemma key_order_counterexample :
  _extract_hex 1000 (JDict [("pdin", JStr "AA"); ("pDIN", JStr "BB")])
  = Ok (Some "BB")
  /\ first_some
       (map (key_hit [("pdin", JStr "AA"); ("pDIN", JStr "BB")]) listed_keys)
     = Some "AA"
  /\ _extract_hex 1000 (JDict [("pdin", JStr "AA"); ("pDIN", JStr "BB")])
     <> Ok (first_some
              (map (key_hit [("pdin", JStr "AA"); ("pDIN", JStr "BB")])
                 listed_keys)).
Proof.
  split; [reflexivity|]. split; [reflexivity|]. discriminate.
Qed.

(** C9, amended: for a dict, the extraction returns the hex-looking
    string (stripped) held under the first of the keys "data", "value",
    "pDIN", "pdin", "hex", in this order, that holds one; when none does,
    the first result of extracting from its values in order, recursively;
    for a list, the first result of extracting from its elements in
    order; for a string, the string itself when it looks like hex.  Every
    result looks like hex.  The depth of the recursion is bounded by the
    recursion limit of the interpreter: a payload nested less deep than
    the limit allows gives the first hex-looking string of that search,
    and a string under as many lists as the limit or more is not reached,
    the call raising RecursionError. *)
Theorem extract_hex_search_order :
  KEYS = ["data"; "value"; "pDIN"; "pdin"; "hex"]
  /\ (forall limit d,
         _extract_hex (S limit) (JDict d) =
         match first_some (map (key_hit d) KEYS) with
         | Some value => Ok (Some value)
         | None => first_result (map (_extract_hex limit) (map snd d))
         end)
  /\ (forall limit l,
         _extract_hex (S limit) (JList l)
         = first_result (map (_extract_hex limit) l))
  /\ (forall limit s, _extract_hex (S limit) (JStr s) = Ok (hex_value s))
  /\ (forall limit payload v,
         _extract_hex limit payload = Ok (Some v) -> hex_re_match v = true)
  /\ (forall limit payload,
         (depth payload < limit)%nat ->
         _extract_hex limit payload = Ok (first_hex payload))
  /\ (forall limit n s,
         (limit <= n)%nat ->
         _extract_hex limit (nest n (JStr s)) = Raise RecursionError).
Proof.
  split; [reflexivity|]. split.
  { intros limit d. cbn [_extract_hex].
    rewrite key_search_first, scan_first. reflexivity. }
  split; [intros limit l; cbn [_extract_hex]; apply scan_first|].
  split; [reflexivity|]. split.
  { intros limit payload v H. apply (extract_hex_sound limit payload v H). }
  split; [exact extract_hex_within | exact extract_hex_beyond].
Qed.

Lemma extract_hex_search_order_witness :
  _extract_hex 1000 (nest 40 (JStr " 0x1A2b ")) = Ok (Some "0x1A2b")
  /\ _extract_hex 40 (nest 40 (JStr " 0x1A2b ")) = Raise RecursionError
  /\ hex_re_match "0x1A2b" = true.
Proof.
  destruct extract_hex_search_order
    as (_ & _ & _ & _ & Hsound & Hwithin & Hbeyond).
  split.
  { rewrite Hwithin by (rewrite depth_nest; repeat constructor).
    rewrite first_hex_nest. reflexivity. }
  split; [apply Hbeyond; constructor|].
  apply (Hsound 1%nat (JStr "0x1A2b")). reflexivity.
Defined.

End Extraction.

(** * Further properties of the code *)

(** ** Frames on the wire *)

Section Wire.

Import HMI.

Lemma firstn_cap_app {A : Type} (n : nat) (l1 l2 : list A) :
  (n <= List.length l1)%nat -> firstn n (l1 ++ l2) = firstn n l1.
Proof.
  intros H. rewrite firstn_app.
  replace (n - List.length l1)%nat with 0%nat by lia.
  simpl. apply app_nil_r.
Qed.

(** Bytes other than the terminator fill the accumulator up to its cap
    and dispatch nothing. *)
Lemma feed_fill (payload : list Z) :
  forall buf c,
    Forall (fun b => b <> 255) payload ->
    (List.length buf <= 256)%nat ->
    feed (mkAssembler buf c) payload
    = (mkAssembler (firstn 256 (buf ++ payload))
         (match payload with [] => c | _ :: _ => 0 end), []).
Proof.
  induction payload as [|b rest IH]; intros buf c Hp Hlen.
  - cbn [feed]. rewrite app_nil_r, firstn_all2 by lia. reflexivity.
  - inversion Hp as [|? ? Hb Hrest]; subst.
    cbn [feed]. rewrite (feed_byte_other _ b Hb). cbn [_buf].
    unfold BUF_CAP.
    destruct (Nat.ltb_spec (List.length buf) 256) as [Hlt | Hge].
    + rewrite IH; [|assumption|rewrite length_app; simpl; lia].
      rewrite <- app_assoc. simpl.
      destruct rest; reflexivity.
    + rewrite IH by assumption.
      rewrite !firstn_cap_app by lia.
      destruct rest; reflexivity.
Qed.

Lemma feed_terminators (buf : list Z) :
  feed (mkAssembler buf 0) [255; 255; 255] = (empty_assembler, [buf]).
Proof. reflexivity. Qed.

Lemma feed_frame (payload : list Z) :
  Forall (fun b => b <> 255) payload ->
  feed empty_assembler (payload ++ [255; 255; 255])
  = (empty_assembler, [firstn 256 payload]).
Proof.
  intros Hp. rewrite feed_app.
  unfold empty_assembler. rewrite feed_fill by (simpl; auto; lia).
  simpl app at 1.
  destruct payload as [|b rest].
  - reflexivity.
  - cbv match. rewrite feed_terminators. reflexivity.
Qed.

Lemma encode_ascii_clean (cmd : string) :
  Forall (fun b => b <> 255) (encode_ascii cmd).
Proof.
  unfold encode_ascii. apply Forall_forall. intros b Hb.
  apply filter_In in Hb. destruct Hb as [_ Hb].
  apply Z.ltb_lt in Hb. lia.
Qed.

(** X1: commands written one after the other by [send_command] come out of
    the frame assembler one frame each, in order: each frame is the ASCII
    text of its command, cut to its first 256 bytes, and the assembler is
    back to empty after the last. *)
Theorem sent_commands_reassemble (cmds : list string) :
  feed empty_assembler (List.concat (map send_command cmds))
  = (empty_assembler, map (fun cmd => firstn 256 (encode_ascii cmd)) cmds)
  /\ (Forall (fun cmd => (String.length cmd <= 256)%nat) cmds ->
      feed empty_assembler (List.concat (map send_command cmds))
      = (empty_assembler, map encode_ascii cmds)).
Proof.
  assert (H : feed empty_assembler (List.concat (map send_command cmds))
              = (empty_assembler,
                 map (fun cmd => firstn 256 (encode_ascii cmd)) cmds)).
  { induction cmds as [|cmd cmds IH]; [reflexivity|].
    cbn [map List.concat]. rewrite feed_app.
    unfold send_command at 1. unfold TERMINATOR.
    rewrite feed_frame by apply encode_ascii_clean.
    rewrite IH. reflexivity. }
  split; [exact H|].
  intros Hlen. rewrite H. f_equal.
  apply map_ext_in. intros cmd Hin.
  rewrite Forall_forall in Hlen. specialize (Hlen cmd Hin).
  apply firstn_all2. unfold encode_ascii, bytes_of.
  etransitivity; [apply filter_length_le|].
  rewrite length_map.
  clear - Hlen. revert Hlen. generalize 256%nat.
  induction cmd as [|c cmd IH]; intros n Hn; simpl in *; [lia|].
  destruct n; [lia|]. apply le_n_S. apply IH. lia.
Qed.

Lemma sent_commands_reassemble_witness :
  feed empty_assembler
    (List.concat (map send_command ["page op"; "sendme"]))
  = (empty_assembler, [bytes_of "page op"; bytes_of "sendme"]).
Proof.
  apply (proj2 (sent_commands_reassemble ["page op"; "sendme"])).
  repeat constructor; simpl; lia.
Defined.

Lemma feed_byte_invariant (st : assembler) (byte : Z) :
  (List.length (_buf st) <= 256)%nat ->
  0 <= _ff_count st < 3 ->
  Forall (fun b => b <> 255) (_buf st) ->
  let '(st', out) := feed_byte st byte in
  (List.length (_buf st') <= 256)%nat
  /\ 0 <= _ff_count st' < 3
  /\ Forall (fun b => b <> 255) (_buf st')
  /\ match out with
     | Some frame => (List.length frame <= 256)%nat
                     /\ Forall (fun b => b <> 255) frame
     | None => True
     end.
Proof.
  intros Hlen Hc Hclean. unfold feed_byte, TERMINATOR, BUF_CAP.
  destruct (Z.eqb_spec byte 255) as [-> | Hb].
  - destruct (Z.leb_spec 3 (_ff_count st + 1)); cbn [_buf _ff_count].
    + repeat split; auto; simpl; lia.
    + repeat split; auto; lia.
  - cbn [_buf _ff_count].
    destruct (Nat.ltb_spec (List.length (_buf st)) 256).
    + repeat split; try lia.
      * rewrite length_app. simpl. lia.
      * apply Forall_app. split; [assumption | constructor; auto].
    + repeat split; auto; lia.
Qed.

(** X2: the frame assembler keeps its accumulator within 256 bytes and free
    of terminator bytes, and its terminator count below three; every
    frame it dispatches is likewise at most 256 bytes long and holds no
    terminator byte. *)
Theorem assembler_invariant (st : assembler) (data : list Z) :
  (List.length (_buf st) <= 256)%nat ->
  0 <= _ff_count st < 3 ->
  Forall (fun b => b <> 255) (_buf st) ->
  let '(st', frames) := feed st data in
  (List.length (_buf st') <= 256)%nat
  /\ 0 <= _ff_count st' < 3
  /\ Forall (fun b => b <> 255) (_buf st')
  /\ Forall (fun frame => (List.length frame <= 256)%nat
                          /\ Forall (fun b => b <> 255) frame) frames.
Proof.
  revert st. induction data as [|byte rest IH]; intros st Hlen Hc Hclean.
  - cbn [feed]. auto.
  - cbn [feed].
    pose proof (feed_byte_invariant st byte Hlen Hc Hclean) as Hstep.
    destruct (feed_byte st byte) as [st1 out].
    destruct Hstep as (H1 & H2 & H3 & H4).
    specialize (IH st1 H1 H2 H3).
    destruct (feed st1 rest) as [st2 frames].
    destruct IH as (I1 & I2 & I3 & I4).
    repeat split; try assumption; try lia.
    destruct out; [constructor|]; assumption.
Qed.

Lemma assembler_invariant_witness :
  let '(st', frames) :=
    feed empty_assembler [83; 255; 255; 69; 255; 255; 255; 84; 255] in
  (List.length (_buf st') <= 256)%nat
  /\ 0 <= _ff_count st' < 3
  /\ Forall (fun b => b <> 255) (_buf st')
  /\ Forall (fun frame => (List.length frame <= 256)%nat
                          /\ Forall (fun b => b <> 255) frame) frames.
Proof.
  apply (assembler_invariant empty_assembler
           [83; 255; 255; 69; 255; 255; 255; 84; 255]);
    simpl; auto; lia.
Defined.

End Wire.

(** ** Symbolic sets and command lines *)

Section Commands.

Import ConfigStore HMI Claimed Further.
Local Open Scope float_scope.

Lemma list_set_app_r {A : Type} (pre l : list A) (idx : nat) (v : A) :
  list_set (pre ++ l) (List.length pre + idx) v
  = match list_set l idx v with
    | Some l' => Some (pre ++ l')%list
    | None => None
    end.
Proof.
  induction pre as [|x pre IH]; simpl.
  - destruct (list_set l idx v); reflexivity.
  - destruct l as [|y l].
    + rewrite app_nil_r in *.
      destruct pre; simpl in *; [reflexivity|].
      rewrite IH. reflexivity.
    + rewrite IH. destruct (list_set (y :: l) idx v); reflexivity.
Qed.

Lemma hmi_set_one_slot
  (key : string) (value_in : float) (s s' : store) :
  update_from_hmi_set key value_in s = Ok (s', true) ->
  (exists i,
      list_set (slots (_config s)) i (in_to_mm value_in)
      = Some (slots (_config s')))
  /\ frame_of (_config s') = frame_of (_config s)
  /\ List.length (offsets_mm (_config s'))
     = List.length (offsets_mm (_config s))
  /\ version s' = (version s + 1)%Z.
Proof.
  unfold update_from_hmi_set. intros H.
  destruct s as [[ip poll tmo cap h [a b c d e f g hh i] offs chans] ver].
  cbn [_config _version targets offsets_mm] in H.
  repeat match type of H with
         | (if String.eqb key ?k then _ else _) = _ =>
             destruct (String.eqb key k)
         end;
    try (injection H as <-;
         split; [|repeat split];
         match goal with
         | |- exists _, _ =>
             first [ exists 0%nat; reflexivity | exists 1%nat; reflexivity
                   | exists 2%nat; reflexivity | exists 3%nat; reflexivity
                   | exists 4%nat; reflexivity | exists 5%nat; reflexivity
                   | exists 6%nat; reflexivity | exists 7%nat; reflexivity
                   | exists 8%nat; reflexivity ]
         end).
  destruct (startswith "off" key); [|discriminate].
  destruct (PyParse.int_of_string (drop 3 key)) as [idx|]; [|discriminate].
  destruct ((0 <=? idx)%Z && (idx <? 8)%Z); [|discriminate].
  destruct (list_set offs (Z.to_nat idx) (in_to_mm value_in)) as [o|] eqn:Eo;
    [|discriminate].
  injection H as <-.
  split; [|repeat split].
  - exists (9 + Z.to_nat idx)%nat. unfold slots.
    cbn [_config targets offsets_mm with_offsets_mm target_slots].
    change (9 + Z.to_nat idx)%nat
      with (List.length [a; b; c; d; e; f; g; hh; i] + Z.to_nat idx)%nat.
    rewrite list_set_app_r, Eo. reflexivity.
  - cbn [_config offsets_mm with_offsets_mm].
    clear - Eo. revert o Eo. generalize (Z.to_nat idx).
    induction offs as [|x offs IH]; intros n o Eo; simpl in Eo;
      [discriminate|].
    destruct n; [injection Eo as <-; reflexivity|].
    destruct (list_set offs n (in_to_mm value_in)) as [o'|] eqn:E;
      [|discriminate].
    injection Eo as <-. simpl. f_equal. eapply IH. eassumption.
Qed.

(** X3: a symbolic set that succeeds overwrites exactly one of the seventeen
    numbers (nine targets, eight offsets) with the value times 25.4,
    leaves the sixteen others and the rest of the configuration as they
    were, and raises the version by one. *)
Theorem symbolic_set_writes_one_slot
  (key : string) (value_in : float) (s s' : store) :
  update_from_hmi_set key value_in s = Ok (s', true) ->
  (exists i,
      list_set (slots (_config s)) i (in_to_mm value_in)
      = Some (slots (_config s')))
  /\ frame_of (_config s') = frame_of (_config s)
  /\ List.length (offsets_mm (_config s'))
     = List.length (offsets_mm (_config s))
  /\ version s' = (version s + 1)%Z.
Proof.
  exact (hmi_set_one_slot key value_in s s').
Qed.

Lemma symbolic_set_writes_one_slot_witness :
  let s' :=
    mkStore
      (with_targets default_config
         (setattr_target default_targets "end1_max" (in_to_mm 0.002))) 2 in
  (exists i,
      list_set (slots default_config) i (in_to_mm 0.002)
      = Some (slots (_config s')))
  /\ version s' = 2%Z.
Proof.
  intros s'.
  destruct (symbolic_set_writes_one_slot "e1max" 0.002
              (mkStore default_config 1) s' eq_refl) as (H1 & _ & _ & H4).
  split; assumption.
Defined.







End Commands.

(** ** The receive loop *)

Section Receive.

Import ConfigStore HMI Claimed Further.

(** The receive loop is the frame assembler followed by the handling of
    the frames it dispatched, in order. *)
Lemma receive_feed (decode : list Z -> string) (data : list Z) :
  forall writes st s,
    receive decode writes st s data =
    (r <- process_all decode writes (snd (feed st data)) s ;;
     Ok (fst (feed st data), fst r, snd r)).
Proof.
  induction data as [|byte rest IH]; intros writes st s; [reflexivity|].
  cbn [receive feed].
  destruct (feed_byte st byte) as [st1 [frame|]].
  - destruct (feed st1 rest) as [st2 frames] eqn:Ef. cbn [fst snd process_all].
    destruct (_process_frame decode (writes O) frame s) as [[s1 e1]|e];
      [|reflexivity].
    cbn [Py.bind]. rewrite IH, Ef. cbn [fst snd].
    destruct (process_all decode (fun k => writes (S k)) frames s1)
      as [[s2 e2]|e]; reflexivity.
  - rewrite IH. destruct (feed st1 rest) as [st2 frames]. reflexivity.
Qed.





Lemma chr_ord (c : ascii) : chr (ord c) = c.
Proof.
  unfold chr, ord. rewrite N2Z.id. apply ascii_N_embedding.
Qed.

Lemma text_of_bytes_of (s : string) : text_of (bytes_of s) = s.
Proof.
  unfold text_of, bytes_of. rewrite map_map.
  rewrite (map_ext _ (fun c => c)) by apply chr_ord.
  rewrite map_id. apply string_of_list_ascii_of_string.
Qed.

Lemma encode_ascii_text (s : string) :
  is_ascii_text s = true ->
  encode_ascii s = bytes_of s
  /\ Forall (fun b => 0 <= b < 128) (bytes_of s).
Proof.
  unfold encode_ascii, bytes_of, is_ascii_text.
  induction s as [|c s IH]; intros H; simpl in *.
  - split; [reflexivity | constructor].
  - apply andb_true_iff in H. destruct H as [Hc Hs].
    destruct (IH Hs) as [IH1 IH2]. rewrite Hc, IH1.
    split; [reflexivity|]. constructor; [|assumption].
    apply Z.ltb_lt in Hc. unfold ord in *. lia.
Qed.

Lemma bytes_of_length (s : string) :
  List.length (bytes_of s) = String.length s.
Proof.
  unfold bytes_of. rewrite length_map.
  induction s as [|c s IH]; simpl; [reflexivity | f_equal; exact IH].
Qed.

Variable decode : list Z -> string.

Hypothesis decode_ascii :
  forall data, Forall (fun b => 0 <= b < 128) data -> decode data = text_of data.

(** X6: a command line written by [send_command] and read back by the
    receive loop is handled as that line, stripped: for a line of at most
    256 ASCII characters whose first character is printable and not [p],
    receiving the bytes sent does what [_handle_line] does on the line and
    leaves the assembler empty.  The decoder only has to read ASCII bytes
    as their characters. *)
Theorem sent_line_is_handled
  (writes : nat -> option exn) (c : ascii) (rest : string) (s : store) :
  let line := String c rest in
  is_ascii_text line = true ->
  (String.length line <= 256)%nat ->
  32 <= ord c <= 126 ->
  ord c <> 112 ->
  receive decode writes empty_assembler s (send_command line) =
  (r <- _handle_line (writes O) (strip line) s ;;
   Ok (empty_assembler, fst r, snd r)).
Proof.
  intros line Hascii Hlen Hprint Hp.
  destruct (encode_ascii_text line Hascii) as [Henc Hbytes].
  rewrite receive_feed. unfold send_command, TERMINATOR. rewrite Henc.
  rewrite feed_frame
    by (eapply Forall_impl; [|exact Hbytes]; simpl; intros; lia).
  rewrite firstn_all2 by (rewrite bytes_of_length; exact Hlen).
  cbn [fst snd process_all].
  assert (Hframe : _process_frame decode (writes O) (bytes_of line) s
                   = _handle_line (writes O) (strip line) s).
  { rewrite <- (text_of_bytes_of line) at 2.
    rewrite <- (decode_ascii _ Hbytes).
    unfold line at 1, bytes_of at 1. cbn [list_ascii_of_string map].
    unfold _process_frame.
    destruct (Z.eqb_spec (ord c) 112) as [E | _]; [contradiction|].
    destruct (Z.leb_spec 32 (ord c)); [|lia].
    destruct (Z.leb_spec (ord c) 126); [|lia].
    reflexivity. }
  rewrite Hframe.
  destruct (_handle_line (writes O) (strip line) s) as [[s1 e1]|e];
    [|reflexivity].
  cbn [Py.bind fst snd]. rewrite app_nil_r. reflexivity.
Qed.

End Receive.

Lemma sent_line_is_handled_witness :
  HMI.receive Further.text_of (fun _ => None) HMI.empty_assembler
    (ConfigStore.mkStore ConfigStore.default_config 1)
    (HMI.send_command "SET off3=1.0") =
  (r <- HMI._handle_line None (strip "SET off3=1.0")
          (ConfigStore.mkStore ConfigStore.default_config 1) ;;
   Ok (HMI.empty_assembler, fst r, snd r)).
Proof.
  apply (sent_line_is_handled Further.text_of (fun data _ => eq_refl)
           (fun _ => None) "S" "ET off3=1.0");
    [reflexivity | simpl; lia | change (ord "S") with 83; lia
    | change (ord "S") with 83; lia].
Defined.

(** ** Bytes and integers *)

Section Bytes.

Import Conversion Claimed Further.

Lemma be_fold (bs : list Z) :
  forall acc,
    fold_left (fun acc b => acc * 256 + b) bs acc
    = acc * 256 ^ Z.of_nat (List.length bs) + be_value bs.
Proof.
  unfold be_value.
  induction bs as [|b bs IH]; intros acc.
  - simpl. lia.
  - cbn [fold_left List.length]. rewrite IH, (IH (0 * 256 + b)).
    rewrite Nat2Z.inj_succ, Z.pow_succ_r by lia. ring.
Qed.

Lemma be_value_cons (b : Z) (bs : list Z) :
  be_value (b :: bs) = b * 256 ^ Z.of_nat (List.length bs) + be_value bs.
Proof. unfold be_value at 1. cbn [fold_left]. rewrite be_fold. ring. Qed.

Lemma be_value_range (bs : list Z) :
  Forall (fun b => 0 <= b < 256) bs ->
  0 <= be_value bs < 256 ^ Z.of_nat (List.length bs).
Proof.
  induction 1 as [|b bs Hb _ IH].
  - unfold be_value. simpl. lia.
  - rewrite be_value_cons. cbn [List.length].
    rewrite Nat2Z.inj_succ, Z.pow_succ_r by lia.
    assert (0 < 256 ^ Z.of_nat (List.length bs)) by (apply Z.pow_pos_nonneg; lia).
    nia.
Qed.

Lemma pow256 (n : Z) : 0 <= n -> 256 ^ n = 2 ^ (8 * n).
Proof.
  intros H. change 256 with (2 ^ 8). rewrite <- Z.pow_mul_r by lia.
  reflexivity.
Qed.

(** The top bit of a number of [k + 1] bits is set exactly when the
    number is at least [2 ^ k]. *)
Lemma top_bit (u k : Z) :
  0 <= k -> 0 <= u < 2 ^ (k + 1) ->
  (Z.testbit u k = true <-> 2 ^ k <= u).
Proof.
  intros Hk Hu.
  assert (Hpos : 0 < 2 ^ k) by (apply Z.pow_pos_nonneg; lia).
  rewrite Z.pow_add_r, Z.pow_1_r in Hu by lia.
  rewrite Z.testbit_true by lia.
  assert (Hq : 0 <= u / 2 ^ k < 2).
  { split; [apply Z.div_pos; lia|]. apply Z.div_lt_upper_bound; lia. }
  split; intros H.
  - assert (u / 2 ^ k = 1).
    { destruct (Z.eq_dec (u / 2 ^ k) 0) as [E | E]; [|lia].
      rewrite E in H. discriminate. }
    pose proof (Z.mul_div_le u (2 ^ k) Hpos). nia.
  - assert (u / 2 ^ k = 1) as ->; [|reflexivity].
    assert (1 <= u / 2 ^ k); [|lia].
    apply Z.div_le_lower_bound; lia.
Qed.

(** [int.from_bytes] on [n] bytes: the unsigned reading lies in
    [0, 2^(8n)), the signed one in [-2^(8n-1), 2^(8n-1)) and agrees with
    the unsigned one modulo [2^(8n)]; the little-endian reading is the
    big-endian reading of the reversed bytes; and leading zero bytes do
    not change the unsigned big-endian value. *)
Theorem int_from_bytes_range (bs : list Z) (big : bool) :
  Forall (fun b => 0 <= b < 256) bs ->
  let w := 8 * Z.of_nat (List.length bs) in
  0 <= int_from_bytes bs big false < 2 ^ w
  /\ (bs <> [] ->
      - 2 ^ (w - 1) <= int_from_bytes bs big true < 2 ^ (w - 1))
  /\ int_from_bytes bs big true mod 2 ^ w = int_from_bytes bs big false
  /\ (forall signed,
         int_from_bytes bs false signed = int_from_bytes (rev bs) true signed)
  /\ int_from_bytes (0 :: bs) true false = int_from_bytes bs true false.
Proof.
  intros Hbs w.
  set (l := if big then bs else rev bs).
  assert (Hl : Forall (fun b => 0 <= b < 256) l).
  { unfold l. destruct big; [assumption|]. apply Forall_rev. assumption. }
  assert (Hlen : List.length l = List.length bs).
  { unfold l. destruct big; [reflexivity | apply length_rev]. }
  pose proof (be_value_range l Hl) as Hr.
  rewrite Hlen, pow256 in Hr by lia. fold w in Hr.
  assert (Hu : int_from_bytes bs big false = be_value l) by reflexivity.
  assert (Hs : int_from_bytes bs big true
               = if Z.testbit (be_value l) (w - 1)
                 then be_value l - 2 ^ w else be_value l) by reflexivity.
  split; [rewrite Hu; exact Hr|]. split; [|split; [|split]].
  - intros Hne. rewrite Hs.
    assert (Hw : 8 <= w).
    { unfold w. destruct bs; [contradiction|]. simpl List.length. lia. }
    assert (Hpow : 2 ^ w = 2 * 2 ^ (w - 1)).
    { replace w with (Z.succ (w - 1)) at 1 by lia.
      rewrite Z.pow_succ_r by lia. reflexivity. }
    pose proof (top_bit (be_value l) (w - 1) ltac:(lia)
                  ltac:(replace (w - 1 + 1) with w by lia; exact Hr)) as Ht.
    destruct (Z.testbit (be_value l) (w - 1)).
    + assert (2 ^ (w - 1) <= be_value l) by (apply Ht; reflexivity). lia.
    + assert (~ 2 ^ (w - 1) <= be_value l)
        by (intros H; apply Ht in H; discriminate).
      lia.
  - rewrite Hs, Hu.
    assert (0 < 2 ^ w) by (apply Z.pow_pos_nonneg; unfold w; lia).
    destruct (Z.testbit (be_value l) (w - 1)).
    + replace (be_value l - 2 ^ w) with (be_value l + (-1) * 2 ^ w) by lia.
      rewrite Z.mod_add by lia. apply Z.mod_small. exact Hr.
    + apply Z.mod_small. exact Hr.
  - intros signed. unfold int_from_bytes. rewrite length_rev. reflexivity.
  - unfold int_from_bytes. cbn [andb]. rewrite be_value_cons. lia.
Qed.

End Bytes.

(** ** Hex text *)

Section HexText.

Import Conversion Client Claimed Further.

Lemma hexval_range (c : ascii) (d : Z) :
  hexval c = Some d -> 0 <= d < 16.
Proof.
  unfold hexval, between. set (n := ord c).
  destruct (Z.leb_spec 48 n), (Z.leb_spec n 57), (Z.leb_spec 97 n),
    (Z.leb_spec n 102), (Z.leb_spec 65 n), (Z.leb_spec n 70);
    cbn [andb]; intros Hd; try discriminate; injection Hd as <-; lia.
Qed.

Lemma is_hex_digit (c : ascii) :
  is_hex c = true -> hexval c = Some (hex_digit c) /\ 0 <= hex_digit c < 16.
Proof.
  unfold is_hex, hex_digit. destruct (hexval c) as [d|] eqn:E; [|discriminate].
  intros _. split; [reflexivity | exact (hexval_range c d E)].
Qed.

Lemma is_hex_not_space (c : ascii) :
  is_hex c = true -> isspace c = false /\ is_ascii_space c = false.
Proof.
  unfold is_hex, hexval, isspace, is_ascii_space, between.
  set (n := ord c).
  destruct (Z.leb_spec 48 n), (Z.leb_spec n 57), (Z.leb_spec 97 n),
    (Z.leb_spec n 102), (Z.leb_spec 65 n), (Z.leb_spec n 70);
    cbn [andb]; try discriminate; intros _;
    repeat match goal with
           | |- context [(?a <=? ?b)] => destruct (Z.leb_spec a b); try lia
           | |- context [(?a =? ?b)] => destruct (Z.eqb_spec a b); try lia
           end; split; reflexivity.
Qed.

Lemma all_hex_nonspace (h : string) :
  all_chars is_hex h = true -> all_chars nonspace h = true.
Proof.
  induction h as [|c h IH]; simpl; [reflexivity|].
  intros H. apply andb_true_iff in H. destruct H as [Hc Hh].
  unfold nonspace at 1.
  rewrite (proj1 (is_hex_not_space c Hc)), IH by assumption. reflexivity.
Qed.

(** Pairs of hex digits read as bytes, most significant first. *)
Lemma fromhex_pairs (n : nat) :
  forall h acc,
    all_chars is_hex h = true ->
    String.length h = (2 * n)%nat ->
    exists bs,
      fromhex h = Ok bs
      /\ List.length bs = n
      /\ Forall (fun b => 0 <= b < 256) bs
      /\ fold_left (fun acc b => acc * 256 + b) bs acc
         = fold_left (fun acc c => 16 * acc + hex_digit c)
             (list_ascii_of_string h) acc.
Proof.
  induction n as [|n IH]; intros h acc Hall Hlen.
  - destruct h; [|discriminate]. exists []. repeat split; constructor.
  - destruct h as [|c1 [|c2 h]]; try (simpl in Hlen; lia).
    cbn [all_chars] in Hall.
    apply andb_true_iff in Hall. destruct Hall as [H1 Hall].
    apply andb_true_iff in Hall. destruct Hall as [H2 Hall].
    destruct (is_hex_digit c1 H1) as [E1 R1].
    destruct (is_hex_digit c2 H2) as [E2 R2].
    destruct (IH h (16 * (16 * acc + hex_digit c1) + hex_digit c2) Hall)
      as (bs & Hbs & Hl & Hr & Hv).
    { simpl in Hlen. lia. }
    exists ((16 * hex_digit c1 + hex_digit c2) :: bs).
    cbn [fromhex]. rewrite (proj2 (is_hex_not_space c1 H1)), E1, E2, Hbs.
    cbn [Py.bind]. split; [reflexivity|]. split; [simpl; congruence|].
    split; [constructor; [lia | assumption]|].
    cbn [fold_left list_ascii_of_string]. rewrite <- Hv. f_equal. ring.
Qed.

Lemma all_hex_no_prefix (h : string) :
  all_chars is_hex h = true ->
  startswith "0x" h = false /\ startswith "0X" h = false.
Proof.
  unfold startswith.
  destruct h as [|c1 [|c2 h]]; cbn [all_chars String.prefix]; intros H.
  - split; reflexivity.
  - split; destruct (ascii_dec _ c1); reflexivity.
  - apply andb_true_iff in H. destruct H as [_ H].
    apply andb_true_iff in H. destruct H as [H2 _].
    split; destruct (ascii_dec _ c1); try reflexivity;
      destruct (ascii_dec _ c2) as [<- | _]; try reflexivity; discriminate H2.
Qed.

Lemma all_hex_matches (h : string) :
  all_chars is_hex h = true -> is_empty h = false -> hex_re_match h = true.
Proof.
  intros Hall Hne. unfold hex_re_match.
  assert (H1 : hex_digits1 h = true)
    by (unfold hex_digits1; rewrite Hne, Hall; reflexivity).
  assert (Hf : hex_form h = true).
  { unfold hex_form.
    repeat match goal with
           | |- (match ?x with _ => _ end) = true => destruct x
           end;
      rewrite ?H1, ?orb_true_r; reflexivity. }
  rewrite Hf. reflexivity.
Qed.

Lemma odd_length_pad (h : string) :
  let h' := if Nat.odd (String.length h) then String "0" h else h in
  exists n, String.length h' = (2 * n)%nat
            /\ n = Nat.div2 (S (String.length h)).
Proof.
  cbv zeta.
  destruct (Nat.odd (String.length h)) eqn:E.
  - exists (Nat.div2 (S (String.length h))). split; [|reflexivity].
    cbn [String.length].
    assert (Ho : Nat.even (S (String.length h)) = true)
      by (rewrite Nat.even_succ; exact E).
    apply Nat.even_spec in Ho. destruct Ho as [k Hk]. rewrite Hk.
    rewrite Nat.div2_double. reflexivity.
  - exists (Nat.div2 (S (String.length h))). split; [|reflexivity].
    assert (He : Nat.even (String.length h) = true)
      by (rewrite <- Nat.negb_odd, E; reflexivity).
    apply Nat.even_spec in He. destruct He as [k Hk]. rewrite Hk.
    rewrite Nat.div2_succ_double. reflexivity.
Qed.

Lemma hex_digits_bytes (h : string) :
  all_chars is_hex h = true ->
  is_empty h = false ->
  exists bs,
    hex_to_bytes h = Ok bs
    /\ hex_to_bytes ("0x" ++ h) = Ok bs
    /\ hex_to_bytes ("0X" ++ h) = Ok bs
    /\ List.length bs = Nat.div2 (S (String.length h))
    /\ Forall (fun b => 0 <= b < 256) bs
    /\ be_value bs = hex_number h.
Proof.
  intros Hall Hne.
  assert (Htok : is_token h = true).
  { apply is_token_spec. split; [assumption | apply all_hex_nonspace; assumption]. }
  set (h' := if Nat.odd (String.length h) then String "0" h else h).
  assert (Hall' : all_chars is_hex h' = true).
  { unfold h'. destruct (Nat.odd _); [|assumption].
    cbn [all_chars]. rewrite Hall. reflexivity. }
  assert (Hne' : is_empty h' = false).
  { unfold h'. destruct (Nat.odd _); [reflexivity | assumption]. }
  destruct (odd_length_pad h) as (n & Hn & Hdiv). fold h' in Hn.
  destruct (fromhex_pairs n h' 0 Hall' Hn) as (bs & Hbs & Hl & Hr & Hv).
  assert (Hcore : (if negb (hex_re_match h')
                   then Raise (ConversionError ("Invalid hex string: " ++ h))
                   else fromhex h') = Ok bs).
  { rewrite (all_hex_matches h' Hall' Hne'). exact Hbs. }
  exists bs.
  assert (Hplain : hex_to_bytes h = Ok bs).
  { unfold hex_to_bytes. rewrite (strip_token h Htok).
    destruct (all_hex_no_prefix h Hall) as [-> ->]. cbn [orb].
    fold h'. exact Hcore. }
  assert (Hpre : forall x : ascii,
             isspace x = false ->
             (startswith "0x" (String "0" (String x h))
              || startswith "0X" (String "0" (String x h))) = true ->
             hex_to_bytes (String "0" (String x h)) = Ok bs).
  { intros x Hx Hstart. unfold hex_to_bytes.
    assert (Ht : is_token (String "0" (String x h)) = true).
    { apply is_token_spec. split; [reflexivity|].
      cbn [all_chars]. unfold nonspace at 1 2. rewrite Hx.
      apply is_token_spec in Htok. rewrite (proj2 Htok). reflexivity. }
    rewrite (strip_token _ Ht), Hstart.
    change (drop 2 (String "0" (String x h))) with h. fold h'.
    rewrite (all_hex_matches h' Hall' Hne'). exact Hbs. }
  split; [exact Hplain|].
  split; [apply (Hpre "x"%char); [reflexivity | destruct h; reflexivity]|].
  split; [apply (Hpre "X"%char); [reflexivity | destruct h; reflexivity]|].
  split; [congruence|]. split; [assumption|].
  unfold be_value. rewrite Hv. unfold h'.
  destruct (Nat.odd _); reflexivity.
Qed.

(** X7: a text of one or more hex digits, whatever their case, converts to
    the bytes of the number it writes: half as many bytes as digits,
    rounded up, each in 0..255, most significant first; and the prefix
    [0x] or [0X] may be there or not. *)
Theorem hex_to_bytes_digits (h : string) :
  all_chars is_hex h = true ->
  is_empty h = false ->
  exists bs,
    hex_to_bytes h = Ok bs
    /\ hex_to_bytes ("0x" ++ h) = Ok bs
    /\ hex_to_bytes ("0X" ++ h) = Ok bs
    /\ List.length bs = Nat.div2 (S (String.length h))
    /\ Forall (fun b => 0 <= b < 256) bs
    /\ be_value bs = hex_number h.
Proof.
  exact (hex_digits_bytes h).
Qed.

Lemma hex_to_bytes_digits_witness :
  exists bs,
    hex_to_bytes "abc" = Ok bs
    /\ hex_to_bytes "0xabc" = Ok bs
    /\ List.length bs = 2%nat
    /\ be_value bs = 2748.
Proof.
  destruct (hex_to_bytes_digits "abc" eq_refl eq_refl)
    as (bs & H1 & H2 & _ & H4 & _ & H6).
  exists bs. repeat split; assumption.
Defined.

End HexText.

(** ** From the response of the hub to bytes *)

Section ClientHex.

Import Conversion Client Claimed Further.

Lemma chop_newline_ends (t r : string) :
  chop_newline t = Some r -> ends_space t = true.
Proof.
  revert r. induction t as [|c t IH]; intros r H; [discriminate|].
  destruct t as [|d t'].
  - cbn [chop_newline] in H. cbn [ends_space].
    destruct (Z.eqb_spec (ord c) 10) as [E | _]; [|discriminate].
    unfold isspace, between. rewrite E. reflexivity.
  - change (chop_newline (String c (String d t')))
      with (match chop_newline (String d t') with
            | Some r0 => Some (String c r0)
            | None => None
            end) in H.
    change (ends_space (String c (String d t')))
      with (ends_space (String d t')).
    destruct (chop_newline (String d t')) as [r0|]; [|discriminate].
    eapply IH. reflexivity.
Qed.

Lemma rstrip_ends (s : string) : ends_space (rstrip s) = false.
Proof.
  induction s as [|c s IH]; [reflexivity|].
  cbn [rstrip]. destruct (rstrip s) as [|d r].
  - destruct (isspace c) eqn:E; [reflexivity|]. cbn [ends_space]. exact E.
  - exact IH.
Qed.

Lemma lstrip_ends (t : string) :
  ends_space t = false -> ends_space (lstrip t) = false.
Proof.
  induction t as [|c t IH]; intros H; [reflexivity|].
  cbn [lstrip]. destruct (isspace c); [|exact H].
  apply IH. destruct t; [reflexivity | exact H].
Qed.

Lemma hex_value_form (s v : string) :
  hex_value s = Some v -> hex_form v = true.
Proof.
  unfold hex_value, hex_re_match. intros H.
  destruct (hex_form (strip s)) eqn:Ef.
  - injection H as <-. exact Ef.
  - cbn [orb] in H.
    destruct (chop_newline (strip s)) as [r|] eqn:Ec; [|discriminate].
    apply chop_newline_ends in Ec.
    unfold strip in Ec.
    rewrite (lstrip_ends _ (rstrip_ends s)) in Ec. discriminate.
Qed.

Lemma hex_form_cases (v : string) :
  hex_form v = true ->
  (exists r, v = "0x" ++ r /\ hex_digits1 r = true) \/ hex_digits1 v = true.
Proof.
  unfold hex_form.
  repeat match goal with
         | |- (match ?x with _ => _ end) = true -> _ => destruct x
         end;
    intros H; try (right; exact H).
  apply orb_true_iff in H. destruct H as [H | H]; [left | right; exact H].
  eexists. split; [reflexivity | exact H].
Qed.

(** Every result of the extraction is the hex value of some string of
    the payload. *)
Lemma extract_hex_origin (limit : nat) :
  forall payload v,
    _extract_hex limit payload = Ok (Some v) ->
    exists s, hex_value s = Some v.
Proof.
  induction limit as [|limit IH]; intros payload v H; [discriminate|].
  cbn [_extract_hex] in H.
  destruct payload as [| | | |s|l|d]; try discriminate.
  - injection H as H. exists s. exact H.
  - destruct (scan_found _ _ _ H) as (item & _ & Hitem).
    exact (IH item v Hitem).
  - destruct (key_search KEYS d) as [w|] eqn:Ek.
    + injection H as <-. rewrite key_search_first in Ek.
      apply first_some_in in Ek. apply in_map_iff in Ek.
      destruct Ek as (k & Hk & _). unfold key_hit in Hk.
      destruct (dict_get d k) as [[| | | |s| |]|]; try discriminate.
      exists s. exact Hk.
    + destruct (scan_found _ _ _ H) as (item & _ & Hitem).
      exact (IH item v Hitem).
Qed.

Lemma hex_digits1_spec (h : string) :
  hex_digits1 h = true -> all_chars is_hex h = true /\ is_empty h = false.
Proof.
  unfold hex_digits1. intros H. apply andb_true_iff in H.
  destruct H as [H1 H2]. apply negb_true_iff in H1. split; assumption.
Qed.

Lemma hex_form_converts (v : string) :
  hex_form v = true ->
  exists bs,
    hex_to_bytes v = Ok bs
    /\ bs <> []
    /\ Forall (fun b => 0 <= b < 256) bs.
Proof.
  intros Hf.
  assert (Hd : forall h,
             hex_digits1 h = true ->
             exists bs,
               hex_to_bytes h = Ok bs /\ hex_to_bytes ("0x" ++ h) = Ok bs
               /\ bs <> [] /\ Forall (fun b => 0 <= b < 256) bs).
  { intros h Hh. apply hex_digits1_spec in Hh. destruct Hh as [Hall Hne].
    destruct (hex_digits_bytes h Hall Hne)
      as (bs & H1 & H2 & _ & Hl & Hr & _).
    exists bs. repeat split; try assumption.
    intros ->. destruct h; [discriminate|].
    simpl in Hl. destruct (String.length h); discriminate. }
  destruct (hex_form_cases v Hf) as [(r & -> & Hr) | Hv].
  - destruct (Hd r Hr) as (bs & _ & H2 & H3 & H4). exists bs. auto.
  - destruct (Hd v Hv) as (bs & H1 & _ & H3 & H4). exists bs. auto.
Qed.

Lemma extract_hex_accepted (limit : nat) (payload : json) (v : string) :
  _extract_hex limit payload = Ok (Some v) ->
  exists bs,
    hex_to_bytes v = Ok bs
    /\ bs <> []
    /\ Forall (fun b => 0 <= b < 256) bs.
Proof.
  intros H. destruct (extract_hex_origin limit payload v H) as [s Hs].
  apply hex_form_converts. exact (hex_value_form s v Hs).
Qed.

(** X8: whatever hex value the client finds in a response, [hex_to_bytes]
    accepts it and gives at least one byte. *)
Theorem extracted_hex_converts (limit : nat) (payload : json) (v : string) :
  _extract_hex limit payload = Ok (Some v) ->
  exists bs,
    hex_to_bytes v = Ok bs
    /\ bs <> []
    /\ Forall (fun b => 0 <= b < 256) bs.
Proof.
  exact (extract_hex_accepted limit payload v).
Qed.

Lemma extracted_hex_converts_witness :
  exists bs,
    hex_to_bytes "0x1F" = Ok bs /\ bs <> [].
Proof.
  destruct (extracted_hex_converts 1000
              (JDict [("port", JInt 3); ("data", JDict [("value", JStr " 0x1F ")])])
              "0x1F" eq_refl) as (bs & H1 & H2 & _).
  exists bs. split; assumption.
Defined.





End ClientHex.

(** ** What a passing cycle implies *)

Section Passing.

Import Conversion ConfigStore Client Measurement Claimed Further.
Local Open Scope float_scope.

(** A channel with a finite value was read ok, carried hex text, was
    converted without error, and its raw value is finite and below the
    sentinel. *)
Lemma convert_result_finite config idx result c :
  convert_result config idx result = Ok c ->
  is_finite (snd c) = true ->
  fst (fst c) = true
  /\ ok result = true
  /\ (exists hex, raw_hex result = Some hex /\ is_empty hex = false)
  /\ (exists raw, snd (fst c) = Some raw /\ is_finite raw = true
                  /\ (SENTINEL_RAW_MIN <=? raw) = false).
Proof.
  unfold convert_result. intros H Hfin.
  destruct (raw_hex result) as [hex|];
    [|injection H as <-; discriminate Hfin].
  destruct (ok result) eqn:Eok; cbn [andb] in H;
    [|injection H as <-; discriminate Hfin].
  destruct (is_empty hex) eqn:Ee; cbn [negb] in H;
    [injection H as <-; discriminate Hfin|].
  destruct (nth_error (channels config) idx) as [ch|]; [|discriminate].
  unfold convert_hex in H.
  destruct (decode_raw_value hex ch) as [raw|[msg| | | | | | |]]; cbn [Py.bind] in H;
    try discriminate; [|injection H as <-; discriminate Hfin].
  unfold PyFloat.isfinite in H.
  destruct (is_finite raw) eqn:Er; cbn [negb orb] in H;
    [|injection H as <-; discriminate Hfin].
  destruct (SENTINEL_RAW_MIN <=? raw) eqn:Es;
    [injection H as <-; discriminate Hfin|].
  injection H as <-. cbn [fst snd].
  repeat split; eauto.
Qed.

Lemma convert_results_each config results :
  forall idx converted,
    convert_results config idx results = Ok converted ->
    Forall2 (fun r c => exists i, convert_result config i r = Ok c)
      results converted.
Proof.
  induction results as [|r rest IH]; intros idx converted H; simpl in H.
  - injection H as <-. constructor.
  - destruct (convert_result config idx r) as [c|] eqn:Ec; [|discriminate].
    cbn [Py.bind] in H.
    destruct (convert_results config (S idx) rest) as [cs|] eqn:Ecs;
      [|discriminate].
    injection H as <-. constructor; [eauto | eapply IH; eassumption].
Qed.

(** X10: a cycle passes only if every one of the eight channels delivered a
    value: each read was ok and carried hex text, each conversion went
    through, each raw value is finite and below the sentinel
    2147483640.0, and each value in millimetres is finite.  A missing,
    undecodable, sentinel or non-finite reading on any channel makes the
    verdict false. *)
Theorem pass_needs_every_channel
  (config : Config) (results : list PortReadResult) (p : Published) :
  List.length results = 8%nat ->
  cycle config results = Ok p ->
  overall_pass p = true ->
  all_ok p = true
  /\ Forall (fun v => is_finite v = true) (p_values_mm p)
  /\ Forall (fun raw => exists x, raw = Some x /\ is_finite x = true
                                  /\ (2147483640.0 <=? x) = false)
       (p_raw_values p)
  /\ Forall (fun r => ok r = true
                      /\ exists hex, raw_hex r = Some hex
                                     /\ is_empty hex = false) results.
Proof.
  intros Hlen Hc Hpass.
  pose proof (proj1 (overall_pass_eight config results p Hlen Hc) Hpass)
    as (Hr & H1 & H2 & H3 & H4 & H5 & H6).
  unfold cycle in Hc.
  destruct (convert_results config 0 results) as [converted|] eqn:Econv;
    [|discriminate].
  cbn [Py.bind] in Hc.
  destruct (add_offsets config 0 (map snd converted)) as [offs|] eqn:Eoff;
    [|discriminate].
  cbn [Py.bind] in Hc. injection Hc as Hp.
  assert (Hao : all_ok p = true).
  { rewrite <- Hp in Hpass |- *. cbn [overall_pass all_ok evaluate] in *.
    do 6 (apply andb_true_iff in Hpass; destruct Hpass as [Hpass _]).
    exact Hpass. }
  assert (Hfin : Forall (fun c => is_finite (snd c) = true) converted).
  { apply Forall_nth. intros k d Hk.
    rewrite (convert_results_length _ _ _ _ Econv), Hlen in Hk.
    rewrite <- Hp in H1, H2, H4, H5.
    pose proof (checks_need_finite config (forallb ok results)
                  (map raw_hex results) converted offs H1 H2 H4 H5 k Hk)
      as Hf.
    apply (add_offsets_finite _ _ _ _ k Eoff) in Hf.
    rewrite (nth_indep _ nan (snd d)) in Hf
      by (rewrite length_map, (convert_results_length _ _ _ _ Econv); lia).
    rewrite map_nth in Hf. exact Hf. }
  pose proof (convert_results_each _ _ _ _ Econv) as Heach.
  assert (Hall : Forall2 (fun r c =>
                  fst (fst c) = true
                  /\ ok r = true
                  /\ (exists hex, raw_hex r = Some hex /\ is_empty hex = false)
                  /\ (exists raw, snd (fst c) = Some raw
                                  /\ is_finite raw = true
                                  /\ (SENTINEL_RAW_MIN <=? raw) = false))
                 results converted).
  { clear - Heach Hfin. induction Heach as [|r c rs cs [i Hi] _ IH].
    - constructor.
    - inversion Hfin as [|? ? Hc Hcs]; subst.
      constructor; [|apply IH; assumption].
      exact (convert_result_finite config i r c Hi Hc). }
  split; [exact Hao|].
  rewrite <- Hp. cbn [p_values_mm p_raw_values Measurement.evaluate].
  split; [|split].
  - apply Forall_map. exact Hfin.
  - apply Forall_map. clear - Hall.
    induction Hall as [|r c rs cs (_ & _ & _ & Hraw) _ IH]; constructor;
      assumption.
  - clear - Hall.
    induction Hall as [|r c rs cs (_ & Hok & Hhex & _) _ IH]; constructor;
      [split|]; assumption.
Qed.

Lemma pass_needs_every_channel_witness :
  exists p,
    cycle default_config (read_ports mock_read_port_get) = Ok p
    /\ Forall (fun v => is_finite v = true) (p_values_mm p).
Proof.
  eexists. split; [reflexivity|].
  apply (pass_needs_every_channel default_config
           (read_ports mock_read_port_get) _ eq_refl eq_refl eq_refl).
Defined.

End Passing.

(** ** Port statistics across cycles *)

Section Statistics.

Import ConfigStore Client Measurement State Engine Further.
Local Open Scope float_scope.

Lemma update_ports_each now (results : list PortReadResult) :
  forall statuses statuses',
    update_ports now statuses results = Ok statuses' ->
    List.length statuses' = List.length statuses
    /\ forall k ps,
         nth_error statuses k = Some ps ->
         exists ps',
           nth_error statuses' k = Some ps'
           /\ ps_port ps' = ps_port ps
           /\ error_count ps'
              = (error_count ps
                 + match nth_error results k with
                   | Some r => if ok r then 0 else 1
                   | None => 0
                   end)%Z.
Proof.
  induction results as [|r rest IH]; intros statuses statuses' H.
  - cbn [update_ports] in H. injection H as <-. split; [reflexivity|].
    intros k ps Hk. exists ps. repeat split; [assumption|].
    destruct k; simpl; lia.
  - destruct statuses as [|ps0 statuses]; [discriminate|].
    cbn [update_ports] in H.
    destruct (update_ports now statuses rest) as [rest'|] eqn:E;
      [|discriminate].
    cbn [Py.bind] in H. injection H as <-.
    destruct (IH statuses rest' E) as [Hl Hk].
    split; [simpl; congruence|].
    intros [|k] ps Hps.
    + injection Hps as <-. eexists. split; [reflexivity|].
      unfold update_port. cbn [nth_error].
      destruct (ok r); cbn [ps_port error_count]; split; try reflexivity; lia.
    + cbn [nth_error] in *. apply Hk. assumption.
Qed.

Lemma run_cycle_ports mock state i state' :
  run_cycle mock state i = Ok state' ->
  List.length (port_status state') = List.length (port_status state)
  /\ forall k ps,
       nth_error (port_status state) k = Some ps ->
       exists ps',
         nth_error (port_status state') k = Some ps'
         /\ ps_port ps' = ps_port ps
         /\ error_count ps'
            = (error_count ps + if failed_at k i then 1 else 0)%Z.
Proof.
  unfold run_cycle, _update_state. intros H.
  destruct (cycle (ci_config i) (ci_results i)) as [p|]; [|discriminate].
  cbn [Py.bind] in H.
  destruct (update_ports (ci_now_ts i) (port_status state) (ci_results i))
    as [statuses|] eqn:E; [|discriminate].
  cbn [Py.bind] in H. injection H as <-. cbn [port_status].
  destruct (update_ports_each _ _ _ _ E) as [Hl Hk].
  split; [assumption|].
  intros k ps Hps. destruct (Hk k ps Hps) as (ps' & H1 & H2 & H3).
  exists ps'. repeat split; try assumption.
  rewrite H3. unfold failed_at.
  destruct (nth_error (ci_results i) k) as [r|]; [|reflexivity].
  destruct (ok r); reflexivity.
Qed.

(** X11: over any run of cycles that all publish, each port keeps its number
    and its error counter grows by exactly the number of cycles in which
    the read of that port failed: a counter never goes down and is never
    reset, and the list of ports keeps its length. *)
Theorem error_counts_accumulate
  (mock : bool) (inputs : list cycle_input) :
  forall state state',
    run_cycles mock state inputs = Ok state' ->
    List.length (port_status state') = List.length (port_status state)
    /\ forall k ps,
         nth_error (port_status state) k = Some ps ->
         exists ps',
           nth_error (port_status state') k = Some ps'
           /\ ps_port ps' = ps_port ps
           /\ error_count ps' = (error_count ps + failures k inputs)%Z.
Proof.
  induction inputs as [|i rest IH]; intros state state' H.
  - cbn [run_cycles] in H. injection H as <-. split; [reflexivity|].
    intros k ps Hps. exists ps. repeat split; [assumption|].
    unfold failures. simpl. lia.
  - cbn [run_cycles] in H.
    destruct (run_cycle mock state i) as [state1|] eqn:E1; [|discriminate].
    cbn [Py.bind] in H.
    destruct (run_cycle_ports _ _ _ _ E1) as [Hl1 Hk1].
    destruct (IH state1 state' H) as [Hl Hk].
    split; [congruence|].
    intros k ps Hps.
    destruct (Hk1 k ps Hps) as (ps1 & Hn1 & Hp1 & He1).
    destruct (Hk k ps1 Hn1) as (ps' & Hn' & Hp' & He').
    exists ps'. repeat split; [assumption | congruence|].
    rewrite He', He1. unfold failures. cbn [filter].
    destruct (failed_at k i); cbn [List.length]; lia.
Qed.

Lemma error_counts_accumulate_witness :
  let failing (p : Z) :=
    if (p =? 3)%Z
    then mkPortReadResult p false None (Some "HTTP 500") (Some 500%Z) None
    else mock_read_port_get p in
  let inputs :=
    [mkCycleInput default_config (read_ports failing) 10.0;
     mkCycleInput default_config (read_ports mock_read_port_get) 11.0;
     mkCycleInput default_config (read_ports failing) 12.0] in
  exists state' ps',
    run_cycles true initial_state inputs = Ok state'
    /\ nth_error (port_status state') 2 = Some ps'
    /\ ps_port ps' = 3%Z
    /\ error_count ps' = 2%Z.
Proof.
  intros failing inputs.
  destruct (run_cycles true initial_state inputs) as [state'|] eqn:E;
    [|vm_compute in E; discriminate].
  destruct (error_counts_accumulate true inputs initial_state state' E)
    as [_ Hk].
  destruct (Hk 2%nat _ eq_refl) as (ps' & H1 & H2 & H3).
  exists state', ps'. repeat split; assumption.
Defined.

End Statistics.

(** ** Cycles that cannot be aborted *)

Section Publishing.

Import Conversion ConfigStore Client Measurement Engine Claimed Further.
Local Open Scope float_scope.






End Publishing.


(** ** The log buffer *)

Section Log.

Import State Further.

Lemma lastn_app_lastn {A : Type} (m : nat) (l r : list A) :
  lastn m (lastn m l ++ r) = lastn m (l ++ r).
Proof.
  unfold lastn.
  destruct (Nat.le_gt_cases (List.length l) m) as [Hle | Hgt].
  - replace (List.length l - m)%nat with 0%nat by lia. reflexivity.
  - set (k := (List.length l - m)%nat).
    assert (Hk : List.length (skipn k l) = m)
      by (rewrite length_skipn; unfold k; lia).
    rewrite !length_app, Hk.
    replace (m + List.length r - m)%nat with (List.length r) by lia.
    replace (List.length l + List.length r - m)%nat
      with (List.length r + k)%nat by (unfold k; lia).
    rewrite <- skipn_skipn. f_equal.
    rewrite skipn_app.
    replace (k - List.length l)%nat with 0%nat by (unfold k; lia).
    reflexivity.
Qed.

Lemma add_keeps_last (entry : LogEntry) (b : LogBuffer) :
  0 <= maxlen b ->
  (List.length (_buffer b) <= Z.to_nat (maxlen b))%nat ->
  maxlen (add entry b) = maxlen b
  /\ _buffer (add entry b)
     = lastn (Z.to_nat (maxlen b)) (_buffer b ++ [entry])
  /\ (List.length (_buffer (add entry b)) <= Z.to_nat (maxlen b))%nat.
Proof.
  intros Hm Hlen. unfold add, lastn.
  rewrite length_app. cbn [List.length].
  destruct (Z.ltb_spec (maxlen b) (Z.of_nat (List.length (_buffer b) + 1)))
    as [Hfull | Hroom]; cbn [maxlen _buffer].
  - assert (E : List.length (_buffer b) = Z.to_nat (maxlen b)) by lia.
    replace (List.length (_buffer b) + 1 - Z.to_nat (maxlen b))%nat
      with 1%nat by lia.
    split; [reflexivity|]. split; [reflexivity|].
    destruct (_buffer b) as [|x l]; simpl in *; [lia|].
    rewrite length_app. simpl. lia.
  - replace (List.length (_buffer b) + 1 - Z.to_nat (maxlen b))%nat
      with 0%nat by lia.
    split; [reflexivity|]. split; [reflexivity|].
    rewrite length_app. simpl. lia.
Qed.

(** X13: the log buffer is a ring: after any number of additions its snapshot
    is, oldest first, the last [capacity] entries of what it held followed
    by what was added, so it never holds more than [capacity] entries and
    only the oldest are lost.  A negative capacity is refused when the
    buffer is made. *)
Theorem log_buffer_keeps_last (entries : list LogEntry) :
  forall b,
    0 <= maxlen b ->
    (List.length (_buffer b) <= Z.to_nat (maxlen b))%nat ->
    let b' := fold_left (fun b e => add e b) entries b in
    maxlen b' = maxlen b
    /\ log_snapshot b' = lastn (Z.to_nat (maxlen b)) (_buffer b ++ entries)
    /\ (List.length (log_snapshot b') <= Z.to_nat (maxlen b))%nat
    /\ (forall capacity, capacity < 0 ->
          new_log_buffer capacity = Raise ValueError).
Proof.
  induction entries as [|e rest IH]; intros b Hm Hlen; cbn [fold_left].
  - unfold log_snapshot, lastn. rewrite app_nil_r.
    replace (List.length (_buffer b) - Z.to_nat (maxlen b))%nat
      with 0%nat by lia.
    repeat split; auto.
    intros c Hc. unfold new_log_buffer.
    destruct (Z.ltb_spec c 0); [reflexivity | lia].
  - destruct (add_keeps_last e b Hm Hlen) as (Hmax & Hbuf & Hl).
    specialize (IH (add e b)). rewrite Hmax in IH.
    destruct (IH Hm Hl) as (I1 & I2 & I3 & I4).
    repeat split; try assumption.
    rewrite I2, Hbuf, lastn_app_lastn, <- app_assoc. reflexivity.
Qed.

Lemma log_buffer_keeps_last_witness :
  let e (n : Z) := mkLogEntry 0%float "INFO" (Client.str_of_int n) "hmi" in
  log_snapshot
    (fold_left (fun b e => add e b) [e 1; e 2; e 3; e 4; e 5]
       (mkLogBuffer 3 []))
  = [e 3; e 4; e 5].
Proof.
  intros e.
  destruct (log_buffer_keeps_last [e 1; e 2; e 3; e 4; e 5]
              (mkLogBuffer 3 []) ltac:(simpl; lia) ltac:(simpl; lia))
    as (_ & H & _).
  exact H.
Defined.

End Log.

(** ** Shape of the configuration *)

Section Shape.

Import Conversion ConfigStore Claimed Further.
Local Open Scope float_scope.

Lemma first8_length (l : list float) : List.length (first8 l) = 8%nat.
Proof.
  unfold first8.
  destruct (Nat.ltb_spec (List.length (firstn 8 l)) 8) as [Hlt | Hge].
  - rewrite length_app, repeat_length. lia.
  - pose proof (firstn_le_length 8 l). lia.
Qed.

Lemma first8_nth (l : list float) (k : nat) :
  (k < 8)%nat ->
  nth_error (first8 l) k
  = Some (match nth_error l k with Some v => v | None => 0.0 end).
Proof.
  intros Hk. unfold first8.
  assert (Hf : nth_error (firstn 8 l) k = nth_error l k).
  { rewrite nth_error_firstn.
    destruct (Nat.ltb_spec k 8); [reflexivity | lia]. }
  destruct (Nat.ltb_spec (List.length (firstn 8 l)) 8) as [Hlt | Hge].
  - destruct (nth_error l k) as [v|] eqn:E.
    + rewrite nth_error_app1, Hf; [reflexivity|].
      apply nth_error_Some. rewrite Hf. congruence.
    + assert (Hlen : (List.length (firstn 8 l) <= k)%nat)
        by (apply nth_error_None; rewrite Hf; reflexivity).
      rewrite nth_error_app2 by assumption.
      rewrite nth_error_repeat by lia. reflexivity.
  - rewrite Hf. destruct (nth_error l k) eqn:E; [reflexivity|].
    apply nth_error_None in E. rewrite length_firstn in Hge. lia.
Qed.

Lemma update_targets_shape attribute_of updates s :
  offsets_mm (_config (fst (update_targets_mm attribute_of updates s)))
  = offsets_mm (_config s)
  /\ frame_of (_config (fst (update_targets_mm attribute_of updates s)))
     = frame_of (_config s).
Proof.
  unfold update_targets_mm.
  destruct (set_targets attribute_of updates (targets (_config s)))
    as [t [e|]]; split; reflexivity.
Qed.

Lemma update_from_form_shape attribute_of form s :
  List.length (offsets_mm (_config s)) = 8%nat ->
  List.length
    (offsets_mm (_config (fst (update_from_form attribute_of form s))))
  = 8%nat
  /\ frame_of (_config (fst (update_from_form attribute_of form s)))
     = frame_of (_config s).
Proof.
  unfold update_from_form. intros Hlen.
  destruct (form_values form form_target_fields) as [updates|];
    [|split; [assumption | reflexivity]].
  destruct (form_values form _) as [offsets|];
    [|split; [assumption | reflexivity]].
  set (s1 := match offsets with
             | [] => s
             | _ => update_offsets_mm (map snd offsets) s
             end).
  assert (H1 : List.length (offsets_mm (_config s1)) = 8%nat
               /\ frame_of (_config s1) = frame_of (_config s)).
  { subst s1. destruct offsets; [split; [assumption | reflexivity]|].
    split; [apply first8_length | reflexivity]. }
  destruct updates as [|u updates]; [exact H1|].
  destruct (update_targets_shape attribute_of (u :: updates) s1) as [Ho Hf].
  rewrite Ho, Hf. exact H1.
Qed.

(** X14: the operations of the store other than a replace or a load keep the
    shape of the configuration: eight offsets stay eight, and the
    channels and connection settings are never touched.  An offsets
    update always leaves exactly eight offsets, the given ones in
    order, cut after the eighth or padded with 0.0. *)
Theorem store_keeps_eight :
  (forall offsets s,
      List.length (offsets_mm (_config (update_offsets_mm offsets s))) = 8%nat
      /\ (forall k, (k < 8)%nat ->
            nth_error (offsets_mm (_config (update_offsets_mm offsets s))) k
            = Some (match nth_error offsets k with
                    | Some v => v
                    | None => 0.0
                    end)))
  /\ (forall attribute_of o s,
         match o with
         | Replace _ | Load _ => True
         | _ =>
             List.length (offsets_mm (_config s)) = 8%nat ->
             List.length (offsets_mm (_config (apply_op attribute_of o s)))
             = 8%nat
             /\ frame_of (_config (apply_op attribute_of o s))
                = frame_of (_config s)
         end).
Proof.
  split.
  - intros offsets s. cbn [update_offsets_mm _config with_offsets_mm offsets_mm].
    split; [apply first8_length | intros k Hk; apply first8_nth; assumption].
  - intros attribute_of
      [c | updates | offsets | key v | d | form | written] s;
      try exact I; intros Hlen; cbn [apply_op].
    + destruct (update_targets_shape attribute_of updates s) as [Ho Hf].
      rewrite Ho, Hf. split; [exact Hlen | reflexivity].
    + split; [apply first8_length | reflexivity].
    + destruct (update_from_hmi_set key v s) as [[s' u]|] eqn:E;
        [|split; [assumption | reflexivity]].
      destruct u.
      * destruct (hmi_set_one_slot key v s s' E)
          as (_ & Hf & Hl & _).
        split; [congruence | assumption].
      * destruct (update_from_hmi_set_version _ _ _ _ _ E) as [_ Hs].
        rewrite (Hs eq_refl). split; [assumption | reflexivity].
    + exact (update_from_form_shape attribute_of form s Hlen).
    + destruct written; split; try exact Hlen; reflexivity.
Qed.

Lemma store_keeps_eight_witness :
  List.length
    (offsets_mm
       (_config (apply_op cpython_attribute (HmiSet "off7" 0.5)
                   (mkStore default_config 1))))
  = 8%nat.
Proof.
  apply (proj2 store_keeps_eight cpython_attribute (HmiSet "off7" 0.5)
           (mkStore default_config 1) eq_refl).
Defined.

(** X15: [from_dict] always builds a configuration with exactly eight offsets
    and eight channels, whatever the dict holds; from the empty dict it
    builds the defaults; and it reads back what [to_dict] wrote for any
    configuration with eight offsets and eight channels. *)
Theorem from_dict_shape :
  (forall data,
      List.length (offsets_mm (from_dict data)) = 8%nat
      /\ List.length (channels (from_dict data)) = 8%nat)
  /\ from_dict empty_config_data = default_config
  /\ (forall c,
         List.length (offsets_mm c) = 8%nat ->
         List.length (channels c) = 8%nat ->
         from_dict (to_dict c) = c).
Proof.
  split; [|split].
  - intros data. cbn [from_dict offsets_mm channels].
    split; [apply first8_length | reflexivity].
  - reflexivity.
  - intros [ip poll tmo cap [sp bd] [a b c d e f g h i] offs chans] Ho Hc.
    cbn [offsets_mm channels] in Ho, Hc.
    do 9 (destruct offs as [|? offs]; try discriminate Ho).
    do 9 (destruct chans as [|[? ? ? ? ?] chans]; try discriminate Hc).
    reflexivity.
Qed.

Lemma from_dict_shape_witness :
  from_dict
    (to_dict (with_offsets_mm default_config
                [1.0; 2.0; 3.0; 4.0; 5.0; 6.0; 7.0; 8.0]))
  = with_offsets_mm default_config [1.0; 2.0; 3.0; 4.0; 5.0; 6.0; 7.0; 8.0].
Proof.
  apply (proj2 (proj2 from_dict_shape)); reflexivity.
Defined.

End Shape.

(** ** Fields of an nmcli line *)

Section Nmcli.

Import Webapp Further.

Lemma split_fields_never_empty (line : string) :
  forall escape current, split_fields escape current line <> [].
Proof.
  induction line as [|ch rest IH]; intros escape current; cbn [split_fields].
  - discriminate.
  - destruct escape; [apply IH|].
    destruct (ord ch =? 92); [apply IH|].
    destruct (ord ch =? 58); [discriminate | apply IH].
Qed.

(** An escaped field read back: its characters join the field being
    read, colons and backslashes included. *)
Lemma split_fields_escaped (field : string) :
  forall current rest,
    split_fields false current (nmcli_escape field ++ rest)
    = split_fields false (current ++ field) rest.
Proof.
  induction field as [|ch field IH]; intros current rest.
  - cbn [nmcli_escape append]. rewrite append_nil_r. reflexivity.
  - cbn [nmcli_escape].
    destruct ((ord ch =? 92) || (ord ch =? 58)) eqn:E.
    + cbn [append split_fields].
      change (ord (chr 92) =? 92) with true. cbn iota.
      rewrite IH, append_assoc. reflexivity.
    + apply orb_false_iff in E. destruct E as [E1 E2].
      cbn [append split_fields]. rewrite E1, E2.
      rewrite IH, append_assoc. reflexivity.
Qed.

Lemma split_fields_line (fields : list string) :
  fields <> [] ->
  split_fields false "" (nmcli_line fields) = fields.
Proof.
  induction fields as [|field rest IH]; intros Hne; [contradiction|].
  destruct rest as [|field2 rest].
  - cbn [nmcli_line]. rewrite <- (append_nil_r (nmcli_escape field)).
    rewrite split_fields_escaped. reflexivity.
  - change (nmcli_line (field :: field2 :: rest))
      with (nmcli_escape field
            ++ String (chr 58) (nmcli_line (field2 :: rest))).
    rewrite split_fields_escaped. cbn [append split_fields].
    change (ord (chr 58) =? 92) with false.
    change (ord (chr 58) =? 58) with true. cbn iota.
    rewrite IH by discriminate. reflexivity.
Qed.

(** X16: splitting a line of nmcli gives back the fields that were written,
    whatever colons and backslashes they hold, when each of those was
    written with a backslash before it; and a line always gives at least
    one field. *)
Theorem nmcli_fields_round_trip :
  (forall fields,
      fields <> [] -> _split_nmcli_fields (nmcli_line fields) = fields)
  /\ (forall line, _split_nmcli_fields line <> []).
Proof.
  split.
  - intros fields Hne. apply split_fields_line. assumption.
  - intros line. apply split_fields_never_empty.
Qed.

Lemma nmcli_fields_round_trip_witness :
  _split_nmcli_fields (nmcli_line ["*"; "Caf\e:5G"; ""; "WPA2"])
  = ["*"; "Caf\e:5G"; ""; "WPA2"].
Proof.
  apply (proj1 nmcli_fields_round_trip). discriminate.
Defined.

End Nmcli.

(** ** Forms and resends *)

Section Forms.

Import ConfigStore Measurement Engine Claimed Further.
Local Open Scope float_scope.

Lemma form_values_absent {K : Type} form (fields : list (string * K)) :
  (forall field, In field (map fst fields) -> form_get form field = None) ->
  form_values form fields = Ok [].
Proof.
  induction fields as [|[field key] rest IH]; intros H; [reflexivity|].
  cbn [form_values]. rewrite (H field) by (left; reflexivity).
  apply IH. intros f Hf. apply H. right. assumption.
Qed.

Lemma form_values_full {K : Type} form value (fields : list (string * K)) :
  (forall field, In field (map fst fields) ->
     exists text, form_get form field = Some text
                  /\ PyParse.float_of_string text = Some (value field)) ->
  form_values form fields
  = Ok (map (fun fk => (snd fk, in_to_mm (value (fst fk)))) fields).
Proof.
  induction fields as [|[field key] rest IH]; intros H; [reflexivity|].
  cbn [form_values].
  destruct (H field (or_introl eq_refl)) as (text & -> & ->).
  rewrite IH by (intros f Hf; apply H; right; assumption).
  reflexivity.
Qed.

(** X17: a form that holds none of the seventeen fields changes nothing, not
    even the version.  A form that holds all of them with well-formed
    numbers sets every target and every offset to its number times 25.4,
    keeps the rest of the configuration, and raises the version by
    two. *)
Theorem form_update_effect (attribute_of : string -> attribute)
  (form : list (string * string)) (s : store) :
  ((forall field,
       In field (map fst form_target_fields ++ form_offset_fields)%list ->
       form_get form field = None) ->
   update_from_form attribute_of form s = (s, None))
  /\ (forall value,
         full_form form value ->
         exists s',
           update_from_form attribute_of form s = (s', None)
           /\ slots (_config s')
              = map (fun field => in_to_mm (value field))
                  (map fst form_target_fields ++ form_offset_fields)%list
           /\ frame_of (_config s') = frame_of (_config s)
           /\ version s' = (version s + 2)%Z).
Proof.
  split.
  - intros H. unfold update_from_form.
    rewrite form_values_absent
      by (intros f Hf; apply H; apply in_or_app; left; assumption).
    rewrite form_values_absent; [reflexivity|].
    intros f Hf. apply H. apply in_or_app. right.
    rewrite map_map in Hf. cbn [fst] in Hf. rewrite map_id in Hf. assumption.
  - intros value H. unfold update_from_form.
    rewrite (form_values_full form value form_target_fields)
      by (intros f Hf; apply H; apply in_or_app; left; assumption).
    rewrite (form_values_full form value)
      by (intros f Hf; apply H; apply in_or_app; right;
          rewrite map_map in Hf; cbn [fst] in Hf; rewrite map_id in Hf;
          assumption).
    destruct s as [[ip poll tmo cap h [a b c d e f g hh i] offs chans] ver].
    eexists. split; [reflexivity|].
    split; [reflexivity|]. split; [reflexivity|].
    unfold version. cbn. lia.
Qed.

Lemma form_update_effect_witness :
  update_from_form cpython_attribute [("unrelated", "1.0")]
    (mkStore default_config 1)
  = (mkStore default_config 1, None).
Proof.
  apply (proj1 (form_update_effect cpython_attribute [("unrelated", "1.0")]
                  (mkStore default_config 1))).
  intros field Hin. simpl in Hin.
  repeat (destruct Hin as [<- | Hin]; [reflexivity|]). contradiction.
Defined.



End Forms.

(** ** Which hex text is accepted *)

Section HexAccepted.

Import Conversion Client Claimed Further.

Lemma drop_ends (n : nat) :
  forall s, ends_space s = false -> ends_space (drop n s) = false.
Proof.
  induction n as [|n IH]; intros s H; [exact H|].
  destruct s as [|c s]; [reflexivity|].
  cbn [drop]. apply IH. destruct s; [reflexivity | exact H].
Qed.

Lemma strip_ends (s : string) : ends_space (strip s) = false.
Proof. unfold strip. apply lstrip_ends, rstrip_ends. Qed.

Lemma startswith_0x (x : ascii) (s : string) :
  startswith (String "0" (String x "")) s = true ->
  s = String "0" (String x (drop 2 s)).
Proof.
  unfold startswith. destruct s as [|c1 [|c2 r]]; cbn [String.prefix].
  - discriminate.
  - destruct (ascii_dec _ c1); discriminate.
  - destruct (ascii_dec _ c1) as [<- | _]; [|discriminate].
    destruct (ascii_dec _ c2) as [<- | _]; [|discriminate].
    intros _. reflexivity.
Qed.

Lemma odd_nonempty (s : string) :
  Nat.odd (String.length s) = true -> is_empty s = false.
Proof. destruct s; [simpl; discriminate | reflexivity]. Qed.

(** X19: [hex_to_bytes] accepts a text exactly when, stripped of surrounding
    whitespace, it is one or more hex digits with or without the prefix
    [0x] or [0X]; any other text raises the conversion error that names
    it, or a [ValueError] out of [bytes.fromhex], which is what a text
    such as [0x0xAB] or [xAB] comes to: what is left of it still passes
    the pattern, with a [0x] that [fromhex] does not read. *)
Theorem hex_to_bytes_accepts_exactly (hex : string) :
  ((exists bs, hex_to_bytes hex = Ok bs) <->
   (exists h,
       all_chars is_hex h = true /\ is_empty h = false
       /\ (strip hex = h \/ strip hex = "0x" ++ h \/ strip hex = "0X" ++ h)))
  /\ ((exists bs, hex_to_bytes hex = Ok bs)
      \/ hex_to_bytes hex
         = Raise (ConversionError ("Invalid hex string: " ++ hex))
      \/ hex_to_bytes hex = Raise ValueError).
Proof.
  assert (Hshape : forall c1 : string,
             let c2 := if Nat.odd (String.length c1) then String "0" c1
                       else c1 in
             ends_space c1 = false ->
             forall bs,
               (if negb (hex_re_match c2)
                then Raise (ConversionError ("Invalid hex string: " ++ hex))
                else fromhex c2) = Ok bs ->
               all_chars is_hex c1 = true /\ is_empty c1 = false).
  { intros c1 c2 Hend bs H.
    assert (Hend2 : ends_space c2 = false).
    { unfold c2. destruct (Nat.odd (String.length c1)) eqn:Eo; [|exact Hend].
      destruct c1; [simpl in Eo; discriminate Eo | exact Hend]. }
    destruct (hex_re_match c2) eqn:Em; [|discriminate].
    cbn [negb] in H. unfold hex_re_match in Em.
    assert (Hf : hex_form c2 = true).
    { destruct (hex_form c2); [reflexivity|]. cbn [orb] in Em.
      destruct (chop_newline c2) as [r|] eqn:Ec; [|discriminate].
      apply chop_newline_ends in Ec. congruence. }
    destruct (hex_form_cases c2 Hf) as [(r & Hr & _) | Hd].
    - rewrite Hr in H. discriminate H.
    - apply hex_digits1_spec in Hd. destruct Hd as [Hall Hne].
      unfold c2 in Hall, Hne.
      destruct (Nat.odd (String.length c1)) eqn:Eo.
      + cbn [all_chars] in Hall. apply andb_true_iff in Hall.
        split; [apply Hall | apply odd_nonempty; exact Eo].
      + split; assumption. }
  split.
  - split.
    + intros [bs H]. unfold hex_to_bytes in H.
      destruct (startswith "0x" (strip hex)) eqn:E1; cbn [orb] in H.
      * destruct (Hshape (drop 2 (strip hex))
                    (drop_ends 2 _ (strip_ends hex)) bs H) as [Ha Hn].
        exists (drop 2 (strip hex)). repeat split; try assumption.
        right. left. exact (startswith_0x "x" _ E1).
      * destruct (startswith "0X" (strip hex)) eqn:E2.
        -- destruct (Hshape (drop 2 (strip hex))
                       (drop_ends 2 _ (strip_ends hex)) bs H) as [Ha Hn].
           exists (drop 2 (strip hex)). repeat split; try assumption.
           right. right. exact (startswith_0x "X" _ E2).
        -- destruct (Hshape (strip hex) (strip_ends hex) bs H) as [Ha Hn].
           exists (strip hex). repeat split; try assumption.
           left. reflexivity.
    + intros (h & Hall & Hne & Hs).
      destruct (hex_digits_bytes h Hall Hne) as (bs & H1 & H2 & H3 & _).
      exists bs.
      assert (Htok : is_token h = true).
      { apply is_token_spec. split; [assumption|].
        apply all_hex_nonspace. assumption. }
      assert (Hsame : forall t,
                 strip t = t -> strip hex = t ->
                 hex_to_bytes t = Ok bs -> hex_to_bytes hex = Ok bs).
      { intros t Ht Hhex Hok. unfold hex_to_bytes in Hok |- *.
        rewrite Ht in Hok. rewrite Hhex.
        match goal with
        | |- (if negb (hex_re_match ?c) then _ else _) = _ =>
            destruct (hex_re_match c)
        end; cbn [negb] in Hok |- *; [exact Hok | discriminate Hok]. }
      destruct Hs as [Hs | [Hs | Hs]].
      * apply (Hsame h); [apply strip_token; assumption | assumption..].
      * apply (Hsame ("0x" ++ h)); try assumption.
        apply strip_token. apply is_token_spec. split; [reflexivity|].
        apply is_token_spec in Htok. cbn [append all_chars].
        rewrite (proj2 Htok). reflexivity.
      * apply (Hsame ("0X" ++ h)); try assumption.
        apply strip_token. apply is_token_spec. split; [reflexivity|].
        apply is_token_spec in Htok. cbn [append all_chars].
        rewrite (proj2 Htok). reflexivity.
  - unfold hex_to_bytes.
    match goal with
    | |- context [negb (hex_re_match ?c)] =>
        destruct (hex_re_match c) eqn:Em; cbn [negb];
        [|right; left; reflexivity]
    end.
    match goal with
    | |- context [fromhex ?c] => generalize c
    end.
    intros c. clear.
    assert (H : forall s, (exists bs, fromhex s = Ok bs)
                          \/ fromhex s = Raise ValueError).
    { fix IH 1. intros [|c1 s]; [left; eexists; reflexivity|].
      cbn [fromhex].
      destruct (is_ascii_space c1); [apply IH|].
      destruct (hexval c1); [|right; reflexivity].
      destruct s as [|c2 s]; [right; reflexivity|].
      destruct (hexval c2); [|right; reflexivity].
      destruct (IH s) as [[bs ->] | ->];
        [left; eexists; reflexivity | right; reflexivity]. }
    destruct (H c) as [Hok | Hv]; [left; exact Hok | right; right; exact Hv].
Qed.

Lemma hex_to_bytes_accepts_exactly_witness :
  hex_to_bytes "12 34"
  = Raise (ConversionError ("Invalid hex string: " ++ "12 34"))
  /\ hex_to_bytes "0x0xAB" = Raise ValueError
  /\ exists bs, hex_to_bytes "  0XfF " = Ok bs.
Proof.
  split; [reflexivity|]. split; [reflexivity|].
  apply (proj2 (proj1 (hex_to_bytes_accepts_exactly "  0XfF "))).
  exists "fF". repeat split. right. right. reflexivity.
Defined.

Lemma ord_chr (n : Z) : 0 <= n < 256 -> ord (chr n) = n.
Proof.
  intros H. unfold ord, chr.
  rewrite N_ascii_embedding by lia. lia.
Qed.

Lemma hexval_upper (d : Z) :
  0 <= d < 16 ->
  is_hex (hex_digit_upper d) = true /\ hex_digit (hex_digit_upper d) = d.
Proof.
  intros Hd. unfold is_hex, hex_digit, hex_digit_upper, hexval, between.
  destruct (Z.ltb_spec d 10); rewrite ord_chr by lia.
  - destruct (Z.leb_spec 48 (48 + d)); [|lia].
    destruct (Z.leb_spec (48 + d) 57); [|lia].
    cbn [andb]. split; [reflexivity | lia].
  - destruct (Z.leb_spec 48 (55 + d)); [|lia].
    destruct (Z.leb_spec (55 + d) 57); [lia|].
    destruct (Z.leb_spec 97 (55 + d)); [lia|].
    destruct (Z.leb_spec 65 (55 + d)); [|lia].
    destruct (Z.leb_spec (55 + d) 70); [|lia].
    cbn [andb]. split; [reflexivity | lia].
Qed.

(** X20: what the stub client writes, the decoder reads: for a value below
    2^32, the text of [_format_hex] converts to four bytes whose unsigned
    big-endian reading is the value. *)
Theorem format_hex_round_trip (value : Z) :
  0 <= value < 2 ^ 32 ->
  exists bs,
    hex_to_bytes (_format_hex value) = Ok bs
    /\ List.length bs = 4%nat
    /\ int_from_bytes bs true false = value.
Proof.
  intros Hv.
  set (d := fun i => (value / 16 ^ i) mod 16).
  assert (Hd : forall i, 0 <= d i < 16)
    by (intros i; unfold d; apply Z.mod_pos_bound; lia).
  set (h := hex_upper 8 value "").
  assert (Hh : h = String (hex_digit_upper (d 7))
                    (String (hex_digit_upper (d 6))
                    (String (hex_digit_upper (d 5))
                    (String (hex_digit_upper (d 4))
                    (String (hex_digit_upper (d 3))
                    (String (hex_digit_upper (d 2))
                    (String (hex_digit_upper (d 1))
                    (String (hex_digit_upper (d 0)) "")))))))).
  { unfold h, d. cbn [hex_upper].
    rewrite !Z.div_div by lia.
    change (16 ^ 0) with 1. rewrite Z.div_1_r.
    repeat f_equal. }
  assert (Hall : all_chars is_hex h = true).
  { rewrite Hh. cbn [all_chars].
    rewrite !(proj1 (hexval_upper _ (Hd _))). reflexivity. }
  assert (Hne : is_empty h = false) by (rewrite Hh; reflexivity).
  destruct (hex_digits_bytes h Hall Hne)
    as (bs & _ & H2 & _ & Hl & _ & Hval).
  exists bs. split; [exact H2|]. split.
  - rewrite Hl, Hh. reflexivity.
  - change (int_from_bytes bs true false) with (be_value bs).
    rewrite Hval, Hh. unfold hex_number.
    cbn [list_ascii_of_string fold_left].
    rewrite !(proj2 (hexval_upper _ (Hd _))).
    unfold d. change (16 ^ 0) with 1. change (16 ^ 1) with 16.
    change (16 ^ 2) with 256. change (16 ^ 3) with 4096.
    change (16 ^ 4) with 65536. change (16 ^ 5) with 1048576.
    change (16 ^ 6) with 16777216. change (16 ^ 7) with 268435456.
    change (2 ^ 32) with 4294967296 in Hv.
    Z.div_mod_to_equations. lia.
Qed.

Lemma format_hex_round_trip_witness :
  exists bs,
    hex_to_bytes (_format_hex 305441741) = Ok bs
    /\ List.length bs = 4%nat
    /\ int_from_bytes bs true false = 305441741.
Proof.
  apply (format_hex_round_trip 305441741). lia.
Defined.

End HexAccepted.


(** ** Decoding big-endian integers *)

Section DecodeIntegers.

Import Conversion Claimed Further.

(** X21: for a channel without bit slice, the raw value decoded from a text of
    hex digits, with or without the prefix [0x], is the float of the
    number the text writes when the format is [uint_be]; when it is
    [int_be] it is the float of that number read in two's complement on
    the width of the bytes, one byte for every two digits, rounded up. *)
Theorem decode_big_endian (h : string) (cfg : ChannelConfig) :
  all_chars is_hex h = true ->
  is_empty h = false ->
  start_bit cfg = None \/ bit_length cfg = None ->
  let w := 8 * Z.of_nat (Nat.div2 (S (String.length h))) in
  (raw_format cfg = "uint_be" ->
   decode_raw_value h cfg = PyFloat.of_int (hex_number h)
   /\ decode_raw_value ("0x" ++ h) cfg = PyFloat.of_int (hex_number h))
  /\ (raw_format cfg = "int_be" ->
      decode_raw_value h cfg
      = PyFloat.of_int (if 2 ^ (w - 1) <=? hex_number h
                        then hex_number h - 2 ^ w else hex_number h)
      /\ - 2 ^ (w - 1)
         <= (if 2 ^ (w - 1) <=? hex_number h
             then hex_number h - 2 ^ w else hex_number h)
         < 2 ^ (w - 1)).
Proof.
  intros Hall Hne Hslice w.
  destruct (hex_digits_bytes h Hall Hne)
    as (bs & H1 & H2 & _ & Hl & Hr & Hv).
  assert (Hnoslice : forall value : Z,
             match start_bit cfg, bit_length cfg with
             | Some sb, Some bl =>
                 _apply_bit_slice value sb bl
                   (startswith "int_" (raw_format cfg))
             | _, _ => Ok value
             end = Ok value).
  { intros value. destruct Hslice as [-> | ->]; [reflexivity|].
    destruct (start_bit cfg); reflexivity. }
  split.
  - intros Hfmt.
    assert (Hd : forall hex,
               hex_to_bytes hex = Ok bs ->
               decode_raw_value hex cfg = PyFloat.of_int (hex_number h)).
    { intros hex Hhex. unfold decode_raw_value.
      rewrite Hhex. cbn [Py.bind]. rewrite Hnoslice. rewrite Hfmt.
      change (is_int_format "uint_be") with true. cbn iota.
      change (int_from_bytes bs (endswith "be" "uint_be")
                (startswith "int_" "uint_be")) with (be_value bs).
      rewrite Hv. reflexivity. }
    split; [apply Hd; exact H1 | apply Hd; exact H2].
  - intros Hfmt.
    pose proof (be_value_range bs Hr) as Hrange.
    rewrite pow256, Hl in Hrange by lia. fold w in Hrange.
    assert (Hw : 8 <= w).
    { unfold w. destruct h; [discriminate|]. cbn [String.length].
      destruct (String.length h) as [|n]; cbn [Nat.div2]; lia. }
    assert (Hpow : 2 ^ w = 2 * 2 ^ (w - 1)).
    { replace w with (Z.succ (w - 1)) at 1 by lia.
      rewrite Z.pow_succ_r by lia. reflexivity. }
    pose proof (top_bit (be_value bs) (w - 1) ltac:(lia)
                  ltac:(replace (w - 1 + 1) with w by lia; exact Hrange))
      as Htop.
    rewrite Hv in Hrange, Htop.
    split.
    + unfold decode_raw_value. rewrite H1. cbn [Py.bind].
      rewrite Hnoslice. rewrite Hfmt.
      change (is_int_format "int_be") with true. cbn iota.
      change (endswith "be" "int_be") with true.
      change (startswith "int_" "int_be") with true.
      unfold int_from_bytes. cbn [andb]. rewrite Hl. fold w. rewrite Hv.
      destruct (Z.testbit (hex_number h) (w - 1)) eqn:Et.
      * destruct (Z.leb_spec (2 ^ (w - 1)) (hex_number h)) as [_ | Hlt];
          [reflexivity|].
        assert (2 ^ (w - 1) <= hex_number h) by (apply Htop; reflexivity).
        lia.
      * destruct (Z.leb_spec (2 ^ (w - 1)) (hex_number h)) as [Hle | _];
          [|reflexivity].
        apply Htop in Hle. congruence.
    + destruct (Z.leb_spec (2 ^ (w - 1)) (hex_number h)); lia.
Qed.

Lemma decode_big_endian_witness :
  decode_raw_value "FFFB" (mkChannelConfig "int_be" 0.001 0%float None None)
  = PyFloat.of_int (-5).
Proof.
  apply (proj1 (proj2 (decode_big_endian "FFFB"
           (mkChannelConfig "int_be" 0.001 0%float None None)
           eq_refl eq_refl (or_introl eq_refl)) eq_refl)).
Defined.

End DecodeIntegers.
